(** * Upload orchestration of event-stream-api: a shallow embedding

    The development follows the TypeScript sources:
    - [src/common/exceptions]            -> [Exn]
    - [src/common/services/s3/s3.service.ts]   -> [Module S3Service]
    - [src/common/services/mux/mux.service.ts] -> [Module MuxService]
    - [src/modules/upload/upload.service.ts]   -> [Module UploadService]
    - [src/modules/upload/upload.controller.ts] -> [Module UploadController]

    Calls to the two external services (the S3 client's [send] and the Mux
    client's [video.assets.create]) and calls to the Nest [Logger] are the
    only effects of the code.  They are recorded as [Event]s; the answers of
    the external services come from a [World].  A sequential [async]
    function is a [Task]: the events it issues, in order, and how it
    settles.  A function that awaits [Promise.all] is an [Async]: a list of
    stages, each stage a group of tasks that run concurrently. *)

From Stdlib Require Import ZArith QArith Lia Permutation Ascii String.
From stdpp Require Import base list strings pretty.

Open Scope Z_scope.
Open Scope string_scope.

(** ** JavaScript values the code relies on *)

(** A string that the code only passes on, tests for emptiness or
    concatenates is a [string].  A string whose characters the code looks at
    (the titles the batch handler sanitizes) is a [JsString]: the sequence of
    its 16-bit code units, each a number below 65536. *)
Definition JsString : Type := list N.

(** The code units of a string of ASCII characters. *)
Definition code_units (s : string) : JsString := map N_of_ascii (list_ascii_of_string s).

(** The [string] of a [JsString] of ASCII characters. *)
Definition ascii_string (s : JsString) : string := string_of_list_ascii (map ascii_of_N s).

(** [x || d] on an optional string: [undefined] and the empty string are
    falsy. *)
Definition or_string (x : option string) (d : string) : string :=
  match x with
  | Some s => if decide (s = "") then d else s
  | None => d
  end.

(** [x || d] on an optional number: [undefined] and [0] are falsy. *)
Definition or_number (x : option Z) (d : Z) : Z :=
  match x with
  | Some n => if decide (n = 0) then d else n
  | None => d
  end.

(** What [String.prototype.trim] strips: the white space and the line
    terminators of ECMAScript.  TAB, LF, VT, FF, CR, SP, NBSP, U+1680,
    U+2000 to U+200A, U+2028, U+2029, U+202F, U+205F, U+3000 and U+FEFF. *)
Definition is_js_space (c : N) : bool :=
  ((0x9 <=? c) && (c <=? 0xD)
   || (c =? 0x20) || (c =? 0xA0) || (c =? 0x1680)
   || (0x2000 <=? c) && (c <=? 0x200A)
   || (c =? 0x2028) || (c =? 0x2029) || (c =? 0x202F) || (c =? 0x205F)
   || (c =? 0x3000) || (c =? 0xFEFF))%N.

Fixpoint trimStart (s : JsString) : JsString :=
  match s with
  | c :: s' => if is_js_space c then trimStart s' else s
  | [] => []
  end.

Fixpoint trimEnd (s : JsString) : JsString :=
  match s with
  | c :: s' =>
      match trimEnd s' with
      | [] => if is_js_space c then [] else [c]
      | rest => c :: rest
      end
  | [] => []
  end.

Definition trim (s : JsString) : JsString := trimEnd (trimStart s).

(** The character class [[a-zA-Z0-9-_. ]]. *)
Definition title_char (c : N) : bool :=
  ((0x61 <=? c) && (c <=? 0x7A)
   || (0x41 <=? c) && (c <=? 0x5A)
   || (0x30 <=? c) && (c <=? 0x39)
   || (c =? 0x2D) || (c =? 0x5F) || (c =? 0x2E) || (c =? 0x20))%N.

(** [s.replace(/[^...]/g, '')] for a one-character class and no [u] flag:
    every code unit outside the class is dropped. *)
Fixpoint keep_chars (p : N -> bool) (s : JsString) : JsString :=
  match s with
  | c :: s' => if p c then c :: keep_chars p s' else keep_chars p s'
  | [] => []
  end.

(** [xs.join(sep)] *)
Fixpoint join (sep : string) (xs : list string) : string :=
  match xs with
  | [] => ""
  | [x] => x
  | x :: rest => x +:+ sep +:+ join sep rest
  end.

(** ** Exceptions *)

(** [FileUploadException] extends Nest's [HttpException] with
    [HttpStatus.BAD_REQUEST]; [Error] is the plain JavaScript error, also
    used for whatever an external client throws. *)
Inductive Exn : Type :=
| FileUploadException (msg : string)
| Error (msg : string).

Definition message (e : Exn) : string :=
  match e with
  | FileUploadException m => m
  | Error m => m
  end.

(** [error.toString()]: the name of the error, then its message.  Nest's
    [HttpException] takes the name of its class. *)
Definition toString (e : Exn) : string :=
  match e with
  | FileUploadException m =>
      if decide (m = "") then "FileUploadException" else "FileUploadException: " +:+ m
  | Error m => if decide (m = "") then "Error" else "Error: " +:+ m
  end.

(** [HttpException.getStatus()], for the exceptions that have one. *)
Definition getStatus (e : Exn) : option Z :=
  match e with
  | FileUploadException _ => Some 400
  | Error _ => None
  end.

Inductive Result (A : Type) : Type :=
| Ok (a : A)
| Throw (e : Exn).
Arguments Ok {A} a.
Arguments Throw {A} e.

(** ** Effects *)

Inductive S3Command : Type :=
| PutObjectCommand (Bucket Key : string) (Body : list Byte.byte) (ContentType : string)
| HeadObjectCommand (Bucket Key : string)
| DeleteObjectCommand (Bucket Key : string).

(** What [s3Client.send] resolves to, or the message of what it throws.
    Only the two fields the code reads are kept. *)
Inductive S3Reply : Type :=
| S3Output (ContentType : option string) (ContentLength : option Z)
| S3Failure (msg : string).

(** The asset returned by [muxClient.video.assets.create]; [playback_ids]
    keeps the [id] of each entry. *)
Record MuxAsset : Type := {
  asset_id : string;
  asset_status : string;
  asset_duration : option Q;
  aspect_ratio : option string;
  playback_ids : option (list string);
  created_at : string;
  upload_id : option string
}.

Inductive MuxReply : Type :=
| MuxCreated (asset : MuxAsset)
| MuxFailure (msg : string).

Inductive Event : Type :=
| S3Send (c : S3Command)
| MuxAssetsCreate (url : string)
| LoggerError (msg : string)
| LoggerLog (msg : string).

#[global] Instance Byte_eq_dec : EqDecision Byte.byte := Byte.byte_eq_dec.
#[global] Instance S3Command_eq_dec : EqDecision S3Command.
Proof. solve_decision. Defined.
#[global] Instance Event_eq_dec : EqDecision Event.
Proof. solve_decision. Defined.

Definition is_delete (e : Event) : bool :=
  match e with
  | S3Send (DeleteObjectCommand _ _) => true
  | _ => false
  end.

Definition is_storage_call (e : Event) : bool :=
  match e with
  | S3Send _ => true
  | _ => false
  end.

(** The configuration read from [s3Config], the values drawn from
    [randomUUID] (the [n]-th file of a request gets [randomUUID n]) and the
    answers of the two external services. *)
Record World : Type := {
  bucketName : string;
  region : string;
  randomUUID : nat -> string;
  s3_reply : S3Command -> S3Reply;
  mux_reply : string -> MuxReply
}.

(** *** Sequential tasks *)

Record Task (A : Type) : Type := MkTask {
  events : list Event;
  outcome : Result A
}.
Arguments MkTask {A} events outcome.
Arguments events {A} t.
Arguments outcome {A} t.

#[global] Instance Task_ret : MRet Task := fun A a => MkTask [] (Ok a).

#[global] Instance Task_bind : MBind Task := fun A B f m =>
  match outcome m with
  | Ok a => MkTask (events m ++ events (f a)) (outcome (f a))
  | Throw e => MkTask (events m) (Throw e)
  end.

Definition throw {A} (e : Exn) : Task A := MkTask [] (Throw e).

(** The value a task resolves to, if it does. *)
Definition outcome_value {A} (t : Task A) : option A :=
  match outcome t with
  | Ok a => Some a
  | Throw _ => None
  end.

(** [try { body } catch (error) { handler }] *)
Definition try_catch {A} (body : Task A) (handler : Exn -> Task A) : Task A :=
  match outcome body with
  | Ok a => body
  | Throw e => MkTask (events body ++ events (handler e)) (outcome (handler e))
  end.

Definition emit (e : Event) : Task unit := MkTask [e] (Ok tt).

Definition logger_error (msg : string) : Task unit := emit (LoggerError msg).
Definition logger_log (msg : string) : Task unit := emit (LoggerLog msg).

(** [await this.s3Client.send(command)] *)
Definition s3Client_send (w : World) (c : S3Command) : Task (option string * option Z) :=
  MkTask [S3Send c]
    match s3_reply w c with
    | S3Output ct len => Ok (ct, len)
    | S3Failure m => Throw (Error m)
    end.

(** [await this.muxClient.video.assets.create({ input: [{ url }], ... })] *)
Definition assets_create (w : World) (url : string) : Task MuxAsset :=
  MkTask [MuxAssetsCreate url]
    match mux_reply w url with
    | MuxCreated a => Ok a
    | MuxFailure m => Throw (Error m)
    end.

(** *** Concurrent stages *)

(** A stage is a group of tasks started together and awaited together; the
    traces of its tasks may interleave in any way.  Stages follow one
    another. *)
Record Async (A : Type) : Type := MkAsync {
  stages : list (list (list Event));
  settled : Result A
}.
Arguments MkAsync {A} stages settled.
Arguments stages {A} a.
Arguments settled {A} a.

#[global] Instance Async_ret : MRet Async := fun A a => MkAsync [] (Ok a).

#[global] Instance Async_bind : MBind Async := fun A B f m =>
  match settled m with
  | Ok a => MkAsync (stages m ++ stages (f a)) (settled (f a))
  | Throw e => MkAsync (stages m) (Throw e)
  end.

Definition async_try_catch {A} (body : Async A) (handler : Exn -> Async A) : Async A :=
  match settled body with
  | Ok a => body
  | Throw e => MkAsync (stages body ++ stages (handler e)) (settled (handler e))
  end.

(** A sequential task awaited on its own is a stage of one task. *)
Definition await {A} (t : Task A) : Async A := MkAsync [[events t]] (outcome t).

(** The values of a list of settled results, or the first rejection.  (Which
    rejection [Promise.all] reports depends on timing; the list order is
    taken here.) *)
Fixpoint all_results {A} (rs : list (Result A)) : Result (list A) :=
  match rs with
  | [] => Ok []
  | Ok a :: rest =>
      match all_results rest with
      | Ok l => Ok (a :: l)
      | Throw e => Throw e
      end
  | Throw e :: _ => Throw e
  end.

(** [await Promise.all(tasks)] *)
Definition Promise_all {A} (tasks : list (Task A)) : Async (list A) :=
  MkAsync [map events tasks] (all_results (map outcome tasks)).

(** [await Promise.allSettled(tasks)]: never rejects. *)
Definition Promise_allSettled {A} (tasks : list (Task A)) : Async (list (Result A)) :=
  MkAsync [map events tasks] (Ok (map outcome tasks)).

(** The orders in which the events of concurrent tasks can be observed. *)
Inductive interleave {A : Type} : list (list A) -> list A -> Prop :=
| interleave_done ls :
    Forall (fun l => l = []) ls -> interleave ls []
| interleave_step ls1 x l ls2 t :
    interleave (ls1 ++ l :: ls2) t ->
    interleave (ls1 ++ (x :: l) :: ls2) (x :: t).

(** The observable traces of a run: stage after stage, each one interleaved. *)
Inductive trace_of : list (list (list Event)) -> list Event -> Prop :=
| trace_nil : trace_of [] []
| trace_stage g gs t1 t2 :
    interleave g t1 -> trace_of gs t2 -> trace_of (g :: gs) (t1 ++ t2).

(** The trace in which the tasks of every stage run one after the other. *)
Definition sequential_trace (gs : list (list (list Event))) : list Event :=
  concat (map (fun g => concat g) gs).

(** A run of an [Async]: one of its traces, and what it settles to. *)
Definition runs {A} (a : Async A) (t : list Event) (r : Result A) : Prop :=
  trace_of (stages a) t /\ settled a = r.

(** ** Data of the upload module *)

(** [Express.Multer.File], the fields the code reads. *)
Record File : Type := {
  originalname : string;
  mimetype : string;
  size : Z;
  buffer : list Byte.byte
}.

Inductive FileType : Type := video | image.

Definition FileType_name (t : FileType) : string :=
  match t with
  | video => "video"
  | image => "image"
  end.

(** [S3UploadResult]; the optional [metadata] is never set by the service. *)
Record Metadata : Type := {
  width : option Z;
  height : option Z;
  meta_duration : option Q
}.

Record S3UploadResult : Type := {
  url : string;
  key : string;
  contentType : string;
  s3_size : Z;
  s3_metadata : option Metadata
}.

(** ** [S3Service] *)

Module S3Service.

Definition ALLOWED_VIDEO_TYPES : list string :=
  ["video/mp4"; "video/quicktime"; "video/x-msvideo"; "video/x-matroska"; "video/webm"].

Definition ALLOWED_IMAGE_TYPES : list string :=
  ["image/jpeg"; "image/png"; "image/gif"; "image/webp"].

Definition allowedTypes (fileType : FileType) : list string :=
  match fileType with
  | video => ALLOWED_VIDEO_TYPES
  | image => ALLOWED_IMAGE_TYPES
  end.

Definition maxSize (fileType : FileType) : Z :=
  match fileType with
  | video => 100 * 1024 * 1024
  | image => 5 * 1024 * 1024
  end.

Definition validateFile (file : File) (fileType : FileType) : Task unit :=
  if bool_decide (mimetype file = "") || negb (bool_decide (mimetype file ∈ allowedTypes fileType))
  then throw (FileUploadException
                ("Invalid " +:+ FileType_name fileType +:+ " type. Allowed types: "
                 +:+ join ", " (allowedTypes fileType)))
  else if bool_decide (size file > maxSize fileType)
  then throw (FileUploadException
                ("File size exceeds limit. Maximum size for " +:+ FileType_name fileType
                 +:+ " is " +:+ pretty (maxSize fileType / (1024 * 1024)) +:+ "MB"))
  else mret tt.

Definition getFileMetadata (w : World) (key : string) : Task (string * Z) :=
  try_catch
    (response ← s3Client_send w (HeadObjectCommand (bucketName w) key);
     mret (or_string response.1 "application/octet-stream", or_number response.2 0))
    (fun error =>
       _ ← logger_error ("Failed to get file metadata: " +:+ message error);
       throw (FileUploadException ("Failed to get file metadata: " +:+ message error))).

(** The default of the parameter [folder]. *)
Definition defaultFolder (fileType : FileType) : string :=
  match fileType with
  | video => "videos"
  | image => "images"
  end.

(** [`${folder}/${randomUUID()}-${originalname}`] *)
Definition objectKey (folder uuid : string) (file : File) : string :=
  folder +:+ "/" +:+ uuid +:+ "-" +:+ originalname file.

(** [`https://${this.bucketName}.s3.${region}.amazonaws.com/${fileName}`] *)
Definition objectUrl (w : World) (fileName : string) : string :=
  "https://" +:+ bucketName w +:+ ".s3." +:+ region w +:+ ".amazonaws.com/" +:+ fileName.

(** [uuid] is what the call to [randomUUID()] returns.  [file] is not
    [null], as its type says, so the guard [if (!file)] is not taken. *)
Definition uploadFile (w : World) (uuid : string) (file : File) (fileType : FileType)
    (folder : option string) : Task S3UploadResult :=
  let folder := default (defaultFolder fileType) folder in
  _ ← validateFile file fileType;
  let fileName := objectKey folder uuid file in
  try_catch
    (_ ← s3Client_send w (PutObjectCommand (bucketName w) fileName (buffer file) (mimetype file));
     metadata ← getFileMetadata w fileName;
     mret {| url := objectUrl w fileName;
             key := fileName;
             contentType := metadata.1;
             s3_size := metadata.2;
             s3_metadata := None |})
    (fun error =>
       _ ← logger_error ("Failed to upload file to S3: " +:+ message error);
       throw (FileUploadException ("Failed to upload file to S3: " +:+ message error))).

Arguments objectKey : simpl never.
Arguments objectUrl : simpl never.

Definition deleteFile (w : World) (key : string) : Task unit :=
  try_catch
    (_ ← s3Client_send w (DeleteObjectCommand (bucketName w) key);
     logger_log ("Successfully deleted file from S3: " +:+ key))
    (fun error =>
       _ ← logger_error ("Failed to delete file from S3: " +:+ message error);
       throw (FileUploadException ("Failed to delete file from S3: " +:+ message error))).

Inductive SettledStatus : Type := fulfilled | rejected.

(** One entry of the array [uploadMultipleFiles] resolves to. *)
Record Settled : Type := {
  status : SettledStatus;
  value : option S3UploadResult;
  reason : option string;
  fileName : string
}.

(** [this.uploadFile(file, fileType, folder).then(...).catch(...)] *)
Definition uploadPromise (w : World) (uuid : string) (file : File) (fileType : FileType)
    (folder : option string) : Task Settled :=
  try_catch
    (value ← uploadFile w uuid file fileType folder;
     mret {| status := fulfilled; value := Some value; reason := None;
             fileName := originalname file |})
    (fun error =>
       mret {| status := rejected; value := None; reason := Some (message error);
               fileName := originalname file |}).

Definition uploadMultipleFiles (w : World) (files : option (list File)) (fileType : FileType)
    (folder : option string) : Async (list Settled) :=
  match files with
  | None | Some [] => mret []
  | Some files =>
      let uploadPromises :=
        imap (fun n file => uploadPromise w (randomUUID w n) file fileType folder) files in
      async_try_catch
        (Promise_all uploadPromises)
        (fun error =>
           _ ← await (logger_error ("Failed to process upload batch: " +:+ message error));
           await (throw (FileUploadException
                           ("Failed to process upload batch: " +:+ message error))))
  end.

End S3Service.

(** ** [MuxService] *)

Module MuxService.

(** [VideoMetadata]; [createdAt] holds the timestamp handed to [new Date]. *)
Record VideoMetadata : Type := {
  id : string;
  title : string;
  status : string;
  duration : option Q;
  aspectRatio : option string;
  playbackId : option string;
  createdAt : string;
  uploadId : option string;
  s3Url : string
}.

Definition createAsset (w : World) (videoUrl : string) (title : string) : Task VideoMetadata :=
  try_catch
    (asset ← assets_create w videoUrl;
     mret {| id := asset_id asset;
             title := title;
             status := asset_status asset;
             duration := asset_duration asset;
             aspectRatio := aspect_ratio asset;
             playbackId := playback_ids asset ≫= head;
             createdAt := created_at asset;
             uploadId := upload_id asset;
             s3Url := videoUrl |})
    (fun error =>
       _ ← logger_error ("Failed to create Mux asset: " +:+ message error);
       throw (Error "Failed to process video with Mux")).

(** An element of the argument of [createMultipleAssets]. *)
Record VideoInput : Type := {
  input_url : string;
  input_title : string
}.

(** An entry of the array [createMultipleAssets] resolves to. *)
Record AssetSettled : Type := {
  settled_status : S3Service.SettledStatus;
  settled_value : option VideoMetadata;
  settled_reason : option string
}.

(** The callback [(result) => ...] mapped over the settled results. *)
Definition assetSettled (result : Result VideoMetadata) : Task AssetSettled :=
  match result with
  | Ok value =>
      mret {| settled_status := S3Service.fulfilled; settled_value := Some value;
              settled_reason := None |}
  | Throw reason =>
      _ ← logger_error ("Failed to create Mux asset: " +:+ toString reason);
      mret {| settled_status := S3Service.rejected; settled_value := None;
              settled_reason := Some (or_string (Some (toString reason)) "Unknown error") |}
  end.

Definition createMultipleAssets (w : World) (videos : list VideoInput)
    : Async (list AssetSettled) :=
  async_try_catch
    (results ← Promise_allSettled
                 (map (fun video => createAsset w (input_url video) (input_title video))
                    videos);
     await (mapM assetSettled results))
    (fun error =>
       _ ← await (logger_error ("Failed to create multiple Mux assets: " +:+ message error));
       await (throw (Error "Failed to process multiple videos with Mux"))).

End MuxService.

(** ** [UploadService] *)

Module UploadService.

Inductive UploadStatus : Type := success | failed.

(** The [data] of an [UploadResult].  The fields spread from
    [...muxResult] are absent for an image. *)
Record UploadData : Type := {
  id : option string;
  title : option string;
  data_url : string;
  data_status : option string;
  duration : option Q;
  aspectRatio : option string;
  playbackId : option string;
  createdAt : option string;
  uploadId : option string;
  s3Url : string;
  data_contentType : string;
  data_size : Z;
  metadata : option Metadata
}.

Record UploadResult : Type := {
  status : UploadStatus;
  data : option UploadData;
  error : option string;
  fileName : string
}.

(** [{ ...muxResult, url: s3.url, contentType: s3.contentType, size: s3.size }] *)
Definition videoData (muxResult : MuxService.VideoMetadata) (s3 : S3UploadResult) : UploadData :=
  {| id := Some (MuxService.id muxResult);
     title := Some (MuxService.title muxResult);
     data_url := url s3;
     data_status := Some (MuxService.status muxResult);
     duration := MuxService.duration muxResult;
     aspectRatio := MuxService.aspectRatio muxResult;
     playbackId := MuxService.playbackId muxResult;
     createdAt := Some (MuxService.createdAt muxResult);
     uploadId := MuxService.uploadId muxResult;
     s3Url := MuxService.s3Url muxResult;
     data_contentType := contentType s3;
     data_size := s3_size s3;
     metadata := None |}.

(** [{ url, s3Url: url, contentType, size, metadata }] *)
Definition imageData (s3 : S3UploadResult) : UploadData :=
  {| id := None;
     title := None;
     data_url := url s3;
     data_status := None;
     duration := None;
     aspectRatio := None;
     playbackId := None;
     createdAt := None;
     uploadId := None;
     s3Url := url s3;
     data_contentType := contentType s3;
     data_size := s3_size s3;
     metadata := s3_metadata s3 |}.

Definition uploadVideo (w : World) (file : File) (title : option string) : Task UploadResult :=
  try_catch
    (s3Result ← S3Service.uploadFile w (randomUUID w 0) file video None;
     muxResult ← MuxService.createAsset w (url s3Result) (or_string title (originalname file));
     mret {| status := success;
             data := Some (videoData muxResult s3Result);
             error := None;
             fileName := originalname file |})
    (fun error =>
       _ ← logger_error ("Failed to upload video: " +:+ message error);
       mret {| status := failed;
               data := None;
               error := Some (message error);
               fileName := originalname file |}).

Definition uploadImage (w : World) (file : File) : Task UploadResult :=
  try_catch
    (result ← S3Service.uploadFile w (randomUUID w 0) file image None;
     mret {| status := success;
             data := Some (imageData result);
             error := None;
             fileName := originalname file |})
    (fun error =>
       _ ← logger_error ("Failed to upload image: " +:+ message error);
       mret {| status := failed;
               data := None;
               error := Some (message error);
               fileName := originalname file |}).

(** [titles?.[index] || files[index].originalname]; reading [originalname]
    of a missing entry is a [TypeError]. *)
Definition titleOf (files : list File) (titles : option (list string)) (index : nat)
    : Task string :=
  let originalname_of_file :=
    match files !! index with
    | Some file => mret (originalname file)
    | None => throw (Error "Cannot read properties of undefined (reading 'originalname')")
    end in
  match titles ≫= (fun ts => ts !! index) with
  | Some t => if decide (t = "") then originalname_of_file else mret t
  | None => originalname_of_file
  end.

(** The callback [async (result, index) => ...] mapped over [s3Results]. *)
Definition processS3Result (w : World) (files : list File) (titles : option (list string))
    (index : nat) (result : S3Service.Settled) : Task UploadResult :=
  match S3Service.status result, S3Service.value result with
  | S3Service.fulfilled, Some value =>
      try_catch
        (title ← titleOf files titles index;
         muxResult ← MuxService.createAsset w (url value) title;
         mret {| status := success;
                 data := Some (videoData muxResult value);
                 error := None;
                 fileName := S3Service.fileName result |})
        (fun error =>
           _ ← try_catch
                 (S3Service.deleteFile w (key value))
                 (fun err =>
                    logger_error ("Failed to delete failed upload from S3: " +:+ message err));
           mret {| status := failed;
                   data := None;
                   error := Some ("Mux processing failed: " +:+ message error);
                   fileName := S3Service.fileName result |})
  | _, _ =>
      mret {| status := failed;
              data := None;
              error := S3Service.reason result;
              fileName := S3Service.fileName result |}
  end.

Definition uploadMultipleVideos (w : World) (files : option (list File))
    (titles : option (list string)) : Async (list UploadResult) :=
  match files with
  | None | Some [] => mret []
  | Some fs =>
      async_try_catch
        (s3Results ← S3Service.uploadMultipleFiles w files video None;
         results ← Promise_all (imap (processS3Result w fs titles) s3Results);
         mret results)
        (fun error =>
           _ ← await (logger_error ("Batch upload failed: " +:+ message error));
           await (throw (FileUploadException ("Batch upload failed: " +:+ message error))))
  end.

(** The callback [(result) => ...] mapped over the results for images. *)
Definition imageResult (result : S3Service.Settled) : UploadResult :=
  match S3Service.status result, S3Service.value result with
  | S3Service.fulfilled, Some value =>
      {| status := success;
         data := Some (imageData value);
         error := None;
         fileName := S3Service.fileName result |}
  | _, _ =>
      {| status := failed;
         data := None;
         error := S3Service.reason result;
         fileName := S3Service.fileName result |}
  end.

Definition uploadMultipleImages (w : World) (files : option (list File))
    : Async (list UploadResult) :=
  match files with
  | None | Some [] => mret []
  | Some _ =>
      async_try_catch
        (results ← S3Service.uploadMultipleFiles w files image None;
         mret (map imageResult results))
        (fun error =>
           _ ← await (logger_error ("Batch image upload failed: " +:+ message error));
           await (throw (FileUploadException
                           ("Batch image upload failed: " +:+ message error))))
  end.

End UploadService.

(** ** [UploadController] *)

Module UploadController.

(** A field of the multipart body as the handler receives it: missing, a
    single text value, or an array whose entries may be [null]. *)
Inductive BodyField : Type :=
| absent
| text (s : JsString)
| array (items : list (option JsString)).

(** [title?.trim().replace(/[^a-zA-Z0-9-_. ]/g, '') || ''].  What the
    replacement leaves is made of ASCII characters; the service gets it as a
    [string]. *)
Definition sanitizeTitle (title : option JsString) : string :=
  or_string ((fun t => ascii_string (keep_chars title_char (trim t))) <$> title) "".

(** The handler bodies.  The [ParseFilePipe] validators of the parameter
    decorators run before them and are not part of the handlers. *)
Definition uploadVideo (w : World) (file : File) (title : option string)
    : Task UploadService.UploadResult :=
  UploadService.uploadVideo w file title.

Definition uploadImage (w : World) (file : File) : Task UploadService.UploadResult :=
  UploadService.uploadImage w file.

Definition uploadMultipleVideos (w : World) (files : option (list File))
    (rawTitles : BodyField) : Async (list UploadService.UploadResult) :=
  let titles :=
    match rawTitles with
    | array items => Some (map sanitizeTitle items)
    | _ => None
    end in
  UploadService.uploadMultipleVideos w files titles.

Definition uploadMultipleImages (w : World) (files : option (list File))
    : Async (list UploadService.UploadResult) :=
  UploadService.uploadMultipleImages w files.

End UploadController.

(** ** The earlier revision of the upload module

    The repository also holds an earlier revision of the storage client,
    of the upload service and of its controller, with videos only.  Its
    [deleteFile] and the Mux client's [createAsset] and
    [createMultipleAssets] are the ones above. *)

Module LegacyS3Service.

Definition ALLOWED_MIME_TYPES : list string :=
  ["video/mp4"; "video/quicktime"; "video/x-msvideo"; "video/x-matroska"; "video/webm"].

Definition validateFile (file : File) : Task unit :=
  if bool_decide (mimetype file = "") || negb (bool_decide (mimetype file ∈ ALLOWED_MIME_TYPES))
  then throw (FileUploadException
                ("Invalid file type. Allowed types: " +:+ join ", " ALLOWED_MIME_TYPES))
  else mret tt.

(** What [uploadFile] resolves to. *)
Record Stored : Type := {
  url : string;
  key : string
}.

(** [uuid] is what the call to [randomUUID()] returns; [file] is not
    [null]. *)
Definition uploadFile (w : World) (uuid : string) (file : File) (folder : option string)
    : Task Stored :=
  let folder := default "videos" folder in
  _ ← validateFile file;
  let fileName := S3Service.objectKey folder uuid file in
  try_catch
    (_ ← s3Client_send w (PutObjectCommand (bucketName w) fileName (buffer file) (mimetype file));
     mret {| url := S3Service.objectUrl w fileName; key := fileName |})
    (fun error =>
       _ ← logger_error ("Failed to upload file to S3: " +:+ message error);
       throw (FileUploadException ("Failed to upload file to S3: " +:+ message error))).

(** One entry of the array [uploadMultipleFiles] resolves to. *)
Record Settled : Type := {
  status : S3Service.SettledStatus;
  value : option Stored;
  reason : option string
}.

(** The callback [(result) => ...] mapped over the settled results. *)
Definition settledEntry (result : Result Stored) : Task Settled :=
  match result with
  | Ok value => mret {| status := S3Service.fulfilled; value := Some value; reason := None |}
  | Throw reason =>
      _ ← logger_error ("Failed to upload file to S3: " +:+ toString reason);
      mret {| status := S3Service.rejected; value := None;
              reason := Some (or_string (Some (toString reason)) "Unknown error") |}
  end.

(** The file at position [n] of the argument gets the value
    [randomUUID (first + n)]: [first] counts the files of the request that
    earlier calls have dealt with. *)
Definition uploadMultipleFiles (w : World) (first : nat) (files : list File)
    (folder : option string) : Async (list Settled) :=
  match files with
  | [] => mret []
  | _ =>
      let uploadPromises :=
        imap (fun n file => uploadFile w (randomUUID w (first + n)) file folder) files in
      async_try_catch
        (results ← Promise_allSettled uploadPromises;
         await (mapM settledEntry results))
        (fun error =>
           _ ← await (logger_error ("Failed to process upload batch: " +:+ message error));
           await (throw (FileUploadException
                           ("Failed to process upload batch: " +:+ message error))))
  end.

End LegacyS3Service.

Module LegacyUploadService.

Definition MAX_CONCURRENT_UPLOADS : nat := 5.
Definition MAX_FILES_PER_REQUEST : nat := 10.

Record VideoResponseDto : Type := {
  id : string;
  title : string;
  status : string;
  uploadUrl : string;
  playbackId : option string;
  duration : option Q;
  aspectRatio : option string;
  createdAt : string
}.

(** An element of the array [uploadMultipleVideos] resolves to. *)
Record BatchResult : Type := {
  result_status : UploadService.UploadStatus;
  data : option VideoResponseDto;
  error : option string;
  fileName : string
}.

Definition uploadVideo (w : World) (file : File) (title : option string)
    : Task VideoResponseDto :=
  try_catch
    (s3Url ← LegacyS3Service.uploadFile w (randomUUID w 0) file None;
     let s3UrlString := LegacyS3Service.url s3Url in
     _ ← logger_log ("Video uploaded to S3: " +:+ s3UrlString);
     videoMetadata ← MuxService.createAsset w s3UrlString (or_string title (originalname file));
     mret {| id := MuxService.id videoMetadata;
             title := MuxService.title videoMetadata;
             status := MuxService.status videoMetadata;
             uploadUrl := s3UrlString;
             playbackId := MuxService.playbackId videoMetadata;
             duration := MuxService.duration videoMetadata;
             aspectRatio := MuxService.aspectRatio videoMetadata;
             createdAt := MuxService.createdAt videoMetadata |})
    (fun error =>
       _ ← logger_error ("Video upload failed: " +:+ message error);
       throw (FileUploadException ("Failed to process video upload: " +:+ message error))).

Definition cleanupS3File (w : World) (key : string) : Task unit :=
  try_catch
    (S3Service.deleteFile w key)
    (fun error =>
       logger_error ("Failed to cleanup S3 file " +:+ key +:+ ": " +:+ message error)).

(** An entry of [successfulS3Uploads]: a storage result with its title. *)
Record WithTitle : Type := {
  s3 : LegacyS3Service.Settled;
  s3_title : string
}.

(** [result.status === 'fulfilled' && !!result.value] *)
Definition isSuccessful (r : WithTitle) : bool :=
  match LegacyS3Service.status (s3 r), LegacyS3Service.value (s3 r) with
  | S3Service.fulfilled, Some _ => true
  | _, _ => false
  end.

(** [{ url: result.value.url, title: result.title }] for an entry that
    passed the filter. *)
Definition videoInput (r : WithTitle) : Task MuxService.VideoInput :=
  match LegacyS3Service.value (s3 r) with
  | Some stored =>
      mret {| MuxService.input_url := LegacyS3Service.url stored;
              MuxService.input_title := s3_title r |}
  | None => throw (Error "Cannot read properties of undefined (reading 'url')")
  end.

(** [file.originalname] for [file = batch[j]] *)
Definition originalnameAt (batch : list File) (j : nat) : Task string :=
  match batch !! j with
  | Some file => mret (originalname file)
  | None => throw (Error "Cannot read properties of undefined (reading 'originalname')")
  end.

(** The body of the loop over [j]: what it pushes to [results]. *)
Definition processItem (w : World) (batch : list File)
    (s3Results : list LegacyS3Service.Settled) (muxResults : list MuxService.AssetSettled)
    (j : nat) : Task BatchResult :=
  match s3Results !! j with
  | None => throw (Error "Cannot read properties of undefined (reading 'status')")
  | Some s3Result =>
      let muxResult := muxResults !! j in
      match LegacyS3Service.status s3Result with
      | S3Service.rejected =>
          fileName ← originalnameAt batch j;
          mret {| result_status := UploadService.failed; data := None;
                  error := LegacyS3Service.reason s3Result; fileName := fileName |}
      | S3Service.fulfilled =>
          match muxResult with
          | Some {| MuxService.settled_status := S3Service.fulfilled;
                    MuxService.settled_value := value |} =>
              match value with
              | Some value =>
                  fileName ← originalnameAt batch j;
                  mret {| result_status := UploadService.success;
                          data := Some {| id := MuxService.id value;
                                          title := MuxService.title value;
                                          status := MuxService.status value;
                                          uploadUrl := MuxService.s3Url value;
                                          playbackId := MuxService.playbackId value;
                                          duration := MuxService.duration value;
                                          aspectRatio := MuxService.aspectRatio value;
                                          createdAt := MuxService.createdAt value |};
                          error := None; fileName := fileName |}
              | None => throw (Error "Cannot read properties of undefined (reading 'id')")
              end
          | _ =>
              match LegacyS3Service.value s3Result with
              | Some stored =>
                  _ ← cleanupS3File w (LegacyS3Service.key stored);
                  fileName ← originalnameAt batch j;
                  mret {| result_status := UploadService.failed; data := None;
                          error := Some (or_string (muxResult ≫= MuxService.settled_reason)
                                           "Failed to process with Mux");
                          fileName := fileName |}
              | None => throw (Error "Cannot read properties of undefined (reading 'key')")
              end
          end
      end
  end.

(** The body of the loop over [i], for [batch = files.slice(i, i + 5)]:
    the results it pushes. *)
Definition processBatch (w : World) (i : nat) (batch : list File)
    (batchTitles : option (list string)) : Async (list BatchResult) :=
  s3Results ← LegacyS3Service.uploadMultipleFiles w i batch None;
  _ ← await (logger_log ("Batch processed by S3: " +:+ pretty (length s3Results) +:+ " files"));
  withTitles ← await (mapM (fun '(index, result) =>
                              title ← UploadService.titleOf batch batchTitles index;
                              mret {| s3 := result; s3_title := title |})
                        (imap pair s3Results));
  let successfulS3Uploads := List.filter isSuccessful withTitles in
  videos ← await (mapM videoInput successfulS3Uploads);
  muxResults ← MuxService.createMultipleAssets w videos;
  await (mapM (processItem w batch s3Results muxResults) (seq 0 (length batch))).

(** [for (let i = 0; i < files.length; i += 5)]: the loop runs at most
    [files.length] times, which [fuel] counts. *)
Fixpoint batches (w : World) (files : list File) (titles : option (list string))
    (fuel i : nat) (results : list BatchResult) : Async (list BatchResult) :=
  match fuel with
  | O => mret results
  | S fuel =>
      if bool_decide (i < length files)%nat
      then
        batchResults ← processBatch w i
                         (take MAX_CONCURRENT_UPLOADS (drop i files))
                         (take MAX_CONCURRENT_UPLOADS ∘ drop i <$> titles);
        batches w files titles fuel (i + MAX_CONCURRENT_UPLOADS) (results ++ batchResults)
      else mret results
  end.

Definition uploadMultipleVideos (w : World) (files : list File)
    (titles : option (list string)) : Async (list BatchResult) :=
  (* [titles && titles.length !== files.length] *)
  let mismatch :=
    match titles with
    | Some ts => negb (length ts =? length files)%nat
    | None => false
    end in
  if (MAX_FILES_PER_REQUEST <? length files)%nat
  then MkAsync (A := list BatchResult) []
         (Throw (FileUploadException
                   ("Maximum " +:+ pretty MAX_FILES_PER_REQUEST
                    +:+ " files allowed per request")))
  else if mismatch
  then MkAsync (A := list BatchResult) []
         (Throw (FileUploadException "Number of titles must match number of files"))
  else
    async_try_catch
      (batches w files titles (length files) 0 [])
      (fun error =>
         _ ← await (logger_error
                      ("Multiple video upload process failed: " +:+ message error));
         await (throw (FileUploadException
                         ("Failed to process multiple video upload: " +:+ message error)))).

End LegacyUploadService.

Module LegacyUploadController.

(** The handler bodies of the earlier controller. *)
Definition uploadVideo (w : World) (file : File) (title : option string)
    : Task LegacyUploadService.VideoResponseDto :=
  LegacyUploadService.uploadVideo w file title.

Definition uploadMultipleVideos (w : World) (files : list File)
    (rawTitles : UploadController.BodyField)
    : Async (list LegacyUploadService.BatchResult) :=
  let titles :=
    match rawTitles with
    | UploadController.array items => map UploadController.sanitizeTitle items
    | _ => []
    end in
  LegacyUploadService.uploadMultipleVideos w files (Some titles).

End LegacyUploadController.

(** ** Sample inputs *)

Definition clip : File :=
  {| originalname := "clip.mp4"; mimetype := "video/mp4"; size := 50; buffer := [] |}.

Definition big_png : File :=
  {| originalname := "photo.png"; mimetype := "image/png"; size := 6 * 1024 * 1024;
     buffer := [] |}.

Definition sample_asset : MuxAsset :=
  {| asset_id := "asset-1"; asset_status := "preparing"; asset_duration := None;
     aspect_ratio := None; playback_ids := Some ["pb-1"];
     created_at := "1700000000"; upload_id := None |}.

Definition uuid_of (n : nat) : string := "uuid" +:+ pretty n.

(** Every call succeeds. *)
Definition good_world : World :=
  {| bucketName := "bucket"; region := "eu-west-1"; randomUUID := uuid_of;
     s3_reply := fun c =>
       match c with
       | HeadObjectCommand _ _ => S3Output (Some "video/mp4") (Some 50)
       | _ => S3Output None None
       end;
     mux_reply := fun _ => MuxCreated sample_asset |}.

(** Storage succeeds, asset creation fails, deletion fails too. *)
Definition mux_down_world : World :=
  {| bucketName := "bucket"; region := "eu-west-1"; randomUUID := uuid_of;
     s3_reply := fun c =>
       match c with
       | HeadObjectCommand _ _ => S3Output (Some "video/mp4") (Some 50)
       | DeleteObjectCommand _ _ => S3Failure "AccessDenied"
       | _ => S3Output None None
       end;
     mux_reply := fun _ => MuxFailure "503" |}.

(** The put succeeds, the head fails. *)
Definition head_down_world : World :=
  {| bucketName := "bucket"; region := "eu-west-1"; randomUUID := uuid_of;
     s3_reply := fun c =>
       match c with
       | HeadObjectCommand _ _ => S3Failure "NotFound"
       | _ => S3Output None None
       end;
     mux_reply := fun _ => MuxCreated sample_asset |}.

(** No call to the storage service succeeds. *)
Definition storage_down_world : World :=
  {| bucketName := "bucket"; region := "eu-west-1"; randomUUID := uuid_of;
     s3_reply := fun _ => S3Failure "SlowDown";
     mux_reply := fun _ => MuxCreated sample_asset |}.

(** ** Notions used in the statements *)

(** The file passes [validateFile]. *)
Definition valid (file : File) (fileType : FileType) : Prop :=
  mimetype file <> "" /\ mimetype file ∈ S3Service.allowedTypes fileType
  /\ size file <= S3Service.maxSize fileType.

(** What [uploadFile] can issue: puts, heads and error logs. *)
Definition upload_event (e : Event) : Prop :=
  match e with
  | S3Send (PutObjectCommand _ _ _ _) | S3Send (HeadObjectCommand _ _) | LoggerError _ => True
  | _ => False
  end.

(** The promises [uploadMultipleFiles] builds for a request. *)
Definition uploadPromises (w : World) (files : list File) (fileType : FileType)
    (folder : option string) : list (Task S3Service.Settled) :=
  imap (fun n file => S3Service.uploadPromise w (randomUUID w n) file fileType folder) files.

(** The two shapes of an entry of [s3Results]. *)
Definition fulfilledWith (v : S3UploadResult) (name : string) : S3Service.Settled :=
  {| S3Service.status := S3Service.fulfilled; S3Service.value := Some v;
     S3Service.reason := None; S3Service.fileName := name |}.

Definition rejectedWith (r : string) (name : string) : S3Service.Settled :=
  {| S3Service.status := S3Service.rejected; S3Service.value := None;
     S3Service.reason := Some r; S3Service.fileName := name |}.

(** [{ status: 'failed', error: msg, fileName: name }] *)
Definition failedResult (msg name : string) : UploadService.UploadResult :=
  {| UploadService.status := UploadService.failed; UploadService.data := None;
     UploadService.error := Some msg; UploadService.fileName := name |}.

(** The delete call for a stored object. *)
Definition deleteOf (w : World) (v : S3UploadResult) : Event :=
  S3Send (DeleteObjectCommand (bucketName w) (key v)).

(** The callbacks [uploadMultipleVideos] maps over the storage results. *)
Definition callbacks (w : World) (files : list File) (titles : option (list string))
    (s3Results : list S3Service.Settled) : list (Task UploadService.UploadResult) :=
  imap (UploadService.processS3Result w files titles) s3Results.

(** The entry of [s3Results] for a file. *)
Definition settledOf (w : World) (n : nat) (file : File) (fileType : FileType)
    : S3Service.Settled :=
  match outcome (S3Service.uploadFile w (randomUUID w n) file fileType None) with
  | Ok v => fulfilledWith v (originalname file)
  | Throw e => rejectedWith (message e) (originalname file)
  end.

(** The storage keys of the files of a batch of videos. *)
Definition videoKeys (w : World) (files : list File) : list string :=
  imap (fun n file => S3Service.objectKey "videos" (randomUUID w n) file) files.

(** A string of white space only. *)
Definition blank (s : JsString) : Prop :=
  Forall (fun c => is_js_space c = true) s.

(** The code units [String.prototype.trim] strips, listed. *)
Definition js_white_space : list N :=
  [0x9; 0xA; 0xB; 0xC; 0xD; 0x20; 0xA0; 0x1680;
   0x2000; 0x2001; 0x2002; 0x2003; 0x2004; 0x2005; 0x2006; 0x2007; 0x2008; 0x2009; 0x200A;
   0x2028; 0x2029; 0x202F; 0x205F; 0x3000; 0xFEFF]%N.

(** Kinds of calls, for counting them in a trace. *)
Definition is_put (e : Event) : bool :=
  match e with
  | S3Send (PutObjectCommand _ _ _ _) => true
  | _ => false
  end.

Definition is_head (e : Event) : bool :=
  match e with
  | S3Send (HeadObjectCommand _ _) => true
  | _ => false
  end.

Definition is_asset_creation (e : Event) : bool :=
  match e with
  | MuxAssetsCreate _ => true
  | _ => false
  end.

(** A call to one of the two external services. *)
Definition is_network_event (e : Event) : bool :=
  match e with
  | S3Send _ | MuxAssetsCreate _ => true
  | LoggerError _ | LoggerLog _ => false
  end.

(** Number of events of a trace that satisfy [p]. *)
Definition calls (p : Event -> bool) (t : list Event) : nat :=
  length (List.filter p t).

(** [1] when the condition holds, [0] otherwise. *)
Definition indicator (b : bool) : nat := if b then 1%nat else 0%nat.

(** The storage write of the [n]-th file of a request succeeds. *)
Definition stored (w : World) (n : nat) (file : File) (fileType : FileType)
    (folder : option string) : bool :=
  match outcome (S3Service.uploadFile w (randomUUID w n) file fileType folder) with
  | Ok _ => true
  | Throw _ => false
  end.

(** The file passes [validateFile], as a test. *)
Definition validb (file : File) (fileType : FileType) : bool :=
  negb (bool_decide (mimetype file = ""))
  && bool_decide (mimetype file ∈ S3Service.allowedTypes fileType)
  && bool_decide (size file <= S3Service.maxSize fileType).

(** Asset creation fails for the stored object of the [n]-th file. *)
Definition processing_fails (w : World) (n : nat) (file : File) : bool :=
  match outcome (S3Service.uploadFile w (randomUUID w n) file video None) with
  | Ok v =>
      match mux_reply w (url v) with
      | MuxFailure _ => true
      | MuxCreated _ => false
      end
  | Throw _ => false
  end.

(** The entry [createMultipleAssets] yields for a settled asset creation. *)
Definition assetEntry (result : Result MuxService.VideoMetadata) : MuxService.AssetSettled :=
  match result with
  | Ok value =>
      {| MuxService.settled_status := S3Service.fulfilled;
         MuxService.settled_value := Some value;
         MuxService.settled_reason := None |}
  | Throw reason =>
      {| MuxService.settled_status := S3Service.rejected;
         MuxService.settled_value := None;
         MuxService.settled_reason := Some (or_string (Some (toString reason)) "Unknown error") |}
  end.

(** Sample arguments of [createMultipleAssets]. *)
Definition two_videos : list MuxService.VideoInput :=
  [{| MuxService.input_url := "https://bucket/a.mp4"; MuxService.input_title := "A" |};
   {| MuxService.input_url := "https://bucket/a.mp4"; MuxService.input_title := "B" |}].

(** The entry the earlier [uploadMultipleFiles] yields for a settled
    upload. *)
Definition legacyEntry (result : Result LegacyS3Service.Stored) : LegacyS3Service.Settled :=
  match result with
  | Ok value =>
      {| LegacyS3Service.status := S3Service.fulfilled;
         LegacyS3Service.value := Some value;
         LegacyS3Service.reason := None |}
  | Throw reason =>
      {| LegacyS3Service.status := S3Service.rejected;
         LegacyS3Service.value := None;
         LegacyS3Service.reason := Some (toString reason) |}
  end.

(** How the earlier [uploadFile] settles for the file at position [n] of a
    batch that starts at file [i] of the request. *)
Definition legacyUpload (w : World) (i n : nat) (file : File)
    : Result LegacyS3Service.Stored :=
  outcome (LegacyS3Service.uploadFile w (randomUUID w (i + n)) file None).

Definition legacyS3Results (w : World) (i : nat) (batch : list File)
    : list LegacyS3Service.Settled :=
  imap (fun n file => legacyEntry (legacyUpload w i n file)) batch.

(** The videos of a batch that are handed to [createMultipleAssets]: the
    stored ones, in order, each with the title of its own position. *)
Definition legacyVideos (w : World) (i : nat) (batch : list File)
    (batchTitles : option (list string)) : list MuxService.VideoInput :=
  omap id
    (imap (fun n file =>
             match legacyUpload w i n file with
             | Ok stored =>
                 Some {| MuxService.input_url := LegacyS3Service.url stored;
                         MuxService.input_title :=
                           or_string (batchTitles ≫= (fun ts => ts !! n))
                             (originalname file) |}
             | Throw _ => None
             end) batch).

(** What [createMultipleAssets] resolves to for these videos. *)
Definition legacyMuxResults (w : World) (videos : list MuxService.VideoInput)
    : list MuxService.AssetSettled :=
  map assetEntry
    (map outcome
       (map (fun video => MuxService.createAsset w (MuxService.input_url video)
                            (MuxService.input_title video)) videos)).

(** A failed result of the earlier batch upload. *)
Definition legacyFailed (msg : option string) (name : string)
    : LegacyUploadService.BatchResult :=
  {| LegacyUploadService.result_status := UploadService.failed;
     LegacyUploadService.data := None;
     LegacyUploadService.error := msg;
     LegacyUploadService.fileName := name |}.

(** * Properties *)

(** ** Traces of concurrent stages *)

Section Traces.
Context {A : Type}.
Implicit Types (ls : list (list A)) (t : list A).

Lemma concat_all_nil ls : Forall (fun l => l = []) ls -> concat ls = [].
Proof.
  induction 1 as [|l ls Hl _ IH]; [done|].
  by rewrite Hl; simpl.
Qed.

(** An interleaving only reorders the events of the tasks. *)
Lemma interleave_Permutation ls t : interleave ls t -> t ≡ₚ concat ls.
Proof.
  induction 1 as [ls Hnil | ls1 x l ls2 t _ IH].
  - by rewrite concat_all_nil.
  - rewrite concat_app in IH |- *. simpl in IH |- *.
    rewrite IH. apply Permutation_middle.
Qed.

Lemma interleave_idle ls t : interleave ls t -> interleave ([] :: ls) t.
Proof.
  induction 1 as [ls Hnil | ls1 x l ls2 t _ IH].
  - apply interleave_done. by constructor.
  - apply (interleave_step ([] :: ls1)). exact IH.
Qed.

Lemma interleave_first l ls t : interleave ls t -> interleave (l :: ls) (l ++ t).
Proof.
  intros H. induction l as [|x l IH]; simpl.
  - by apply interleave_idle.
  - by apply (interleave_step []).
Qed.

(** Running the tasks one after the other is one of the interleavings. *)
Lemma interleave_concat ls : interleave ls (concat ls).
Proof.
  induction ls as [|l ls IH]; simpl.
  - apply interleave_done. constructor.
  - by apply interleave_first.
Qed.

End Traces.

Lemma trace_of_Permutation gs t : trace_of gs t -> t ≡ₚ sequential_trace gs.
Proof.
  induction 1 as [|g gs t1 t2 H1 _ IH]; [done|].
  unfold sequential_trace in *. simpl.
  by rewrite (interleave_Permutation _ _ H1), IH.
Qed.

Lemma trace_of_sequential gs : trace_of gs (sequential_trace gs).
Proof.
  induction gs as [|g gs IH]; [constructor|].
  unfold sequential_trace in *. simpl.
  constructor; [apply interleave_concat | exact IH].
Qed.

Lemma trace_of_elem gs t e :
  trace_of gs t -> e ∈ t -> exists g l, g ∈ gs /\ l ∈ g /\ e ∈ l.
Proof.
  intros Ht He. rewrite (trace_of_Permutation _ _ Ht) in He.
  unfold sequential_trace in He.
  apply list_elem_of_In, in_concat in He as (l' & Hl' & He).
  apply in_map_iff in Hl' as (g & <- & Hg).
  apply in_concat in He as (l & Hl & He).
  exists g, l. by rewrite !list_elem_of_In.
Qed.

Lemma trace_of_count_occ gs t e :
  trace_of gs t ->
  count_occ Event_eq_dec t e = count_occ Event_eq_dec (sequential_trace gs) e.
Proof.
  intros Ht. by apply Permutation_count_occ, trace_of_Permutation.
Qed.

Lemma trace_of_nil_inv t : trace_of [] t -> t = [].
Proof. by inversion 1. Qed.

(** Every run has a trace. *)
Lemma runs_sequential {A} (a : Async A) : runs a (sequential_trace (stages a)) (settled a).
Proof. split; [apply trace_of_sequential | done]. Qed.

(** ** Tasks *)

Lemma bind_Ok {A B} (m : Task A) (f : A -> Task B) a :
  outcome m = Ok a -> m ≫= f = MkTask (events m ++ events (f a)) (outcome (f a)).
Proof. intros H. unfold mbind, Task_bind. by rewrite H. Qed.

Lemma bind_Throw {A B} (m : Task A) (f : A -> Task B) e :
  outcome m = Throw e -> m ≫= f = MkTask (events m) (Throw e).
Proof. intros H. unfold mbind, Task_bind. by rewrite H. Qed.

Lemma try_catch_Throw {A} (m : Task A) h e :
  outcome m = Throw e ->
  try_catch m h = MkTask (events m ++ events (h e)) (outcome (h e)).
Proof. intros H. unfold try_catch. by rewrite H. Qed.

(** [Promise.all] of tasks that all resolve. *)
Lemma all_results_Ok {A} (ts : list (Task A)) :
  Forall (fun t => exists a, outcome t = Ok a) ts ->
  exists l, all_results (map outcome ts) = Ok l
            /\ Forall2 (fun t a => outcome t = Ok a) ts l.
Proof.
  induction 1 as [|t ts [a Ha] _ (l & Hl & HF)]; simpl.
  - exists []. by split.
  - exists (a :: l). rewrite Ha, Hl. split; [done|by constructor].
Qed.

Lemma count_occ_concat_single {A} (dec : forall x y : A, {x = y} + {x <> y})
    (ls : list (list A)) x i l :
  ls !! i = Some l ->
  (forall j l', ls !! j = Some l' -> j <> i -> x ∉ l') ->
  count_occ dec (concat ls) x = count_occ dec l x.
Proof.
  revert i. induction ls as [|l0 ls IH]; intros i Hi Hothers; [done|].
  simpl. rewrite count_occ_app. destruct i as [|i]; simpl in Hi.
  - injection Hi as ->.
    assert (count_occ dec (concat ls) x = 0%nat) as ->; [|lia].
    apply count_occ_not_In. intros (l' & Hl' & Hx)%in_concat.
    apply list_elem_of_In, list_elem_of_lookup in Hl' as [j Hj].
    apply (Hothers (S j) l'); [done|lia|by apply list_elem_of_In].
  - assert (count_occ dec l0 x = 0%nat) as ->.
    { apply count_occ_not_In. rewrite <- list_elem_of_In.
      apply (Hothers 0%nat); [done|lia]. }
    apply (IH i); [done|].
    intros j l' Hj Hne. apply (Hothers (S j)); [done|lia].
Qed.

(** ** The storage client *)

Ltac case_replies :=
  repeat match goal with
    | |- context [s3_reply ?w ?c] => destruct (s3_reply w c) eqn:?; simpl
    | |- context [mux_reply ?w ?u] => destruct (mux_reply w u) eqn:?; simpl
    end.

Ltac run_task :=
  unfold mbind, mret, Task_bind, Task_ret, try_catch, throw, logger_error, logger_log,
    emit, s3Client_send, assets_create; simpl.

Lemma validateFile_valid file fileType :
  valid file fileType -> S3Service.validateFile file fileType = MkTask [] (Ok tt).
Proof.
  intros (Hne & Hin & Hsz). unfold S3Service.validateFile.
  rewrite (bool_decide_eq_false_2 _ Hne), (bool_decide_eq_true_2 _ Hin). simpl.
  rewrite bool_decide_eq_false_2; [done|lia].
Qed.

Lemma uploadFile_events w uuid file fileType folder :
  Forall upload_event (events (S3Service.uploadFile w uuid file fileType folder)).
Proof.
  unfold S3Service.uploadFile, S3Service.getFileMetadata, S3Service.validateFile.
  repeat case_bool_decide; simpl; run_task; try by constructor.
  all: case_replies; repeat constructor.
Qed.

Lemma uploadFile_Ok w uuid file fileType folder v :
  outcome (S3Service.uploadFile w uuid file fileType folder) = Ok v ->
  key v = S3Service.objectKey (default (S3Service.defaultFolder fileType) folder) uuid file
  /\ url v = S3Service.objectUrl w (key v).
Proof.
  unfold S3Service.uploadFile, S3Service.getFileMetadata, S3Service.validateFile.
  repeat case_bool_decide; simpl; run_task; try done.
  all: case_replies; intros [= <-]; done.
Qed.

Lemma uploadPromise_events w uuid file fileType folder :
  events (S3Service.uploadPromise w uuid file fileType folder)
  = events (S3Service.uploadFile w uuid file fileType folder).
Proof.
  unfold S3Service.uploadPromise.
  destruct (outcome (S3Service.uploadFile w uuid file fileType folder)) eqn:H.
  - rewrite (bind_Ok _ _ _ H). simpl. unfold try_catch. simpl. by rewrite app_nil_r.
  - rewrite (bind_Throw _ _ _ H). unfold try_catch. simpl. by rewrite app_nil_r.
Qed.

(** The entry [uploadMultipleFiles] yields for a file: never a rejection of
    the promise itself. *)
Lemma uploadPromise_outcome w uuid file fileType folder :
  outcome (S3Service.uploadPromise w uuid file fileType folder)
  = Ok match outcome (S3Service.uploadFile w uuid file fileType folder) with
       | Ok v => {| S3Service.status := S3Service.fulfilled; S3Service.value := Some v;
                    S3Service.reason := None; S3Service.fileName := originalname file |}
       | Throw e => {| S3Service.status := S3Service.rejected; S3Service.value := None;
                       S3Service.reason := Some (message e);
                       S3Service.fileName := originalname file |}
       end.
Proof.
  unfold S3Service.uploadPromise.
  destruct (outcome (S3Service.uploadFile w uuid file fileType folder)) eqn:H.
  - by rewrite (bind_Ok _ _ _ H).
  - by rewrite (bind_Throw _ _ _ H).
Qed.

Lemma uploadMultipleFiles_run w files fileType folder :
  files <> [] ->
  exists s3Results,
    S3Service.uploadMultipleFiles w (Some files) fileType folder
    = MkAsync [map events (uploadPromises w files fileType folder)] (Ok s3Results)
    /\ Forall2 (fun t s => outcome t = Ok s)
               (uploadPromises w files fileType folder) s3Results.
Proof.
  intros Hne.
  destruct (all_results_Ok (uploadPromises w files fileType folder)) as (ss & Hss & HF).
  { apply Forall_forall. intros t (n & file & -> & _)%elem_of_lookup_imap.
    rewrite uploadPromise_outcome. by eexists. }
  exists ss. split; [|done].
  unfold S3Service.uploadMultipleFiles. destruct files as [|f fs]; [done|].
  unfold async_try_catch, Promise_all. cbn [settled stages].
  fold (uploadPromises w (f :: fs) fileType folder). by rewrite Hss.
Qed.

Lemma uploadMultipleFiles_lookup w files fileType folder s3Results i file :
  Forall2 (fun t s => outcome t = Ok s) (uploadPromises w files fileType folder) s3Results ->
  files !! i = Some file ->
  exists s,
    s3Results !! i = Some s
    /\ outcome (S3Service.uploadPromise w (randomUUID w i) file fileType folder) = Ok s.
Proof.
  intros HF Hi.
  assert (uploadPromises w files fileType folder !! i
          = Some (S3Service.uploadPromise w (randomUUID w i) file fileType folder)) as Ht.
  { unfold uploadPromises. by rewrite list_lookup_imap, Hi. }
  destruct (Forall2_lookup_l _ _ _ _ _ HF Ht) as (s & Hs & Hout). eauto.
Qed.

(** ** The orchestrator *)

Lemma titleOf_Some files titles i file :
  files !! i = Some file ->
  UploadService.titleOf files titles i
  = MkTask [] (Ok (or_string (titles ≫= (fun ts => ts !! i)) (originalname file))).
Proof.
  intros Hi. unfold UploadService.titleOf, or_string. rewrite Hi.
  destruct (titles ≫= _) as [t|]; [|done]. by destruct (decide (t = "")).
Qed.

(** The callback never rejects. *)
Lemma processS3Result_total w files titles i s :
  exists o, outcome (UploadService.processS3Result w files titles i s) = Ok o.
Proof.
  unfold UploadService.processS3Result, UploadService.titleOf, MuxService.createAsset,
    S3Service.deleteFile.
  destruct (S3Service.status s), (S3Service.value s) as [v|]; try by eexists.
  destruct (titles ≫= _) as [t|]; [destruct (decide (t = ""))|];
    destruct (files !! i); run_task; case_replies; by eexists.
Qed.

Lemma processS3Result_fileName w files titles i s o :
  outcome (UploadService.processS3Result w files titles i s) = Ok o ->
  UploadService.fileName o = S3Service.fileName s.
Proof.
  unfold UploadService.processS3Result, UploadService.titleOf, MuxService.createAsset,
    S3Service.deleteFile.
  destruct (S3Service.status s), (S3Service.value s) as [v|]; try by intros [= <-].
  destruct (titles ≫= _) as [t|]; [destruct (decide (t = ""))|];
    destruct (files !! i); run_task; case_replies; by intros [= <-].
Qed.

Lemma processS3Result_rejected w files titles i r name :
  UploadService.processS3Result w files titles i (rejectedWith r name)
  = MkTask [] (Ok (failedResult r name)).
Proof. done. Qed.

(** Asset creation fails for a stored file: one delete, whatever becomes of
    it, and a failed outcome that reports the processing failure. *)
Lemma processS3Result_mux_failure w files titles i file v name m :
  files !! i = Some file ->
  mux_reply w (url v) = MuxFailure m ->
  outcome (UploadService.processS3Result w files titles i (fulfilledWith v name))
  = Ok (failedResult "Mux processing failed: Failed to process video with Mux" name)
  /\ count_occ Event_eq_dec
       (events (UploadService.processS3Result w files titles i (fulfilledWith v name)))
       (deleteOf w v) = 1%nat.
Proof.
  intros Hi Hm. generalize Event_eq_dec as dec. intros dec.
  unfold UploadService.processS3Result. simpl.
  rewrite (titleOf_Some _ _ _ _ Hi).
  unfold MuxService.createAsset, S3Service.deleteFile, deleteOf. run_task. rewrite Hm. simpl.
  destruct (s3_reply w (DeleteObjectCommand (bucketName w) (key v))); simpl.
  all: split; [done|].
  all: repeat match goal with
         | |- context [if ?d ?a ?b then _ else _] => destruct (d a b); try discriminate
         end; congruence.
Qed.

(** What the callback of an item can issue over the network: at most the
    asset creation for the stored file's URL and the delete of its key. *)
Lemma processS3Result_events w files titles i file s e :
  files !! i = Some file ->
  e ∈ events (UploadService.processS3Result w files titles i s) ->
  match e with
  | MuxAssetsCreate u =>
      exists v, S3Service.status s = S3Service.fulfilled /\ S3Service.value s = Some v
                /\ u = url v
  | S3Send c =>
      exists v m, S3Service.status s = S3Service.fulfilled /\ S3Service.value s = Some v
                  /\ c = DeleteObjectCommand (bucketName w) (key v)
                  /\ mux_reply w (url v) = MuxFailure m
  | _ => True
  end.
Proof.
  intros Hi. unfold UploadService.processS3Result.
  rewrite (titleOf_Some _ _ _ _ Hi).
  unfold MuxService.createAsset, S3Service.deleteFile.
  destruct (S3Service.status s), (S3Service.value s) as [v|]; simpl;
    try by intros ?%elem_of_nil.
  run_task. destruct (mux_reply w (url v)) eqn:Hm; simpl.
  all: try destruct (s3_reply w (DeleteObjectCommand (bucketName w) (key v))); simpl.
  all: rewrite ?elem_of_cons, ?elem_of_nil; intros H; destruct_or?; subst; try done.
  all: eauto 8.
Qed.

Lemma s3Results_lookup w files fileType s3Results i file :
  Forall2 (fun t s => outcome t = Ok s) (uploadPromises w files fileType None) s3Results ->
  files !! i = Some file ->
  s3Results !! i = Some (settledOf w i file fileType).
Proof.
  intros HF Hi.
  destruct (uploadMultipleFiles_lookup _ _ _ _ _ _ _ HF Hi) as (s & Hs & Hout).
  rewrite uploadPromise_outcome in Hout. injection Hout as <-. exact Hs.
Qed.

Lemma s3Results_lookup_inv w files fileType s3Results i s :
  Forall2 (fun t s => outcome t = Ok s) (uploadPromises w files fileType None) s3Results ->
  s3Results !! i = Some s ->
  exists file, files !! i = Some file /\ s = settledOf w i file fileType.
Proof.
  intros HF Hs.
  destruct (Forall2_lookup_r _ _ _ _ _ HF Hs) as (t & Ht & _).
  unfold uploadPromises in Ht. apply list_lookup_imap_Some in Ht as (file & Hi & _).
  exists file. split; [done|].
  pose proof (s3Results_lookup _ _ _ _ _ _ HF Hi) as Hs'. congruence.
Qed.

(** The two stages of a batch of videos, and what it resolves to. *)
Lemma uploadMultipleVideos_run w files titles :
  files <> [] ->
  exists s3Results results,
    UploadService.uploadMultipleVideos w (Some files) titles
    = MkAsync [map events (uploadPromises w files video None);
               map events (callbacks w files titles s3Results)]
              (Ok results)
    /\ Forall2 (fun t s => outcome t = Ok s) (uploadPromises w files video None) s3Results
    /\ Forall2 (fun t o => outcome t = Ok o) (callbacks w files titles s3Results) results.
Proof.
  intros Hne.
  destruct (uploadMultipleFiles_run w files video None Hne) as (ss & Hrun & HF1).
  destruct (all_results_Ok (callbacks w files titles ss)) as (rs & Hrs & HF2).
  { apply Forall_forall. intros t (n & s & -> & _)%elem_of_lookup_imap.
    apply processS3Result_total. }
  exists ss, rs. split; [|done].
  unfold UploadService.uploadMultipleVideos. destruct files as [|f fs]; [done|].
  rewrite Hrun. unfold async_try_catch, mbind, Async_bind, Promise_all.
  cbn [settled stages]. fold (callbacks w (f :: fs) titles ss). rewrite Hrs.
  by cbn [settled stages app mret Async_ret].
Qed.

(** The single stage of a batch of images, and what it resolves to. *)
Lemma uploadMultipleImages_run w files :
  files <> [] ->
  exists s3Results,
    UploadService.uploadMultipleImages w (Some files)
    = MkAsync [map events (uploadPromises w files image None)]
              (Ok (map UploadService.imageResult s3Results))
    /\ Forall2 (fun t s => outcome t = Ok s) (uploadPromises w files image None) s3Results.
Proof.
  intros Hne.
  destruct (uploadMultipleFiles_run w files image None Hne) as (ss & Hrun & HF1).
  exists ss. split; [|done].
  unfold UploadService.uploadMultipleImages. destruct files as [|f fs]; [done|].
  rewrite Hrun. unfold async_try_catch, mbind, Async_bind.
  by cbn [settled stages app mret Async_ret].
Qed.

Lemma imageResult_fileName s :
  UploadService.fileName (UploadService.imageResult s) = S3Service.fileName s.
Proof.
  unfold UploadService.imageResult.
  by destruct (S3Service.status s), (S3Service.value s).
Qed.

Lemma settledOf_fileName w n file fileType :
  S3Service.fileName (settledOf w n file fileType) = originalname file.
Proof. unfold settledOf. by destruct (outcome _). Qed.

(** The outcome of the [i]-th file of a batch of videos. *)
Lemma video_results_lookup w files titles s3Results results i file :
  Forall2 (fun t s => outcome t = Ok s) (uploadPromises w files video None) s3Results ->
  Forall2 (fun t o => outcome t = Ok o) (callbacks w files titles s3Results) results ->
  files !! i = Some file ->
  exists o,
    results !! i = Some o
    /\ outcome (UploadService.processS3Result w files titles i (settledOf w i file video))
       = Ok o.
Proof.
  intros HF1 HF2 Hi.
  pose proof (s3Results_lookup _ _ _ _ _ _ HF1 Hi) as Hs.
  assert (callbacks w files titles s3Results !! i
          = Some (UploadService.processS3Result w files titles i (settledOf w i file video)))
    as Ht.
  { unfold callbacks. by rewrite list_lookup_imap, Hs. }
  destruct (Forall2_lookup_l _ _ _ _ _ HF2 Ht) as (o & Ho & Hout). eauto.
Qed.

(** ** Batch uploads *)

(** C1. A batch upload (videos or images) over a non-empty list of files
    resolves, whatever the order in which the concurrent calls are observed,
    to a list with exactly one result per file, where result [i] is the
    result for file [i]: it carries that file's name and is what the
    processing of that file's storage result yields. *)
Theorem batch_results_follow_input_order w files titles :
  files <> [] ->
  (forall t r,
     runs (UploadService.uploadMultipleVideos w (Some files) titles) t r ->
     exists results,
       r = Ok results /\ length results = length files
       /\ forall i file, files !! i = Some file ->
            exists o, results !! i = Some o
                      /\ UploadService.fileName o = originalname file
                      /\ outcome (UploadService.processS3Result w files titles i
                                    (settledOf w i file video)) = Ok o)
  /\ (forall t r,
        runs (UploadService.uploadMultipleImages w (Some files)) t r ->
        exists results,
          r = Ok results /\ length results = length files
          /\ forall i file, files !! i = Some file ->
               exists o, results !! i = Some o
                         /\ UploadService.fileName o = originalname file
                         /\ o = UploadService.imageResult (settledOf w i file image)).
Proof.
  intros Hne. split.
  - intros t r [_ Hr].
    destruct (uploadMultipleVideos_run w files titles Hne) as (ss & rs & Hrun & HF1 & HF2).
    rewrite Hrun in Hr. simpl in Hr. subst r. exists rs. split; [done|]. split.
    + rewrite <- (Forall2_length _ _ _ HF2). unfold callbacks. rewrite length_imap.
      rewrite <- (Forall2_length _ _ _ HF1). unfold uploadPromises. by rewrite length_imap.
    + intros i file Hi.
      destruct (video_results_lookup _ _ _ _ _ _ _ HF1 HF2 Hi) as (o & Ho & Hout).
      exists o. split_and!; [done| |done].
      rewrite (processS3Result_fileName _ _ _ _ _ _ Hout). apply settledOf_fileName.
  - intros t r [_ Hr].
    destruct (uploadMultipleImages_run w files Hne) as (ss & Hrun & HF1).
    rewrite Hrun in Hr. simpl in Hr. subst r. eexists. split; [done|]. split.
    + rewrite length_map, <- (Forall2_length _ _ _ HF1). unfold uploadPromises.
      by rewrite length_imap.
    + intros i file Hi.
      pose proof (s3Results_lookup _ _ _ _ _ _ HF1 Hi) as Hs.
      exists (UploadService.imageResult (settledOf w i file image)). split_and!.
      * change (map ?f ?l) with (f <$> l). by rewrite list_lookup_fmap, Hs.
      * by rewrite imageResult_fileName, settledOf_fileName.
      * done.
Qed.

Lemma batch_results_follow_input_order_witness :
  exists results,
    settled (UploadService.uploadMultipleVideos good_world (Some [clip; big_png]) None)
    = Ok results
    /\ length results = 2%nat
    /\ UploadService.fileName <$> results = ["clip.mp4"; "photo.png"].
Proof.
  destruct (batch_results_follow_input_order good_world [clip; big_png] None) as [Hv _].
  { discriminate. }
  destruct (Hv _ _ (runs_sequential _)) as (rs & Hrs & Hlen & Hitems).
  exists rs. split_and!; [done..|].
  destruct (Hitems 0%nat clip) as (o0 & Ho0 & Hn0 & _); [reflexivity|].
  destruct (Hitems 1%nat big_png) as (o1 & Ho1 & Hn1 & _); [reflexivity|].
  destruct rs as [|r0 [|r1 [|r2 rs]]]; try discriminate.
  simpl in Ho0, Ho1. injection Ho0 as ->. injection Ho1 as ->.
  simpl. by rewrite Hn0, Hn1.
Defined.

Lemma upload_stage_no_delete w files fileType v :
  deleteOf w v ∉ concat (map events (uploadPromises w files fileType None)).
Proof.
  intros (l & Hl & He)%list_elem_of_In%in_concat.
  apply in_map_iff in Hl as (t & <- & Ht).
  apply list_elem_of_In in Ht. unfold uploadPromises in Ht.
  apply elem_of_lookup_imap in Ht as (n & file & -> & _).
  rewrite uploadPromise_events in He.
  pose proof (uploadFile_events w (randomUUID w n) file fileType None) as HF.
  rewrite Forall_forall in HF. apply list_elem_of_In, HF in He. exact He.
Qed.

Lemma upload_stage_no_asset_creation w files fileType u :
  MuxAssetsCreate u ∉ concat (map events (uploadPromises w files fileType None)).
Proof.
  intros (l & Hl & He)%list_elem_of_In%in_concat.
  apply in_map_iff in Hl as (t & <- & Ht).
  apply list_elem_of_In in Ht. unfold uploadPromises in Ht.
  apply elem_of_lookup_imap in Ht as (n & file & -> & _).
  rewrite uploadPromise_events in He.
  pose proof (uploadFile_events w (randomUUID w n) file fileType None) as HF.
  rewrite Forall_forall in HF. apply list_elem_of_In, HF in He. exact He.
Qed.

Lemma settledOf_fulfilled_inv w n file fileType v :
  S3Service.value (settledOf w n file fileType) = Some v ->
  outcome (S3Service.uploadFile w (randomUUID w n) file fileType None) = Ok v.
Proof.
  unfold settledOf.
  destruct (outcome (S3Service.uploadFile w (randomUUID w n) file fileType None));
    simpl; congruence.
Qed.

(** C2. In a batch of videos, take a file whose storage write succeeded
    and whose asset creation failed.  The batch still resolves, the result
    for that file is 'failed' and reports the processing failure, whatever
    the delete call answers; and, the storage keys of the request being
    distinct, every trace of the run holds exactly one delete call for the
    key of that file. *)
Theorem batch_video_compensating_delete w files titles i file v m :
  files !! i = Some file ->
  outcome (S3Service.uploadFile w (randomUUID w i) file video None) = Ok v ->
  mux_reply w (url v) = MuxFailure m ->
  NoDup (videoKeys w files) ->
  exists results,
    settled (UploadService.uploadMultipleVideos w (Some files) titles) = Ok results
    /\ results !! i
       = Some (failedResult "Mux processing failed: Failed to process video with Mux"
                 (originalname file))
    /\ forall t,
         trace_of (stages (UploadService.uploadMultipleVideos w (Some files) titles)) t ->
         count_occ Event_eq_dec t (S3Send (DeleteObjectCommand (bucketName w) (key v)))
         = 1%nat.
Proof.
  intros Hi Hok Hm Hkeys.
  assert (files <> []) as Hne by (intros ->; done).
  destruct (uploadMultipleVideos_run w files titles Hne) as (ss & rs & Hrun & HF1 & HF2).
  destruct (video_results_lookup _ _ _ _ _ _ _ HF1 HF2 Hi) as (o & Ho & Hout).
  assert (settledOf w i file video = fulfilledWith v (originalname file)) as Hsi.
  { unfold settledOf. by rewrite Hok. }
  rewrite Hsi in Hout.
  destruct (processS3Result_mux_failure w files titles i file v (originalname file) m Hi Hm)
    as [Hres Hcount].
  rewrite Hres in Hout. injection Hout as <-.
  exists rs. rewrite Hrun. cbn [settled stages]. split_and!; [done..|].
  intros t Ht. rewrite (trace_of_count_occ _ _ _ Ht).
  unfold sequential_trace. cbn [map concat]. rewrite app_nil_r, count_occ_app.
  fold (deleteOf w v).
  rewrite (proj1 (count_occ_not_In _ _ _)); cycle 1.
  { rewrite <- list_elem_of_In. apply upload_stage_no_delete. }
  rewrite <- Hcount. simpl.
  apply (count_occ_concat_single _ _ _ i).
  { change (map ?f ?l) with (f <$> l). rewrite list_lookup_fmap. unfold callbacks.
    by rewrite list_lookup_imap, (s3Results_lookup _ _ _ _ _ _ HF1 Hi), Hsi. }
  intros j l' Hj Hne' Hin.
  change (map ?f ?l) with (f <$> l) in Hj. rewrite list_lookup_fmap in Hj.
  unfold callbacks in Hj. rewrite list_lookup_imap in Hj.
  destruct (ss !! j) as [sj|] eqn:Hsj; [|done]. simpl in Hj. injection Hj as <-.
  destruct (s3Results_lookup_inv _ _ _ _ _ _ HF1 Hsj) as (fj & Hfj & ->).
  apply (processS3Result_events _ _ _ _ _ _ _ Hfj) in Hin.
  destruct Hin as (vj & _ & _ & Hvj & Hc & _). injection Hc as Hkey.
  apply settledOf_fulfilled_inv, uploadFile_Ok in Hvj as [Hkj _].
  apply uploadFile_Ok in Hok as [Hki _]. simpl in Hkj, Hki.
  apply Hne'. apply (NoDup_lookup _ j i (key v) Hkeys).
  - unfold videoKeys. rewrite list_lookup_imap, Hfj. simpl. congruence.
  - unfold videoKeys. rewrite list_lookup_imap, Hi. simpl. congruence.
Qed.

Lemma batch_video_compensating_delete_witness :
  exists results,
    settled (UploadService.uploadMultipleVideos mux_down_world (Some [clip; clip]) None)
    = Ok results
    /\ results !! 0%nat
       = Some (failedResult "Mux processing failed: Failed to process video with Mux"
                 "clip.mp4")
    /\ count_occ Event_eq_dec
         (sequential_trace
            (stages (UploadService.uploadMultipleVideos mux_down_world
                       (Some [clip; clip]) None)))
         (S3Send (DeleteObjectCommand "bucket" "videos/uuid0-clip.mp4")) = 1%nat.
Proof.
  destruct (batch_video_compensating_delete mux_down_world [clip; clip] None 0 clip
              {| url := "https://bucket.s3.eu-west-1.amazonaws.com/videos/uuid0-clip.mp4";
                 key := "videos/uuid0-clip.mp4"; contentType := "video/mp4";
                 s3_size := 50; s3_metadata := None |}
              "503") as (rs & Hrs & Hi & Htrace).
  - reflexivity.
  - vm_compute. reflexivity.
  - reflexivity.
  - apply (bool_decide_unpack _). vm_compute. exact I.
  - exists rs. split_and!; [done..|]. apply Htrace, trace_of_sequential.
Defined.

(** C3. In a batch of videos, take a file whose storage write failed.  The
    result for that file is 'failed' and carries the reason of the storage
    failure; the processing stage runs nothing for that file; and every
    asset-creation call of any trace of the run is for the URL of another
    file, one whose storage write succeeded. *)
Theorem batch_video_storage_failure w files titles i file e :
  files !! i = Some file ->
  outcome (S3Service.uploadFile w (randomUUID w i) file video None) = Throw e ->
  exists results,
    settled (UploadService.uploadMultipleVideos w (Some files) titles) = Ok results
    /\ results !! i = Some (failedResult (message e) (originalname file))
    /\ (exists uploads processing,
          stages (UploadService.uploadMultipleVideos w (Some files) titles)
          = [uploads; processing]
          /\ processing !! i = Some [])
    /\ forall t u,
         trace_of (stages (UploadService.uploadMultipleVideos w (Some files) titles)) t ->
         MuxAssetsCreate u ∈ t ->
         exists j fj vj,
           j <> i /\ files !! j = Some fj
           /\ outcome (S3Service.uploadFile w (randomUUID w j) fj video None) = Ok vj
           /\ u = url vj.
Proof.
  intros Hi Hfail.
  assert (files <> []) as Hne by (intros ->; done).
  destruct (uploadMultipleVideos_run w files titles Hne) as (ss & rs & Hrun & HF1 & HF2).
  destruct (video_results_lookup _ _ _ _ _ _ _ HF1 HF2 Hi) as (o & Ho & Hout).
  assert (settledOf w i file video = rejectedWith (message e) (originalname file)) as Hsi.
  { unfold settledOf. by rewrite Hfail. }
  rewrite Hsi, processS3Result_rejected in Hout. injection Hout as <-.
  exists rs. rewrite Hrun. cbn [settled stages]. split_and!; [done..| |].
  - eexists _, _. split; [done|].
    change (map ?f ?l) with (f <$> l). rewrite list_lookup_fmap. unfold callbacks.
    by rewrite list_lookup_imap, (s3Results_lookup _ _ _ _ _ _ HF1 Hi), Hsi.
  - intros t u Ht Hu.
    destruct (trace_of_elem _ _ _ Ht Hu) as (g & l & Hg & Hl & He).
    apply elem_of_cons in Hg as [->|Hg].
    { exfalso. apply (upload_stage_no_asset_creation w files video u).
      apply list_elem_of_In, in_concat. exists l. by rewrite <- !list_elem_of_In. }
    apply list_elem_of_singleton in Hg as ->.
    apply list_elem_of_fmap in Hl as (tk & -> & Htk).
    unfold callbacks in Htk. apply elem_of_lookup_imap in Htk as (j & sj & -> & Hsj).
    destruct (s3Results_lookup_inv _ _ _ _ _ _ HF1 Hsj) as (fj & Hfj & ->).
    apply (processS3Result_events _ _ _ _ _ _ _ Hfj) in He.
    destruct He as (vj & _ & Hvj & ->).
    apply settledOf_fulfilled_inv in Hvj.
    exists j, fj, vj. split_and!; try done.
    intros ->. congruence.
Qed.

Lemma batch_video_storage_failure_witness :
  exists results,
    settled (UploadService.uploadMultipleVideos good_world (Some [clip; big_png]) None)
    = Ok results
    /\ results !! 1%nat
       = Some (failedResult
                 ("Invalid video type. Allowed types: video/mp4, video/quicktime, "
                  +:+ "video/x-msvideo, video/x-matroska, video/webm")
                 "photo.png").
Proof.
  destruct (batch_video_storage_failure good_world [clip; big_png] None 1 big_png
              (FileUploadException
                 ("Invalid video type. Allowed types: video/mp4, video/quicktime, "
                  +:+ "video/x-msvideo, video/x-matroska, video/webm")))
    as (rs & Hrs & Hi & _).
  - reflexivity.
  - vm_compute. reflexivity.
  - exists rs. by split.
Defined.

(** Every batch resolves, to as many results as there are files. *)
Lemma batch_videos_length w files titles :
  exists results,
    settled (UploadService.uploadMultipleVideos w (Some files) titles) = Ok results
    /\ length results = length files.
Proof.
  destruct files as [|f fs]; [by exists []|].
  destruct (uploadMultipleVideos_run w (f :: fs) titles) as (ss & rs & Hrun & HF1 & HF2);
    [done|].
  rewrite Hrun. exists rs. split; [done|].
  rewrite <- (Forall2_length _ _ _ HF2). unfold callbacks. rewrite length_imap.
  rewrite <- (Forall2_length _ _ _ HF1). unfold uploadPromises. by rewrite length_imap.
Qed.

Lemma batch_images_length w files :
  exists results,
    settled (UploadService.uploadMultipleImages w (Some files)) = Ok results
    /\ length results = length files.
Proof.
  destruct files as [|f fs]; [by exists []|].
  destruct (uploadMultipleImages_run w (f :: fs)) as (ss & Hrun & HF); [done|].
  rewrite Hrun. eexists. split; [done|].
  rewrite length_map, <- (Forall2_length _ _ _ HF). unfold uploadPromises.
  by rewrite length_imap.
Qed.

(** C5, as amended.  No batch is rejected as a whole on account of the
    number of its files or of the length of its titles list: for any list of
    files and any list of titles, a batch of videos and a batch of images
    resolve to one result per file, and a file with no title at its index
    takes its original name as title. *)
Theorem batch_never_rejected_for_counts w files titles :
  (exists results,
     settled (UploadService.uploadMultipleVideos w (Some files) titles) = Ok results
     /\ length results = length files)
  /\ (exists results,
        settled (UploadService.uploadMultipleImages w (Some files)) = Ok results
        /\ length results = length files)
  /\ (forall i file,
        files !! i = Some file ->
        titles ≫= (fun ts => ts !! i) = None ->
        outcome (UploadService.titleOf files titles i) = Ok (originalname file)).
Proof.
  split_and!.
  - apply batch_videos_length.
  - apply batch_images_length.
  - intros i file Hi Hnone. by rewrite (titleOf_Some _ _ _ _ Hi), Hnone.
Qed.

Lemma batch_never_rejected_for_counts_witness :
  outcome (UploadService.titleOf [clip; clip; clip] (Some ["a"; "b"]) 2) = Ok "clip.mp4".
Proof.
  destruct (batch_never_rejected_for_counts good_world [clip; clip; clip] (Some ["a"; "b"]))
    as (_ & _ & H).
  apply (H 2%nat clip); reflexivity.
Defined.

(** C5, as stated, fails: eleven files are all processed, each with its
    storage calls, and three files with two titles are processed too. *)
Lemma batch_over_limit_is_processed :
  (exists results,
     settled (UploadService.uploadMultipleVideos good_world (Some (replicate 11 clip)) None)
     = Ok results
     /\ length results = 11%nat
     /\ Forall (fun o => UploadService.status o = UploadService.success) results)
  /\ length (List.filter is_storage_call
               (sequential_trace
                  (stages (UploadService.uploadMultipleVideos good_world
                             (Some (replicate 11 clip)) None)))) = 22%nat
  /\ (exists results,
        settled (UploadService.uploadMultipleVideos good_world (Some [clip; clip; clip])
                   (Some ["a"; "b"]))
        = Ok results
        /\ length results = 3%nat
        /\ Forall (fun o => UploadService.status o = UploadService.success) results).
Proof.
  split_and!.
  - eexists. split; [vm_compute; reflexivity|]. split; [done|].
    repeat constructor.
  - by vm_compute.
  - eexists. split; [vm_compute; reflexivity|]. split; [done|].
    repeat constructor.
Qed.

(** ** Single uploads *)

(** C4.  [uploadVideo] never issues a delete call.  When asset creation
    fails after the storage write succeeded, the stored object is left in
    place: the calls are the put, the head and the asset creation, and the
    result is 'failed' with the message of the processing failure. *)
Theorem uploadVideo_leaves_stored_object :
  (forall w file title,
     Forall (fun e => is_delete e = false) (events (UploadService.uploadVideo w file title)))
  /\ (exists v,
        outcome (S3Service.uploadFile mux_down_world (randomUUID mux_down_world 0) clip
                   video None) = Ok v
        /\ key v = "videos/uuid0-clip.mp4"
        /\ mux_reply mux_down_world (url v) = MuxFailure "503")
  /\ UploadService.uploadVideo mux_down_world clip None
     = MkTask
         [S3Send (PutObjectCommand "bucket" "videos/uuid0-clip.mp4" [] "video/mp4");
          S3Send (HeadObjectCommand "bucket" "videos/uuid0-clip.mp4");
          MuxAssetsCreate "https://bucket.s3.eu-west-1.amazonaws.com/videos/uuid0-clip.mp4";
          LoggerError "Failed to create Mux asset: 503";
          LoggerError "Failed to upload video: Failed to process video with Mux"]
         (Ok (failedResult "Failed to process video with Mux" "clip.mp4")).
Proof.
  split_and!.
  - intros w file title.
    unfold UploadService.uploadVideo, MuxService.createAsset, S3Service.uploadFile,
      S3Service.getFileMetadata, S3Service.validateFile.
    repeat case_bool_decide; simpl; run_task; try by repeat constructor.
    all: case_replies; repeat constructor.
  - eexists. split; [vm_compute; reflexivity|]. by vm_compute.
  - by vm_compute.
Qed.

(** A [try] whose handler returns does not throw. *)
Lemma try_catch_total {A} (m : Task A) (h : Exn -> Task A) :
  (forall e, exists a, outcome (h e) = Ok a) -> exists a, outcome (try_catch m h) = Ok a.
Proof.
  intros Hh. unfold try_catch. destruct (outcome m) eqn:H.
  - rewrite H. by eexists.
  - apply Hh.
Qed.

Lemma uploadVideo_total w file title :
  exists r, outcome (UploadService.uploadVideo w file title) = Ok r.
Proof. apply try_catch_total. intros e. by eexists. Qed.

Lemma uploadImage_total w file :
  exists r, outcome (UploadService.uploadImage w file) = Ok r.
Proof. apply try_catch_total. intros e. by eexists. Qed.

Lemma createAsset_failure w u title m :
  mux_reply w u = MuxFailure m ->
  outcome (MuxService.createAsset w u title) = Throw (Error "Failed to process video with Mux").
Proof. intros Hm. unfold MuxService.createAsset. run_task. by rewrite Hm. Qed.

(** C7, as amended.  No single upload flow throws: each resolves to one
    [UploadResult].  When the storage write fails, or when asset creation
    fails, the result is 'failed', names the file and carries the message of
    the error that was caught, as it is. *)
Theorem single_uploads_resolve_to_failed_results w file title :
  (exists r, outcome (UploadService.uploadVideo w file title) = Ok r)
  /\ (exists r, outcome (UploadService.uploadImage w file) = Ok r)
  /\ (forall e,
        outcome (S3Service.uploadFile w (randomUUID w 0) file video None) = Throw e ->
        outcome (UploadService.uploadVideo w file title)
        = Ok (failedResult (message e) (originalname file)))
  /\ (forall v m,
        outcome (S3Service.uploadFile w (randomUUID w 0) file video None) = Ok v ->
        mux_reply w (url v) = MuxFailure m ->
        outcome (UploadService.uploadVideo w file title)
        = Ok (failedResult "Failed to process video with Mux" (originalname file)))
  /\ (forall e,
        outcome (S3Service.uploadFile w (randomUUID w 0) file image None) = Throw e ->
        outcome (UploadService.uploadImage w file)
        = Ok (failedResult (message e) (originalname file))).
Proof.
  split_and!.
  - apply uploadVideo_total.
  - apply uploadImage_total.
  - intros e He. unfold UploadService.uploadVideo.
    by rewrite (bind_Throw _ _ _ He), (try_catch_Throw _ _ e).
  - intros v m Hv Hm. unfold UploadService.uploadVideo.
    rewrite (bind_Ok _ _ _ Hv).
    rewrite (bind_Throw _ _ _ (createAsset_failure _ _ _ _ Hm)).
    by rewrite (try_catch_Throw _ _ (Error "Failed to process video with Mux")).
  - intros e He. unfold UploadService.uploadImage.
    by rewrite (bind_Throw _ _ _ He), (try_catch_Throw _ _ e).
Qed.

Lemma single_uploads_resolve_to_failed_results_witness :
  outcome (UploadService.uploadVideo mux_down_world clip None)
  = Ok (failedResult "Failed to process video with Mux" "clip.mp4").
Proof.
  destruct (single_uploads_resolve_to_failed_results mux_down_world clip None)
    as (_ & _ & _ & H & _).
  eapply H; vm_compute; reflexivity.
Defined.

(** C7, as stated, fails: an oversized image makes [uploadImage] resolve,
    without throwing, to a 'failed' result that carries the validation
    message unwrapped. *)
Lemma uploadImage_failure_does_not_throw :
  outcome (S3Service.uploadFile good_world (randomUUID good_world 0) big_png image None)
  = Throw (FileUploadException "File size exceeds limit. Maximum size for image is 5MB")
  /\ outcome (UploadService.uploadImage good_world big_png)
     = Ok (failedResult "File size exceeds limit. Maximum size for image is 5MB" "photo.png")
  /\ ~ (exists e, outcome (UploadService.uploadImage good_world big_png) = Throw e).
Proof.
  split_and!; [by vm_compute..|]. intros [e He]. vm_compute in He. discriminate.
Qed.

(** ** Validation by the storage client *)

(** C8.  A file whose MIME type is not among the types allowed for its
    kind, or whose size exceeds the ceiling of its kind (100MB for a video,
    5MB for an image), makes [uploadFile] throw a [FileUploadException], a
    400 client error, before anything is sent or logged; when the type is
    allowed the message is the size-limit message. *)
Theorem storage_put_validates_before_sending w uuid file fileType folder :
  mimetype file ∉ S3Service.allowedTypes fileType
  \/ size file > match fileType with
                 | video => 100 * 1024 * 1024
                 | image => 5 * 1024 * 1024
                 end ->
  exists msg,
    S3Service.uploadFile w uuid file fileType folder
    = MkTask [] (Throw (FileUploadException msg))
    /\ getStatus (FileUploadException msg) = Some 400
    /\ (mimetype file ∈ S3Service.allowedTypes fileType ->
        msg = "File size exceeds limit. Maximum size for " +:+ FileType_name fileType
              +:+ " is " +:+ match fileType with video => "100" | image => "5" end
              +:+ "MB").
Proof.
  intros Hbad. unfold S3Service.uploadFile, S3Service.validateFile.
  destruct (bool_decide (mimetype file = "")) eqn:H1; simpl.
  { eexists. split_and!; [done..|]. intros Hin. apply bool_decide_eq_true in H1.
    rewrite H1 in Hin. exfalso.
    destruct fileType; simpl in Hin;
      repeat (apply elem_of_cons in Hin as [Hin|Hin]; [discriminate|]);
      by apply elem_of_nil in Hin. }
  destruct (bool_decide (mimetype file ∈ S3Service.allowedTypes fileType)) eqn:H2; simpl.
  2:{ eexists. split_and!; [done..|]. intros Hin. by apply bool_decide_eq_false in H2. }
  apply bool_decide_eq_true in H2. destruct Hbad as [Hbad|Hbad]; [done|].
  rewrite bool_decide_eq_true_2; [|by destruct fileType].
  eexists. split_and!; [done..|]. intros _. by destruct fileType.
Qed.

Lemma storage_put_validates_before_sending_witness :
  S3Service.uploadFile good_world "u" big_png image None
  = MkTask [] (Throw (FileUploadException
                        "File size exceeds limit. Maximum size for image is 5MB")).
Proof.
  destruct (storage_put_validates_before_sending good_world "u" big_png image None)
    as (msg & Hrun & _ & Hmsg).
  { right. reflexivity. }
  rewrite Hrun, Hmsg; [reflexivity|].
  apply (bool_decide_unpack _). reflexivity.
Defined.

(** ** A successful single video upload *)

(** C9.  A valid video uploaded on its own without a title, when the put,
    the head and the asset creation all succeed: the object is stored under
    the key [videos/<uuid>-<original name>], the asset is created for the
    URL of that object with the original name as title, and the result is
    'success' with the status of the asset and the URL, content type and
    size of the stored object. *)
Theorem single_video_upload_success w file asset ct len ct' len' :
  let k := "videos/" +:+ randomUUID w 0 +:+ "-" +:+ originalname file in
  let u := "https://" +:+ bucketName w +:+ ".s3." +:+ region w +:+ ".amazonaws.com/" +:+ k in
  valid file video ->
  s3_reply w (PutObjectCommand (bucketName w) k (buffer file) (mimetype file))
  = S3Output ct' len' ->
  s3_reply w (HeadObjectCommand (bucketName w) k) = S3Output ct len ->
  mux_reply w u = MuxCreated asset ->
  outcome (S3Service.uploadFile w (randomUUID w 0) file video None)
  = Ok {| url := u; key := k;
          contentType := or_string ct "application/octet-stream";
          s3_size := or_number len 0; s3_metadata := None |}
  /\ UploadService.uploadVideo w file None
     = MkTask
         [S3Send (PutObjectCommand (bucketName w) k (buffer file) (mimetype file));
          S3Send (HeadObjectCommand (bucketName w) k);
          MuxAssetsCreate u]
         (Ok {| UploadService.status := UploadService.success;
                UploadService.data :=
                  Some {| UploadService.id := Some (asset_id asset);
                          UploadService.title := Some (originalname file);
                          UploadService.data_url := u;
                          UploadService.data_status := Some (asset_status asset);
                          UploadService.duration := asset_duration asset;
                          UploadService.aspectRatio := aspect_ratio asset;
                          UploadService.playbackId := playback_ids asset ≫= head;
                          UploadService.createdAt := Some (created_at asset);
                          UploadService.uploadId := upload_id asset;
                          UploadService.s3Url := u;
                          UploadService.data_contentType :=
                            or_string ct "application/octet-stream";
                          UploadService.data_size := or_number len 0;
                          UploadService.metadata := None |};
                UploadService.error := None;
                UploadService.fileName := originalname file |}).
Proof.
  intros k u Hvalid Hput Hhead Hmux.
  change k with (S3Service.objectKey "videos" (randomUUID w 0) file) in *.
  change u with (S3Service.objectUrl w (S3Service.objectKey "videos" (randomUUID w 0) file))
    in *.
  clearbody k u.
  unfold UploadService.uploadVideo, MuxService.createAsset, S3Service.uploadFile,
    S3Service.getFileMetadata.
  rewrite (validateFile_valid _ _ Hvalid). run_task.
  rewrite Hput. simpl. rewrite Hhead. simpl. rewrite Hmux. simpl. done.
Qed.

Lemma single_video_upload_success_witness :
  exists d,
    UploadService.data <$> outcome_value (UploadService.uploadVideo good_world clip None)
    = Some (Some d)
    /\ UploadService.title d = Some "clip.mp4"
    /\ UploadService.data_status d = Some "preparing".
Proof.
  destruct (single_video_upload_success good_world clip sample_asset
              (Some "video/mp4") (Some 50) None None) as [_ Hrun].
  - split_and!; [done| |done]. apply (bool_decide_unpack _). reflexivity.
  - reflexivity.
  - reflexivity.
  - reflexivity.
  - rewrite Hrun. eexists. split_and!; reflexivity.
Defined.

(** ** Empty batches *)

(** C10.  With an empty or a missing list of files, a batch of videos, a
    batch of images and [uploadMultipleFiles] resolve to the empty list and
    have no stage at all: their only trace is the empty one, so no storage,
    delete or asset-creation call is issued and nothing is thrown. *)
Theorem empty_batches_do_nothing w titles fileType folder :
  UploadService.uploadMultipleVideos w None titles = MkAsync [] (Ok [])
  /\ UploadService.uploadMultipleVideos w (Some []) titles = MkAsync [] (Ok [])
  /\ UploadService.uploadMultipleImages w None = MkAsync [] (Ok [])
  /\ UploadService.uploadMultipleImages w (Some []) = MkAsync [] (Ok [])
  /\ S3Service.uploadMultipleFiles w None fileType folder = MkAsync [] (Ok [])
  /\ S3Service.uploadMultipleFiles w (Some []) fileType folder = MkAsync [] (Ok [])
  /\ forall t r,
       (runs (UploadService.uploadMultipleVideos w None titles) t r
        \/ runs (UploadService.uploadMultipleVideos w (Some []) titles) t r
        \/ runs (UploadService.uploadMultipleImages w None) t r
        \/ runs (UploadService.uploadMultipleImages w (Some [])) t r)
       <-> t = [] /\ r = Ok [].
Proof.
  split_and!; try reflexivity.
  intros t r. split.
  - intros H. destruct_or!; destruct H as [Ht Hr]; simpl in *;
      apply trace_of_nil_inv in Ht; by subst.
  - intros [-> ->]. left. split; [constructor|done].
Qed.

(** ** Titles *)

Lemma trimStart_spec s :
  (exists l, s = (l ++ trimStart s)%list /\ blank l)
  /\ (forall c s', trimStart s = c :: s' -> is_js_space c = false).
Proof.
  induction s as [|c s [(l & Hl & Hb) IH]]; simpl.
  - split; [|done]. exists []. split; [done|constructor].
  - destruct (is_js_space c) eqn:Hc.
    + split; [|exact IH]. exists (c :: l). split; [simpl; by f_equal|].
      by constructor.
    + split; [|by intros ? ? [= <- _]]. exists []. split; [done|constructor].
Qed.

Lemma trimEnd_spec s :
  (exists r, s = (trimEnd s ++ r)%list /\ blank r)
  /\ (forall c s', trimEnd s = (s' ++ [c])%list -> is_js_space c = false)
  /\ (forall c s', trimEnd s = c :: s' -> exists s'', s = c :: s'').
Proof.
  induction s as [|c s ((r & Hr & Hb) & Hlast & _)]; simpl.
  - split_and!; [|by intros ? [|??]|done]. exists []. split; [done|constructor].
  - destruct (trimEnd s) as [|c' rest] eqn:Ht.
    + destruct (is_js_space c) eqn:Hc.
      * split_and!; [|by intros ? [|??]|done].
        exists (c :: r). simpl in *. split; [by f_equal|by constructor].
      * split_and!.
        -- exists r. simpl in *. split; [by f_equal|done].
        -- intros c0 [|? [|??]]; simpl; intros [=]; by subst.
        -- intros ? ? [= <- _]. eauto.
    + split_and!.
      * exists r. simpl in *. split; [by f_equal|done].
      * intros c0 [|c1 s']; simpl; intros [=]; subst. by eapply Hlast.
      * intros ? ? [= <- _]. eauto.
Qed.

(** [trim] removes a run of white space at each end, and all of it. *)
Lemma trim_spec s :
  (exists l r, s = (l ++ trim s ++ r)%list /\ blank l /\ blank r)
  /\ (forall c s', trim s = c :: s' -> is_js_space c = false)
  /\ (forall c s', trim s = (s' ++ [c])%list -> is_js_space c = false).
Proof.
  unfold trim.
  destruct (trimStart_spec s) as [(l & Hl & Hbl) Hhead].
  destruct (trimEnd_spec (trimStart s)) as ((r & Hr & Hbr) & Hlast & Hsame).
  split_and!.
  - exists l, r. split_and!; [|done..]. by rewrite <- Hr.
  - intros c s' Hc. destruct (Hsame _ _ Hc) as [s'' Hs'']. by eapply Hhead.
  - exact Hlast.
Qed.

(** The code units [trim] takes for white space. *)
Lemma is_js_space_spec c : is_js_space c = true <-> c ∈ js_white_space.
Proof.
  unfold js_white_space. rewrite !elem_of_cons, elem_of_nil. unfold is_js_space.
  rewrite !orb_true_iff, !andb_true_iff, !N.leb_le, !N.eqb_eq. split.
  - intros [[[[[[[[[[[H1 H2]|H]|H]|H]|[H1 H2]]|H]|H]|H]|H]|H]|H]; lia.
  - intros H. repeat (destruct H as [->|H]; [lia|]). done.
Qed.

(** [keep_chars p] keeps the code units that satisfy [p], in order. *)
Lemma keep_chars_filter p s : keep_chars p s = List.filter p s.
Proof.
  induction s as [|c s IH]; simpl; [done|].
  destruct (p c); simpl; by rewrite IH.
Qed.

(** The code units the sanitization lets through. *)
Lemma title_char_spec c :
  title_char c = true <->
  (N_of_ascii "a" <= c <= N_of_ascii "z" \/ N_of_ascii "A" <= c <= N_of_ascii "Z"
   \/ N_of_ascii "0" <= c <= N_of_ascii "9"
   \/ c = N_of_ascii "-" \/ c = N_of_ascii "_" \/ c = N_of_ascii "."
   \/ c = N_of_ascii " ")%N.
Proof.
  unfold title_char.
  rewrite !orb_true_iff, !andb_true_iff, !N.leb_le, !N.eqb_eq.
  change (N_of_ascii "a") with 0x61%N. change (N_of_ascii "z") with 0x7A%N.
  change (N_of_ascii "A") with 0x41%N. change (N_of_ascii "Z") with 0x5A%N.
  change (N_of_ascii "0") with 0x30%N. change (N_of_ascii "9") with 0x39%N.
  change (N_of_ascii "-") with 0x2D%N. change (N_of_ascii "_") with 0x5F%N.
  change (N_of_ascii ".") with 0x2E%N. change (N_of_ascii " ") with 0x20%N.
  tauto.
Qed.

(** The [string] of code units that are ASCII characters holds them as they
    are. *)
Lemma code_units_ascii_string s :
  Forall (fun c => (c < 256)%N) s -> code_units (ascii_string s) = s.
Proof.
  intros Hs. unfold code_units, ascii_string.
  rewrite list_ascii_of_string_of_list_ascii.
  induction Hs as [|c s Hc _ IH]; [done|]. simpl.
  by rewrite (N_ascii_embedding c Hc), IH.
Qed.

Lemma title_chars_ascii s :
  Forall (fun c => title_char c = true) s -> Forall (fun c => (c < 256)%N) s.
Proof.
  intros Hs. eapply Forall_impl; [exact Hs|].
  intros c Hc. apply title_char_spec in Hc. simpl in Hc. lia.
Qed.

Lemma keep_chars_Forall p s : Forall (fun c => p c = true) (keep_chars p s).
Proof.
  rewrite keep_chars_filter. apply Forall_forall.
  intros c Hc%list_elem_of_In%filter_In. tauto.
Qed.

Lemma ascii_string_empty s : ascii_string s = "" -> s = [].
Proof. by destruct s. Qed.

(** The code units of a sanitized title. *)
Lemma sanitizeTitle_units t :
  code_units (UploadController.sanitizeTitle (Some t)) = keep_chars title_char (trim t).
Proof.
  unfold UploadController.sanitizeTitle, or_string. simpl.
  destruct (decide (_ = "")) as [He|].
  - by rewrite (ascii_string_empty _ He).
  - apply code_units_ascii_string, title_chars_ascii, keep_chars_Forall.
Qed.

Lemma processS3Result_mux_success w files titles i file v name asset :
  files !! i = Some file ->
  mux_reply w (url v) = MuxCreated asset ->
  exists d,
    UploadService.processS3Result w files titles i (fulfilledWith v name)
    = MkTask [MuxAssetsCreate (url v)]
        (Ok {| UploadService.status := UploadService.success;
               UploadService.data := Some d;
               UploadService.error := None;
               UploadService.fileName := name |})
    /\ UploadService.title d
       = Some (or_string (titles ≫= (fun ts => ts !! i)) (originalname file)).
Proof.
  intros Hi Hm. unfold UploadService.processS3Result. simpl.
  rewrite (titleOf_Some _ _ _ _ Hi). unfold MuxService.createAsset. run_task.
  rewrite Hm. simpl. by eexists.
Qed.

(** C6, as amended.  For the titles array supplied to the batch video
    endpoint: the handler trims each entry (the white space and the line
    terminators of JavaScript, at both ends), then drops every code unit
    outside ASCII letters, digits, hyphen, underscore, period and space, and
    an empty outcome counts as no title.  The title of a stored and
    processed file is its sanitized title when that is not empty, and the
    file's original name otherwise, also when the array, or the entry, is
    absent.  The title "  My Video!! " becomes "My Video"; 'a', space,
    U+2003 becomes "a". *)
Theorem batch_titles_are_sanitized w files rawTitles i file v asset :
  files !! i = Some file ->
  outcome (S3Service.uploadFile w (randomUUID w i) file video None) = Ok v ->
  mux_reply w (url v) = MuxCreated asset ->
  let supplied :=
    match rawTitles with
    | UploadController.array items => items !! i ≫= id
    | _ => None
    end in
  let clean := UploadController.sanitizeTitle supplied in
  (forall t, supplied = Some t ->
     code_units clean = List.filter title_char (trim t)
     /\ (exists l r, t = (l ++ trim t ++ r)%list /\ blank l /\ blank r)
     /\ (forall c s', trim t = c :: s' -> is_js_space c = false)
     /\ (forall c s', trim t = (s' ++ [c])%list -> is_js_space c = false))
  /\ (forall c, is_js_space c = true <->
                c ∈ [0x9; 0xA; 0xB; 0xC; 0xD; 0x20; 0xA0; 0x1680;
                     0x2000; 0x2001; 0x2002; 0x2003; 0x2004; 0x2005; 0x2006; 0x2007;
                     0x2008; 0x2009; 0x200A;
                     0x2028; 0x2029; 0x202F; 0x205F; 0x3000; 0xFEFF]%N)
  /\ (forall c, title_char c = true <->
                (N_of_ascii "a" <= c <= N_of_ascii "z"
                 \/ N_of_ascii "A" <= c <= N_of_ascii "Z"
                 \/ N_of_ascii "0" <= c <= N_of_ascii "9"
                 \/ c = N_of_ascii "-" \/ c = N_of_ascii "_" \/ c = N_of_ascii "."
                 \/ c = N_of_ascii " ")%N)
  /\ (supplied = None -> clean = "")
  /\ UploadController.sanitizeTitle (Some (code_units "  My Video!! ")) = "My Video"
  /\ UploadController.sanitizeTitle (Some [0x61; 0x20; 0x2003]%N) = "a"
  /\ exists results o d,
       settled (UploadController.uploadMultipleVideos w (Some files) rawTitles) = Ok results
       /\ results !! i = Some o
       /\ UploadService.status o = UploadService.success
       /\ UploadService.data o = Some d
       /\ UploadService.title d = Some (if decide (clean = "") then originalname file else clean).
Proof.
  intros Hi Hok Hm supplied clean. split_and!.
  - intros t Ht. subst clean. rewrite Ht. split; [|apply trim_spec].
    by rewrite sanitizeTitle_units, keep_chars_filter.
  - apply is_js_space_spec.
  - apply title_char_spec.
  - intros Hs. subst clean. by rewrite Hs.
  - reflexivity.
  - reflexivity.
  - unfold UploadController.uploadMultipleVideos.
    set (titles := match rawTitles with
                   | UploadController.array items =>
                       Some (map UploadController.sanitizeTitle items)
                   | _ => None
                   end).
    assert (files <> []) as Hne by (intros ->; done).
    destruct (uploadMultipleVideos_run w files titles Hne) as (ss & rs & Hrun & HF1 & HF2).
    destruct (video_results_lookup _ _ _ _ _ _ _ HF1 HF2 Hi) as (o & Ho & Hout).
    assert (settledOf w i file video = fulfilledWith v (originalname file)) as Hsi.
    { unfold settledOf. by rewrite Hok. }
    rewrite Hsi in Hout.
    destruct (processS3Result_mux_success w files titles i file v (originalname file)
                asset Hi Hm) as (d & Hres & Htitle).
    rewrite Hres in Hout. injection Hout as <-.
    eexists rs, _, d. rewrite Hrun. split_and!; [done..|].
    rewrite Htitle. f_equal.
    assert (titles ≫= (fun ts => ts !! i) = UploadController.sanitizeTitle <$> 
              match rawTitles with
              | UploadController.array items => items !! i
              | _ => None
              end) as ->.
    { subst titles. destruct rawTitles as [| |items]; try done. simpl.
      change (map ?f ?l) with (f <$> l). by rewrite list_lookup_fmap. }
    subst clean supplied. unfold or_string.
    destruct rawTitles as [| |items]; try done.
    by destruct (items !! i) as [[t|]|].
Qed.

Lemma batch_titles_are_sanitized_witness :
  exists results o d,
    settled (UploadController.uploadMultipleVideos good_world (Some [clip])
               (UploadController.array [Some (code_units "  My Video!! ")])) = Ok results
    /\ results !! 0%nat = Some o
    /\ UploadService.data o = Some d
    /\ UploadService.title d = Some "My Video".
Proof.
  destruct (batch_titles_are_sanitized good_world [clip]
              (UploadController.array [Some (code_units "  My Video!! ")]) 0 clip
              {| url := "https://bucket.s3.eu-west-1.amazonaws.com/videos/uuid0-clip.mp4";
                 key := "videos/uuid0-clip.mp4"; contentType := "video/mp4";
                 s3_size := 50; s3_metadata := None |}
              sample_asset)
    as (_ & _ & _ & _ & _ & _ & rs & o & d & Hrs & Ho & _ & Hd & Ht).
  - reflexivity.
  - vm_compute. reflexivity.
  - reflexivity.
  - exists rs, o, d. split_and!; [done..|]. rewrite Ht. reflexivity.
Defined.

(** C6, as stated, fails for the single-video endpoint: its handler hands
    the title to the service as it came, and "  My Video!! " stays. *)
Lemma single_video_title_is_not_sanitized :
  exists d,
    UploadService.data
      <$> outcome_value (UploadController.uploadVideo good_world clip (Some "  My Video!! "))
    = Some (Some d)
    /\ UploadService.title d = Some "  My Video!! "
    /\ UploadService.title d <> Some "My Video".
Proof. eexists. split_and!; [by vm_compute..|]. by vm_compute. Qed.

(** * Further properties of the code *)

(** ** The storage client, function by function *)

Lemma validb_valid file fileType : validb file fileType = true <-> valid file fileType.
Proof.
  unfold validb, valid.
  rewrite !andb_true_iff, negb_true_iff, bool_decide_eq_false, !bool_decide_eq_true.
  tauto.
Qed.

Lemma validateFile_invalid file fileType :
  ~ valid file fileType ->
  exists msg,
    S3Service.validateFile file fileType = MkTask [] (Throw (FileUploadException msg)).
Proof.
  intros Hnv. unfold S3Service.validateFile.
  destruct (bool_decide (mimetype file = "")) eqn:H1; simpl; [by eexists|].
  destruct (bool_decide (mimetype file ∈ S3Service.allowedTypes fileType)) eqn:H2;
    simpl; [|by eexists].
  destruct (bool_decide (size file > S3Service.maxSize fileType)) eqn:H3; [by eexists|].
  exfalso. apply Hnv. apply bool_decide_eq_false in H1, H3. apply bool_decide_eq_true in H2.
  split_and!; [done..|lia].
Qed.

(** X1.  [validateFile] sends and logs nothing and accepts exactly the
    files with an allowed type and a size up to the ceiling: a file of
    exactly the ceiling passes.  The type is checked first: a file of a
    wrong type gets the type message whatever its size. *)
Theorem validateFile_decides file fileType :
  events (S3Service.validateFile file fileType) = []
  /\ (outcome (S3Service.validateFile file fileType) = Ok tt
      <-> mimetype file ∈ S3Service.allowedTypes fileType
          /\ size file <= match fileType with
                          | video => 104857600
                          | image => 5242880
                          end)
  /\ (mimetype file ∉ S3Service.allowedTypes fileType ->
      outcome (S3Service.validateFile file fileType)
      = Throw (FileUploadException
                 ("Invalid " +:+ FileType_name fileType +:+ " type. Allowed types: "
                  +:+ join ", " (S3Service.allowedTypes fileType)))).
Proof.
  assert ("" ∉ S3Service.allowedTypes fileType) as Hempty.
  { intros Hin. destruct fileType; simpl in Hin;
      repeat (apply elem_of_cons in Hin as [Hin|Hin]; [discriminate|]);
      by apply elem_of_nil in Hin. }
  unfold S3Service.validateFile.
  destruct (bool_decide (mimetype file = "")) eqn:H1; simpl.
  { apply bool_decide_eq_true in H1. split_and!; [done| |done].
    split; [done|]. intros [Hin _]. by rewrite H1 in Hin. }
  destruct (bool_decide (mimetype file ∈ S3Service.allowedTypes fileType)) eqn:H2; simpl.
  2:{ apply bool_decide_eq_false in H2. split_and!; [done| |done].
      split; [done|]. by intros [Hin _]. }
  apply bool_decide_eq_true in H2.
  destruct (bool_decide (size file > S3Service.maxSize fileType)) eqn:H3; simpl.
  - apply bool_decide_eq_true in H3. split_and!; [done| |done].
    split; [done|]. intros [_ Hsz]. destruct fileType; simpl in H3; lia.
  - apply bool_decide_eq_false in H3. split_and!; [done| |done].
    split; [|done]. intros _. split; [done|]. destruct fileType; simpl in H3; lia.
Qed.

Lemma validateFile_decides_witness :
  outcome (S3Service.validateFile
             {| originalname := "a.png"; mimetype := "image/png"; size := 5242880;
                buffer := [] |} image) = Ok tt.
Proof.
  apply (validateFile_decides
           {| originalname := "a.png"; mimetype := "image/png"; size := 5242880;
              buffer := [] |} image).
  split; [apply (bool_decide_unpack _); reflexivity | simpl; lia].
Defined.

(** X2.  [uploadFile] resolves exactly when the file is valid and both
    the put and the head succeed.  It has then sent the put and the head for
    the key [<folder>/<uuid>-<original name>], in this order and nothing
    else, and it returns that key, the URL built from it, and the content
    type and size of the head, ['application/octet-stream'] and [0]
    standing in for missing ones. *)
Theorem uploadFile_resolves_iff w uuid file fileType folder v :
  let k := S3Service.objectKey (default (S3Service.defaultFolder fileType) folder) uuid file in
  let put := PutObjectCommand (bucketName w) k (buffer file) (mimetype file) in
  let head := HeadObjectCommand (bucketName w) k in
  (outcome (S3Service.uploadFile w uuid file fileType folder) = Ok v
   <-> valid file fileType
       /\ (exists ct len, s3_reply w put = S3Output ct len)
       /\ (exists ct len,
             s3_reply w head = S3Output ct len
             /\ v = {| url := S3Service.objectUrl w k; key := k;
                       contentType := or_string ct "application/octet-stream";
                       s3_size := or_number len 0; s3_metadata := None |}))
  /\ (outcome (S3Service.uploadFile w uuid file fileType folder) = Ok v ->
      events (S3Service.uploadFile w uuid file fileType folder) = [S3Send put; S3Send head]).
Proof.
  intros k put head. unfold S3Service.uploadFile, S3Service.getFileMetadata.
  fold k. fold put. fold head.
  destruct (validb file fileType) eqn:Hv.
  - apply validb_valid in Hv. rewrite (validateFile_valid _ _ Hv). run_task.
    destruct (s3_reply w put) as [a b|m]; simpl.
    + destruct (s3_reply w head) as [ct len|m]; simpl.
      * split; [|done]. split.
        -- intros [= <-]. split_and!; [done|by eexists _, _|by eexists _, _].
        -- intros (_ & _ & ct0 & len0 & [= <- <-] & ->). done.
      * split; [|done]. split; [done|]. by intros (_ & _ & ? & ? & ? & _).
    + split; [|done]. split; [done|]. by intros (_ & (? & ? & ?) & _).
  - assert (~ valid file fileType) as Hnv.
    { intros H%validb_valid. congruence. }
    destruct (validateFile_invalid _ _ Hnv) as [msg ->]. run_task.
    split; [|done]. split; [done|]. by intros [? _].
Qed.

Lemma uploadFile_resolves_iff_witness :
  outcome (S3Service.uploadFile good_world "u" clip video (Some "archive"))
  = Ok {| url := "https://bucket.s3.eu-west-1.amazonaws.com/archive/u-clip.mp4";
          key := "archive/u-clip.mp4"; contentType := "video/mp4"; s3_size := 50;
          s3_metadata := None |}.
Proof.
  apply (uploadFile_resolves_iff good_world "u" clip video (Some "archive")).
  split_and!.
  - split_and!; [done| |done]. apply (bool_decide_unpack _). reflexivity.
  - by eexists _, _.
  - by eexists _, _.
Defined.

(** X3.  Whatever [uploadFile] throws is a [FileUploadException], a 400
    client error: the errors of the S3 client do not get out as they are.
    When the put fails no head is sent, and the message is the client's
    message behind ["Failed to upload file to S3: "]. *)
Theorem uploadFile_throws_upload_exceptions w uuid file fileType folder :
  (forall e,
     outcome (S3Service.uploadFile w uuid file fileType folder) = Throw e ->
     exists msg, e = FileUploadException msg /\ getStatus e = Some 400)
  /\ (forall m,
        valid file fileType ->
        s3_reply w (PutObjectCommand (bucketName w)
                      (S3Service.objectKey (default (S3Service.defaultFolder fileType) folder)
                         uuid file)
                      (buffer file) (mimetype file)) = S3Failure m ->
        S3Service.uploadFile w uuid file fileType folder
        = MkTask
            [S3Send (PutObjectCommand (bucketName w)
                       (S3Service.objectKey
                          (default (S3Service.defaultFolder fileType) folder) uuid file)
                       (buffer file) (mimetype file));
             LoggerError ("Failed to upload file to S3: " +:+ m)]
            (Throw (FileUploadException ("Failed to upload file to S3: " +:+ m)))).
Proof.
  split.
  - intros e. unfold S3Service.uploadFile, S3Service.getFileMetadata.
    destruct (validb file fileType) eqn:Hv.
    + apply validb_valid in Hv. rewrite (validateFile_valid _ _ Hv). run_task.
      case_replies; intros [= <-]; by eexists.
    + assert (~ valid file fileType) as Hnv.
      { intros H%validb_valid. congruence. }
      destruct (validateFile_invalid _ _ Hnv) as [msg ->]. run_task.
      intros [= <-]. by eexists.
  - intros m Hv Hput. unfold S3Service.uploadFile.
    rewrite (validateFile_valid _ _ Hv). run_task. by rewrite Hput.
Qed.

Lemma uploadFile_throws_upload_exceptions_witness :
  exists msg,
    outcome (S3Service.uploadFile good_world "u" big_png video None)
    = Throw (FileUploadException msg).
Proof.
  destruct (uploadFile_throws_upload_exceptions good_world "u" big_png video None)
    as [H _].
  destruct (H (FileUploadException
                 ("Invalid video type. Allowed types: video/mp4, video/quicktime, "
                  +:+ "video/x-msvideo, video/x-matroska, video/webm")))
    as (msg & Hmsg & _).
  - vm_compute. reflexivity.
  - exists msg. rewrite <- Hmsg. vm_compute. reflexivity.
Defined.

Lemma uploadFile_head_failure w uuid file fileType folder ct len m :
  let k := S3Service.objectKey (default (S3Service.defaultFolder fileType) folder) uuid file in
  valid file fileType ->
  s3_reply w (PutObjectCommand (bucketName w) k (buffer file) (mimetype file))
  = S3Output ct len ->
  s3_reply w (HeadObjectCommand (bucketName w) k) = S3Failure m ->
  S3Service.uploadFile w uuid file fileType folder
  = MkTask
      [S3Send (PutObjectCommand (bucketName w) k (buffer file) (mimetype file));
       S3Send (HeadObjectCommand (bucketName w) k);
       LoggerError ("Failed to get file metadata: " +:+ m);
       LoggerError ("Failed to upload file to S3: Failed to get file metadata: " +:+ m)]
      (Throw (FileUploadException
                ("Failed to upload file to S3: Failed to get file metadata: " +:+ m))).
Proof.
  intros k Hv Hput Hhead. unfold S3Service.uploadFile, S3Service.getFileMetadata.
  fold k. rewrite (validateFile_valid _ _ Hv). run_task. rewrite Hput. simpl.
  rewrite Hhead. simpl. done.
Qed.

(** X4.  When the put succeeds and the head fails, [uploadFile] throws,
    with the message wrapped twice, and sends no delete: the object that was
    written stays in the bucket although the upload is reported as failed. *)
Theorem uploadFile_head_failure_keeps_object w uuid file fileType folder ct len m :
  let k := S3Service.objectKey (default (S3Service.defaultFolder fileType) folder) uuid file in
  valid file fileType ->
  s3_reply w (PutObjectCommand (bucketName w) k (buffer file) (mimetype file))
  = S3Output ct len ->
  s3_reply w (HeadObjectCommand (bucketName w) k) = S3Failure m ->
  S3Service.uploadFile w uuid file fileType folder
  = MkTask
      [S3Send (PutObjectCommand (bucketName w) k (buffer file) (mimetype file));
       S3Send (HeadObjectCommand (bucketName w) k);
       LoggerError ("Failed to get file metadata: " +:+ m);
       LoggerError ("Failed to upload file to S3: Failed to get file metadata: " +:+ m)]
      (Throw (FileUploadException
                ("Failed to upload file to S3: Failed to get file metadata: " +:+ m))).
Proof. apply uploadFile_head_failure. Qed.

Lemma uploadFile_head_failure_keeps_object_witness :
  S3Service.uploadFile head_down_world "u" clip video None
  = MkTask
      [S3Send (PutObjectCommand "bucket" "videos/u-clip.mp4" [] "video/mp4");
       S3Send (HeadObjectCommand "bucket" "videos/u-clip.mp4");
       LoggerError "Failed to get file metadata: NotFound";
       LoggerError "Failed to upload file to S3: Failed to get file metadata: NotFound"]
      (Throw (FileUploadException
                "Failed to upload file to S3: Failed to get file metadata: NotFound")).
Proof.
  apply (uploadFile_head_failure_keeps_object head_down_world "u" clip video None None None
           "NotFound").
  - split_and!; [done| |done]. apply (bool_decide_unpack _). reflexivity.
  - reflexivity.
  - reflexivity.
Defined.

(** X5.  [deleteFile] sends exactly one command, the delete of the given
    key in the configured bucket.  It resolves when the command succeeds, and
    throws a [FileUploadException] that carries the client's message when it
    fails. *)
Theorem deleteFile_sends_one_delete w k :
  calls is_storage_call (events (S3Service.deleteFile w k)) = 1%nat
  /\ head (events (S3Service.deleteFile w k))
     = Some (S3Send (DeleteObjectCommand (bucketName w) k))
  /\ (outcome (S3Service.deleteFile w k) = Ok tt
      <-> exists ct len, s3_reply w (DeleteObjectCommand (bucketName w) k) = S3Output ct len)
  /\ (forall m,
        s3_reply w (DeleteObjectCommand (bucketName w) k) = S3Failure m ->
        outcome (S3Service.deleteFile w k)
        = Throw (FileUploadException ("Failed to delete file from S3: " +:+ m))).
Proof.
  unfold S3Service.deleteFile. run_task.
  destruct (s3_reply w (DeleteObjectCommand (bucketName w) k)) as [ct len|m]; simpl.
  - split_and!; [done..| |done]. split; [by eexists _, _|done].
  - split_and!; [done..| |by intros ? [= <-]]. split; [done|]. by intros (? & ? & ?).
Qed.

Lemma deleteFile_sends_one_delete_witness :
  outcome (S3Service.deleteFile mux_down_world "videos/u-clip.mp4")
  = Throw (FileUploadException "Failed to delete file from S3: AccessDenied").
Proof.
  apply (deleteFile_sends_one_delete mux_down_world "videos/u-clip.mp4"). reflexivity.
Defined.

(** ** Counting calls *)

Lemma calls_app p t1 t2 : calls p (t1 ++ t2) = (calls p t1 + calls p t2)%nat.
Proof. unfold calls. by rewrite List.filter_app, length_app. Qed.

Lemma calls_cons p e t : calls p (e :: t) = (indicator (p e) + calls p t)%nat.
Proof. unfold calls. simpl. by destruct (p e). Qed.

Lemma calls_Permutation p t1 t2 : t1 ≡ₚ t2 -> calls p t1 = calls p t2.
Proof.
  unfold calls. induction 1 as [|x l l' _ IH|x y l|l l' l'' _ IH1 _ IH2]; simpl.
  - done.
  - destruct (p x); simpl; by rewrite IH.
  - by destruct (p x), (p y).
  - by rewrite IH1.
Qed.

Lemma calls_trace_of p gs t : trace_of gs t -> calls p t = calls p (sequential_trace gs).
Proof. intros Ht. by apply calls_Permutation, trace_of_Permutation. Qed.

Lemma calls_none p t : Forall (fun e => p e = false) t -> calls p t = 0%nat.
Proof.
  unfold calls. induction 1 as [|e t He _ IH]; simpl; [done|]. by rewrite He.
Qed.

(** The calls of a group of tasks built with [map] over indices. *)
Lemma calls_concat_imap {A B} p (f : nat -> A -> Task B) (c : nat -> A -> bool)
    (l : list A) :
  (forall n x, l !! n = Some x -> calls p (events (f n x)) = indicator (c n x)) ->
  calls p (concat (map events (imap f l))) = sum_list (imap (fun n x => indicator (c n x)) l).
Proof.
  revert f c. induction l as [|x l IH]; intros f c Hf; [done|].
  simpl. rewrite calls_app, (Hf 0%nat x) by done. f_equal.
  apply (IH (f ∘ S) (c ∘ S)). intros n y Hn. by apply (Hf (S n)).
Qed.

Lemma sum_indicator_filter {A} (c : A -> bool) (l : list A) :
  sum_list (imap (fun _ x => indicator (c x)) l) = length (List.filter c l).
Proof.
  induction l as [|x l IH]; [done|]. simpl. unfold compose. rewrite IH.
  by destruct (c x).
Qed.

Lemma uploadFile_put_calls w uuid file fileType folder :
  calls is_put (events (S3Service.uploadFile w uuid file fileType folder))
  = indicator (validb file fileType).
Proof.
  unfold S3Service.uploadFile, S3Service.getFileMetadata.
  destruct (validb file fileType) eqn:Hv.
  - apply validb_valid in Hv. rewrite (validateFile_valid _ _ Hv). run_task.
    by case_replies.
  - assert (~ valid file fileType) as Hnv.
    { intros H%validb_valid. congruence. }
    by destruct (validateFile_invalid _ _ Hnv) as [msg ->].
Qed.

Lemma upload_event_not_delete e : upload_event e -> is_delete e = false.
Proof. by destruct e as [[]| | |]. Qed.

Lemma upload_event_not_asset_creation e : upload_event e -> is_asset_creation e = false.
Proof. by destruct e as [[]| | |]. Qed.

Lemma upload_stage_events w files fileType folder :
  Forall upload_event (concat (map events (uploadPromises w files fileType folder))).
Proof.
  apply Forall_forall. intros e (l & Hl & He)%list_elem_of_In%in_concat.
  apply in_map_iff in Hl as (t & <- & Ht).
  apply list_elem_of_In in Ht. unfold uploadPromises in Ht.
  apply elem_of_lookup_imap in Ht as (n & file & -> & _).
  rewrite uploadPromise_events in He.
  pose proof (uploadFile_events w (randomUUID w n) file fileType folder) as HF.
  rewrite Forall_forall in HF. by apply HF, list_elem_of_In.
Qed.

(** X6.  [uploadMultipleFiles] never rejects.  It resolves to one entry
    per file, in the order of the files; the entry of a file is 'fulfilled'
    with the stored object when [uploadFile] resolved for it, and 'rejected'
    with the message of the exception when it threw; both carry the file's
    original name. *)
Theorem uploadMultipleFiles_settles_every_file w files fileType folder :
  exists s3Results,
    settled (S3Service.uploadMultipleFiles w (Some files) fileType folder) = Ok s3Results
    /\ length s3Results = length files
    /\ forall i file,
         files !! i = Some file ->
         s3Results !! i
         = Some match outcome (S3Service.uploadFile w (randomUUID w i) file fileType folder)
                with
                | Ok v => fulfilledWith v (originalname file)
                | Throw e => rejectedWith (message e) (originalname file)
                end.
Proof.
  destruct files as [|f fs].
  { exists []. by split_and!. }
  destruct (uploadMultipleFiles_run w (f :: fs) fileType folder) as (ss & Hrun & HF);
    [done|].
  exists ss. rewrite Hrun. split_and!; [done| |].
  - rewrite <- (Forall2_length _ _ _ HF). unfold uploadPromises. by rewrite length_imap.
  - intros i file Hi.
    destruct (uploadMultipleFiles_lookup _ _ _ _ _ _ _ HF Hi) as (s & Hs & Hout).
    rewrite uploadPromise_outcome in Hout. injection Hout as <-. exact Hs.
Qed.

Lemma uploadMultipleFiles_settles_every_file_witness :
  exists s3Results,
    settled (S3Service.uploadMultipleFiles good_world (Some [big_png; clip]) video None)
    = Ok s3Results
    /\ S3Service.status <$> s3Results = [S3Service.rejected; S3Service.fulfilled].
Proof.
  destruct (uploadMultipleFiles_settles_every_file good_world [big_png; clip] video None)
    as (ss & Hss & Hlen & Hitems).
  exists ss. split; [done|].
  pose proof (Hitems 0%nat big_png eq_refl) as H0.
  pose proof (Hitems 1%nat clip eq_refl) as H1.
  destruct ss as [|s0 [|s1 [|s2 ss]]]; try discriminate.
  simpl in H0, H1. injection H0 as ->. injection H1 as ->. reflexivity.
Defined.

(** X7.  Every trace of [uploadMultipleFiles] holds exactly one put per
    file that passes validation, whatever the puts and heads answer, and
    neither a delete nor an asset creation. *)
Theorem uploadMultipleFiles_puts_valid_files_once w files fileType folder t :
  trace_of (stages (S3Service.uploadMultipleFiles w (Some files) fileType folder)) t ->
  calls is_put t = length (List.filter (fun file => validb file fileType) files)
  /\ calls is_delete t = 0%nat
  /\ calls is_asset_creation t = 0%nat.
Proof.
  destruct files as [|f fs].
  { intros ->%trace_of_nil_inv. by split_and!. }
  destruct (uploadMultipleFiles_run w (f :: fs) fileType folder) as (ss & -> & _);
    [done|].
  cbn [stages]. intros Ht. rewrite !(calls_trace_of _ _ _ Ht).
  unfold sequential_trace. cbn [map concat]. rewrite app_nil_r.
  pose proof (upload_stage_events w (f :: fs) fileType folder) as Hev.
  split_and!.
  - unfold uploadPromises.
    rewrite (calls_concat_imap _ _ (fun _ file => validb file fileType)).
    + apply sum_indicator_filter.
    + intros n x _. rewrite uploadPromise_events. apply uploadFile_put_calls.
  - apply calls_none. eapply Forall_impl; [exact Hev|]. apply upload_event_not_delete.
  - apply calls_none. eapply Forall_impl; [exact Hev|].
    apply upload_event_not_asset_creation.
Qed.

Lemma uploadMultipleFiles_puts_valid_files_once_witness :
  calls is_put
    (sequential_trace
       (stages (S3Service.uploadMultipleFiles storage_down_world
                  (Some [clip; big_png; clip]) video None))) = 2%nat.
Proof.
  apply (uploadMultipleFiles_puts_valid_files_once storage_down_world
           [clip; big_png; clip] video None).
  apply trace_of_sequential.
Defined.

(** ** Single uploads, call by call *)

Lemma createAsset_success w u title asset :
  mux_reply w u = MuxCreated asset ->
  MuxService.createAsset w u title
  = MkTask [MuxAssetsCreate u]
      (Ok {| MuxService.id := asset_id asset;
             MuxService.title := title;
             MuxService.status := asset_status asset;
             MuxService.duration := asset_duration asset;
             MuxService.aspectRatio := aspect_ratio asset;
             MuxService.playbackId := playback_ids asset ≫= head;
             MuxService.createdAt := created_at asset;
             MuxService.uploadId := upload_id asset;
             MuxService.s3Url := u |}).
Proof. intros Hm. unfold MuxService.createAsset. run_task. by rewrite Hm. Qed.

Lemma createAsset_events w u title :
  exists rest,
    events (MuxService.createAsset w u title) = MuxAssetsCreate u :: rest
    /\ Forall (fun e => is_asset_creation e = false /\ is_delete e = false
                        /\ is_put e = false /\ is_head e = false) rest.
Proof.
  unfold MuxService.createAsset. run_task.
  destruct (mux_reply w u); simpl; eexists; split; try done; repeat constructor.
Qed.



(** X9.  [uploadVideo] asks for an asset exactly when the storage write
    succeeded, once, and for the URL of the object it has just stored; when
    the storage write fails it sends nothing after [uploadFile] gave up. *)
Theorem uploadVideo_creates_asset_for_stored_object w file title :
  calls is_asset_creation (events (UploadService.uploadVideo w file title))
  = indicator (stored w 0 file video None)
  /\ (forall u,
        MuxAssetsCreate u ∈ events (UploadService.uploadVideo w file title) ->
        exists v,
          outcome (S3Service.uploadFile w (randomUUID w 0) file video None) = Ok v
          /\ u = url v)
  /\ (forall e,
        outcome (S3Service.uploadFile w (randomUUID w 0) file video None) = Throw e ->
        events (UploadService.uploadVideo w file title)
        = (events (S3Service.uploadFile w (randomUUID w 0) file video None)
           ++ [LoggerError ("Failed to upload video: " +:+ message e)])%list).
Proof.
  pose proof (uploadFile_events w (randomUUID w 0) file video None) as Hev.
  assert (forall l, Forall upload_event l -> Forall (fun e => is_asset_creation e = false) l)
    as Hnone.
  { intros l Hl. eapply Forall_impl; [exact Hl|]. apply upload_event_not_asset_creation. }
  unfold UploadService.uploadVideo, stored.
  destruct (outcome (S3Service.uploadFile w (randomUUID w 0) file video None)) as [v|e] eqn:Ho.
  - rewrite (bind_Ok _ _ _ Ho).
    destruct (createAsset_events w (url v) (or_string title (originalname file)))
      as (rest & Hrest & Hclean).
    assert (Forall (fun e => is_asset_creation e = false) rest) as Hrest'.
    { eapply Forall_impl; [exact Hclean|]. by intros ? [? _]. }
    destruct (outcome (MuxService.createAsset w (url v) (or_string title (originalname file))))
      as [mr|e] eqn:Hm.
    + rewrite (bind_Ok _ _ _ Hm). unfold try_catch. simpl. rewrite app_nil_r, Hrest.
      split_and!; [|intros u Hu|done].
      * rewrite calls_app, calls_cons, (calls_none _ _ (Hnone _ Hev)).
        by rewrite (calls_none _ _ Hrest').
      * apply elem_of_app in Hu as [Hu|Hu].
        { rewrite Forall_forall in Hev. by apply Hev in Hu. }
        apply elem_of_cons in Hu as [[= ->]|Hu]; [by eexists|].
        rewrite Forall_forall in Hrest'. by apply Hrest' in Hu.
    + rewrite (bind_Throw _ _ _ Hm). unfold try_catch. simpl. rewrite Hrest.
      split_and!; [|intros u Hu|done].
      * rewrite !calls_app, calls_cons, (calls_none _ _ (Hnone _ Hev)).
        by rewrite (calls_none _ _ Hrest').
      * apply elem_of_app in Hu as [Hu|Hu].
        { apply elem_of_app in Hu as [Hu|Hu].
          - rewrite Forall_forall in Hev. by apply Hev in Hu.
          - apply elem_of_cons in Hu as [[= ->]|Hu]; [by eexists|].
            rewrite Forall_forall in Hrest'. by apply Hrest' in Hu. }
        by apply list_elem_of_singleton in Hu.
  - rewrite (bind_Throw _ _ _ Ho). unfold try_catch. simpl.
    split_and!; [|intros u Hu|by intros ? [= <-]].
    + rewrite calls_app, (calls_none _ _ (Hnone _ Hev)). done.
    + apply elem_of_app in Hu as [Hu|Hu].
      * rewrite Forall_forall in Hev. by apply Hev in Hu.
      * by apply list_elem_of_singleton in Hu.
Qed.

Lemma uploadVideo_creates_asset_for_stored_object_witness :
  events (UploadService.uploadVideo storage_down_world clip None)
  = [S3Send (PutObjectCommand "bucket" "videos/uuid0-clip.mp4" [] "video/mp4");
     LoggerError "Failed to upload file to S3: SlowDown";
     LoggerError "Failed to upload video: Failed to upload file to S3: SlowDown"].
Proof.
  destruct (uploadVideo_creates_asset_for_stored_object storage_down_world clip None)
    as (_ & _ & H).
  rewrite (H (FileUploadException "Failed to upload file to S3: SlowDown")).
  - vm_compute. reflexivity.
  - vm_compute. reflexivity.
Defined.

(** X10.  When the storage write and the asset creation succeed,
    [uploadVideo] gives the asset the title it was handed, character for
    character, unless that title is missing or empty, in which case the
    asset takes the file's original name; the result merges the asset with
    the URL, content type and size of the stored object. *)
Theorem uploadVideo_uses_title_as_supplied w file title v asset :
  outcome (S3Service.uploadFile w (randomUUID w 0) file video None) = Ok v ->
  mux_reply w (url v) = MuxCreated asset ->
  exists d,
    outcome (UploadService.uploadVideo w file title)
    = Ok {| UploadService.status := UploadService.success;
            UploadService.data := Some d;
            UploadService.error := None;
            UploadService.fileName := originalname file |}
    /\ UploadService.title d
       = Some match title with
              | Some t => if decide (t = "") then originalname file else t
              | None => originalname file
              end
    /\ UploadService.id d = Some (asset_id asset)
    /\ UploadService.data_status d = Some (asset_status asset)
    /\ UploadService.data_url d = url v
    /\ UploadService.s3Url d = url v
    /\ UploadService.data_contentType d = contentType v
    /\ UploadService.data_size d = s3_size v.
Proof.
  intros Ho Hm. unfold UploadService.uploadVideo.
  rewrite (bind_Ok _ _ _ Ho), (createAsset_success _ _ _ _ Hm). unfold try_catch. simpl.
  eexists. split_and!; done.
Qed.

Lemma uploadVideo_uses_title_as_supplied_witness :
  exists d,
    UploadService.data
      <$> outcome_value (UploadService.uploadVideo good_world clip (Some " a<b> "))
    = Some (Some d)
    /\ UploadService.title d = Some " a<b> ".
Proof.
  destruct (uploadVideo_uses_title_as_supplied good_world clip (Some " a<b> ")
              {| url := "https://bucket.s3.eu-west-1.amazonaws.com/videos/uuid0-clip.mp4";
                 key := "videos/uuid0-clip.mp4"; contentType := "video/mp4";
                 s3_size := 50; s3_metadata := None |}
              sample_asset) as (d & Hd & Ht & _).
  - vm_compute. reflexivity.
  - reflexivity.
  - exists d. unfold outcome_value. rewrite Hd. split; [done|]. rewrite Ht. reflexivity.
Defined.

(** ** Batches, call by call *)

Lemma imap_imap {A B C} (F : nat -> B -> C) (G : nat -> A -> B) (l : list A) :
  imap F (imap G l) = imap (fun n x => F n (G n x)) l.
Proof.
  revert F G. induction l as [|x l IH]; intros F G; [done|].
  simpl. f_equal. apply IH.
Qed.

Lemma s3Results_eq w files fileType s3Results :
  Forall2 (fun t s => outcome t = Ok s) (uploadPromises w files fileType None) s3Results ->
  s3Results = imap (fun n file => settledOf w n file fileType) files.
Proof.
  intros HF. apply list_eq. intros i. rewrite list_lookup_imap.
  destruct (files !! i) as [file|] eqn:Hi; simpl.
  - exact (s3Results_lookup _ _ _ _ _ _ HF Hi).
  - apply lookup_ge_None. rewrite <- (Forall2_length _ _ _ HF). unfold uploadPromises.
    rewrite length_imap. by apply lookup_ge_None.
Qed.

Lemma interleave_Forall {A} (P : A -> Prop) ls t :
  interleave ls t -> Forall P (concat ls) -> Forall P t.
Proof.
  intros Hi HF. rewrite Forall_forall in HF |- *. intros x Hx. apply HF.
  by rewrite <- (interleave_Permutation _ _ Hi).
Qed.

(** What the callback of a file sends, by kind of call. *)
Lemma processS3Result_calls w files titles n file :
  files !! n = Some file ->
  let evs := events (UploadService.processS3Result w files titles n
                       (settledOf w n file video)) in
  calls is_asset_creation evs = indicator (stored w n file video None)
  /\ calls is_delete evs = indicator (processing_fails w n file)
  /\ Forall (fun e => is_put e = false /\ is_head e = false) evs.
Proof.
  intros Hi. unfold settledOf, stored, processing_fails.
  destruct (outcome (S3Service.uploadFile w (randomUUID w n) file video None)) as [v|e].
  2:{ rewrite processS3Result_rejected. by split_and!. }
  unfold UploadService.processS3Result. simpl.
  rewrite (titleOf_Some _ _ _ _ Hi). unfold MuxService.createAsset, S3Service.deleteFile.
  run_task. destruct (mux_reply w (url v)); simpl.
  - split_and!; [done..|]. by repeat constructor.
  - destruct (s3_reply w (DeleteObjectCommand (bucketName w) (key v))); simpl;
      (split_and!; [done..|]); by repeat constructor.
Qed.

(** Where a delete call of a batch of videos comes from. *)
Lemma batch_delete_origin w files titles t b k :
  trace_of (stages (UploadService.uploadMultipleVideos w (Some files) titles)) t ->
  S3Send (DeleteObjectCommand b k) ∈ t ->
  exists j fj vj m,
    files !! j = Some fj
    /\ outcome (S3Service.uploadFile w (randomUUID w j) fj video None) = Ok vj
    /\ b = bucketName w /\ k = key vj
    /\ mux_reply w (url vj) = MuxFailure m.
Proof.
  destruct files as [|f fs].
  { intros ->%trace_of_nil_inv Hin. by apply elem_of_nil in Hin. }
  destruct (uploadMultipleVideos_run w (f :: fs) titles) as (ss & rs & -> & HF1 & HF2);
    [done|].
  cbn [stages]. intros Ht Hin.
  destruct (trace_of_elem _ _ _ Ht Hin) as (g & l & Hg & Hl & He).
  apply elem_of_cons in Hg as [->|Hg].
  { exfalso. pose proof (upload_stage_events w (f :: fs) video None) as Hev.
    rewrite Forall_forall in Hev.
    assert (upload_event (S3Send (DeleteObjectCommand b k))) as []. apply Hev.
    apply list_elem_of_In, in_concat. exists l. by rewrite <- !list_elem_of_In. }
  apply list_elem_of_singleton in Hg as ->.
  apply list_elem_of_fmap in Hl as (tk & -> & Htk).
  unfold callbacks in Htk. apply elem_of_lookup_imap in Htk as (j & sj & -> & Hsj).
  destruct (s3Results_lookup_inv _ _ _ _ _ _ HF1 Hsj) as (fj & Hfj & ->).
  apply (processS3Result_events _ _ _ _ _ _ _ Hfj) in He.
  destruct He as (vj & m & _ & Hvj & [= -> ->] & Hm).
  apply settledOf_fulfilled_inv in Hvj. by exists j, fj, vj, m.
Qed.

Lemma videoKeys_inj w files i j fi fj vi vj :
  NoDup (videoKeys w files) ->
  files !! i = Some fi -> files !! j = Some fj ->
  outcome (S3Service.uploadFile w (randomUUID w i) fi video None) = Ok vi ->
  outcome (S3Service.uploadFile w (randomUUID w j) fj video None) = Ok vj ->
  key vi = key vj -> i = j.
Proof.
  intros Hnd Hi Hj [Hki _]%uploadFile_Ok [Hkj _]%uploadFile_Ok Heq. simpl in Hki, Hkj.
  apply (NoDup_lookup _ i j (key vi) Hnd); unfold videoKeys; rewrite list_lookup_imap.
  - rewrite Hi. simpl. congruence.
  - rewrite Hj. simpl. congruence.
Qed.

(** X11.  A batch of images only ever puts and heads: no trace of it
    holds an asset creation or a delete, and it puts once per valid image.
    The result of a file is 'success' exactly when its storage write
    succeeded. *)
Theorem uploadMultipleImages_only_stores w files :
  (forall t,
     trace_of (stages (UploadService.uploadMultipleImages w (Some files))) t ->
     Forall upload_event t
     /\ calls is_put t = length (List.filter (fun file => validb file image) files))
  /\ exists results,
       settled (UploadService.uploadMultipleImages w (Some files)) = Ok results
       /\ forall i file,
            files !! i = Some file ->
            exists o, results !! i = Some o
                      /\ (UploadService.status o = UploadService.success
                          <-> stored w i file image None = true).
Proof.
  destruct files as [|f fs].
  { split.
    - intros t ->%trace_of_nil_inv. by split.
    - exists []. by split. }
  destruct (uploadMultipleImages_run w (f :: fs)) as (ss & -> & HF); [done|].
  cbn [stages settled]. split.
  - intros t Ht. split.
    + inversion Ht as [|g gs t1 t2 Hg Hgs]; subst.
      apply trace_of_nil_inv in Hgs as ->. rewrite app_nil_r.
      eapply interleave_Forall; [exact Hg|].
      exact (upload_stage_events w (f :: fs) image None).
    + rewrite (calls_trace_of _ _ _ Ht). unfold sequential_trace. cbn [map concat].
      rewrite app_nil_r. unfold uploadPromises.
      rewrite (calls_concat_imap _ _ (fun _ file => validb file image)).
      * apply sum_indicator_filter.
      * intros n x _. rewrite uploadPromise_events. apply uploadFile_put_calls.
  - eexists. split; [done|]. intros i file Hi.
    pose proof (s3Results_lookup _ _ _ _ _ _ HF Hi) as Hs.
    eexists. split.
    + change (map ?g ?l) with (g <$> l). by rewrite list_lookup_fmap, Hs.
    + unfold settledOf, stored.
      by destruct (outcome (S3Service.uploadFile w (randomUUID w i) file image None)).
Qed.

Lemma uploadMultipleImages_only_stores_witness :
  Forall upload_event
    (sequential_trace (stages (UploadService.uploadMultipleImages head_down_world
                                 (Some [big_png; clip])))).
Proof.
  destruct (uploadMultipleImages_only_stores head_down_world [big_png; clip]) as [H _].
  apply H, trace_of_sequential.
Defined.

Lemma processS3Result_created w files titles i file v name asset :
  files !! i = Some file ->
  mux_reply w (url v) = MuxCreated asset ->
  UploadService.processS3Result w files titles i (fulfilledWith v name)
  = MkTask [MuxAssetsCreate (url v)]
      (Ok {| UploadService.status := UploadService.success;
             UploadService.data :=
               Some (UploadService.videoData
                       {| MuxService.id := asset_id asset;
                          MuxService.title :=
                            or_string (titles ≫= (fun ts => ts !! i)) (originalname file);
                          MuxService.status := asset_status asset;
                          MuxService.duration := asset_duration asset;
                          MuxService.aspectRatio := aspect_ratio asset;
                          MuxService.playbackId := playback_ids asset ≫= head;
                          MuxService.createdAt := created_at asset;
                          MuxService.uploadId := upload_id asset;
                          MuxService.s3Url := url v |} v);
             UploadService.error := None;
             UploadService.fileName := name |}).
Proof.
  intros Hi Hm. unfold UploadService.processS3Result. simpl.
  rewrite (titleOf_Some _ _ _ _ Hi). unfold MuxService.createAsset. run_task.
  by rewrite Hm.
Qed.

(** X12.  In a batch of videos, a file that is stored and whose asset is
    created gets a 'success' result: its title is the title at its index,
    or its original name when there is none or it is empty, and the asset is
    merged with the URL, content type and size of the stored object.  The
    storage keys being distinct, no trace holds a delete of its key. *)
Theorem batch_video_success_keeps_object w files titles i file v asset :
  files !! i = Some file ->
  outcome (S3Service.uploadFile w (randomUUID w i) file video None) = Ok v ->
  mux_reply w (url v) = MuxCreated asset ->
  NoDup (videoKeys w files) ->
  exists results d,
    settled (UploadService.uploadMultipleVideos w (Some files) titles) = Ok results
    /\ results !! i
       = Some {| UploadService.status := UploadService.success;
                 UploadService.data := Some d;
                 UploadService.error := None;
                 UploadService.fileName := originalname file |}
    /\ UploadService.title d
       = Some (or_string (titles ≫= (fun ts => ts !! i)) (originalname file))
    /\ UploadService.data_status d = Some (asset_status asset)
    /\ UploadService.data_url d = url v
    /\ UploadService.data_contentType d = contentType v
    /\ UploadService.data_size d = s3_size v
    /\ forall t b,
         trace_of (stages (UploadService.uploadMultipleVideos w (Some files) titles)) t ->
         S3Send (DeleteObjectCommand b (key v)) ∉ t.
Proof.
  intros Hi Hok Hm Hkeys.
  assert (files <> []) as Hne by (intros ->; done).
  destruct (uploadMultipleVideos_run w files titles Hne) as (ss & rs & Hrun & HF1 & HF2).
  destruct (video_results_lookup _ _ _ _ _ _ _ HF1 HF2 Hi) as (o & Ho & Hout).
  assert (settledOf w i file video = fulfilledWith v (originalname file)) as Hsi.
  { unfold settledOf. by rewrite Hok. }
  rewrite Hsi, (processS3Result_created _ _ _ _ _ _ _ _ Hi Hm) in Hout.
  injection Hout as <-.
  eexists rs, _. split_and!; [by rewrite Hrun|exact Ho|done..|].
  intros t b Ht Hin.
  destruct (batch_delete_origin _ _ _ _ _ _ Ht Hin) as (j & fj & vj & m & Hj & Hvj & _ & Hk & Hmj).
  assert (i = j) as <- by (eapply videoKeys_inj; eauto).
  congruence.
Qed.

Lemma batch_video_success_keeps_object_witness :
  exists results o,
    settled (UploadService.uploadMultipleVideos good_world (Some [clip; clip])
               (Some [""; "Second"])) = Ok results
    /\ (UploadService.title <$> (results !! 0%nat ≫= UploadService.data))
       = Some (Some "clip.mp4")
    /\ results !! 0%nat = Some o.
Proof.
  destruct (batch_video_success_keeps_object good_world [clip; clip] (Some [""; "Second"]) 0
              clip
              {| url := "https://bucket.s3.eu-west-1.amazonaws.com/videos/uuid0-clip.mp4";
                 key := "videos/uuid0-clip.mp4"; contentType := "video/mp4";
                 s3_size := 50; s3_metadata := None |}
              sample_asset) as (rs & d & Hrs & Hi & Ht & _).
  - reflexivity.
  - vm_compute. reflexivity.
  - reflexivity.
  - apply (bool_decide_unpack _). vm_compute. exact I.
  - eexists rs, _. split_and!; [done| |exact Hi]. rewrite Hi. simpl. by rewrite Ht.
Defined.

(** X13.  A batch of videos deletes nothing but what it has stored and
    failed to process: every delete call of every trace is sent to the
    configured bucket for the key of a file of the request whose storage
    write succeeded and whose asset creation failed. *)
Theorem batch_video_deletes_only_unprocessed w files titles t b k :
  trace_of (stages (UploadService.uploadMultipleVideos w (Some files) titles)) t ->
  S3Send (DeleteObjectCommand b k) ∈ t ->
  exists j fj vj m,
    files !! j = Some fj
    /\ outcome (S3Service.uploadFile w (randomUUID w j) fj video None) = Ok vj
    /\ b = bucketName w /\ k = key vj
    /\ mux_reply w (url vj) = MuxFailure m.
Proof. apply batch_delete_origin. Qed.

Lemma batch_video_deletes_only_unprocessed_witness :
  exists j fj vj m,
    [clip; clip] !! j = Some fj
    /\ outcome (S3Service.uploadFile mux_down_world (randomUUID mux_down_world j) fj video
                  None) = Ok vj
    /\ "bucket" = bucketName mux_down_world /\ "videos/uuid1-clip.mp4" = key vj
    /\ mux_reply mux_down_world (url vj) = MuxFailure m.
Proof.
  apply (batch_video_deletes_only_unprocessed mux_down_world [clip; clip] None
           (sequential_trace
              (stages (UploadService.uploadMultipleVideos mux_down_world
                         (Some [clip; clip]) None)))).
  - apply trace_of_sequential.
  - apply (bool_decide_unpack _). vm_compute. exact I.
Defined.

(** X14.  In a batch of videos the storage stage is over before the
    processing stage starts: every trace splits into a first part that holds
    only puts, heads and error logs, and a second part that holds no put and
    no head. *)
Theorem batch_video_stores_before_processing w files titles t :
  trace_of (stages (UploadService.uploadMultipleVideos w (Some files) titles)) t ->
  exists t1 t2,
    t = (t1 ++ t2)%list
    /\ Forall upload_event t1
    /\ Forall (fun e => is_put e = false /\ is_head e = false) t2.
Proof.
  destruct files as [|f fs].
  { intros ->%trace_of_nil_inv. by exists [], []. }
  destruct (uploadMultipleVideos_run w (f :: fs) titles) as (ss & rs & -> & HF1 & HF2);
    [done|].
  cbn [stages].
  remember (map events (uploadPromises w (f :: fs) video None)) as g1 eqn:Hg1.
  remember (map events (callbacks w (f :: fs) titles ss)) as g2 eqn:Hg2.
  intros Ht.
  inversion Ht as [|? ? t1 t' H1 H']; subst.
  inversion H' as [|? ? t2 t'' H2 H'']; subst.
  apply trace_of_nil_inv in H'' as ->. rewrite app_nil_r.
  exists t1, t2. split_and!; [done| |].
  - eapply interleave_Forall; [exact H1|]. apply upload_stage_events.
  - eapply interleave_Forall; [exact H2|].
    apply Forall_forall. intros e (l & Hl & He)%list_elem_of_In%in_concat.
    apply in_map_iff in Hl as (tk & <- & Htk).
    apply list_elem_of_In in Htk. unfold callbacks in Htk.
    apply elem_of_lookup_imap in Htk as (j & sj & -> & Hsj).
    destruct (s3Results_lookup_inv _ _ _ _ _ _ HF1 Hsj) as (fj & Hfj & ->).
    destruct (processS3Result_calls w (f :: fs) titles j fj Hfj) as (_ & _ & HF).
    rewrite Forall_forall in HF. by apply HF, list_elem_of_In.
Qed.

Lemma batch_video_stores_before_processing_witness :
  exists t1 t2,
    sequential_trace
      (stages (UploadService.uploadMultipleVideos mux_down_world (Some [clip; clip]) None))
    = (t1 ++ t2)%list
    /\ Forall upload_event t1
    /\ Forall (fun e => is_put e = false /\ is_head e = false) t2.
Proof.
  apply (batch_video_stores_before_processing mux_down_world [clip; clip] None).
  apply trace_of_sequential.
Defined.

(** X15.  In every trace of a batch of videos there is one put per valid
    file, one asset creation per file whose storage write succeeded, and one
    delete per file that was stored and whose asset creation failed. *)
Theorem batch_video_call_counts w files titles t :
  trace_of (stages (UploadService.uploadMultipleVideos w (Some files) titles)) t ->
  calls is_put t = length (List.filter (fun file => validb file video) files)
  /\ calls is_asset_creation t
     = sum_list (imap (fun n file => indicator (stored w n file video None)) files)
  /\ calls is_delete t
     = sum_list (imap (fun n file => indicator (processing_fails w n file)) files).
Proof.
  destruct files as [|f fs].
  { intros ->%trace_of_nil_inv. by split_and!. }
  destruct (uploadMultipleVideos_run w (f :: fs) titles) as (ss & rs & -> & HF1 & HF2);
    [done|].
  cbn [stages]. intros Ht. rewrite !(calls_trace_of _ _ _ Ht).
  unfold sequential_trace. cbn [map concat]. rewrite app_nil_r, !calls_app.
  pose proof (upload_stage_events w (f :: fs) video None) as Hev.
  unfold callbacks. rewrite (s3Results_eq _ _ _ _ HF1), imap_imap.
  split_and!.
  - unfold uploadPromises at 1.
    rewrite (calls_concat_imap _ _ (fun _ file => validb file video)).
    2:{ intros n x _. rewrite uploadPromise_events. apply uploadFile_put_calls. }
    rewrite (calls_concat_imap _ _ (fun _ _ => false)).
    2:{ intros n x Hn. destruct (processS3Result_calls w (f :: fs) titles n x Hn)
          as (_ & _ & HF).
        apply calls_none. eapply Forall_impl; [exact HF|]. by intros ? [? _]. }
    rewrite sum_indicator_filter.
    assert (forall (l : list File),
              sum_list (imap (fun _ _ => indicator false) l) = 0%nat) as ->; [|lia].
    induction l as [|? ? IH]; [done|]. exact IH.
  - rewrite (calls_none is_asset_creation).
    2:{ eapply Forall_impl; [exact Hev|]. apply upload_event_not_asset_creation. }
    rewrite (calls_concat_imap _ _ (fun n file => stored w n file video None)); [done|].
    intros n x Hn. by destruct (processS3Result_calls w (f :: fs) titles n x Hn) as (? & _).
  - rewrite (calls_none is_delete).
    2:{ eapply Forall_impl; [exact Hev|]. apply upload_event_not_delete. }
    rewrite (calls_concat_imap _ _ (fun n file => processing_fails w n file)); [done|].
    intros n x Hn.
    by destruct (processS3Result_calls w (f :: fs) titles n x Hn) as (_ & ? & _).
Qed.

Lemma batch_video_call_counts_witness :
  let t := sequential_trace
             (stages (UploadService.uploadMultipleVideos mux_down_world
                        (Some [clip; big_png; clip]) None)) in
  calls is_put t = 2%nat /\ calls is_asset_creation t = 2%nat /\ calls is_delete t = 2%nat.
Proof.
  apply (batch_video_call_counts mux_down_world [clip; big_png; clip] None).
  apply trace_of_sequential.
Defined.

Lemma trace_of_elem_inv gs t g l e :
  trace_of gs t -> g ∈ gs -> l ∈ g -> e ∈ l -> e ∈ t.
Proof.
  intros Ht Hg Hl He. rewrite (trace_of_Permutation _ _ Ht). unfold sequential_trace.
  apply list_elem_of_In, in_concat. exists (concat g). split.
  - apply in_map_iff. exists g. by rewrite <- list_elem_of_In.
  - apply in_concat. exists l. by rewrite <- !list_elem_of_In.
Qed.

Lemma batch_singleton w file titles :
  exists o,
    outcome (UploadService.processS3Result w [file] titles 0 (settledOf w 0 file video)) = Ok o
    /\ settled (UploadService.uploadMultipleVideos w (Some [file]) titles) = Ok [o].
Proof.
  destruct (uploadMultipleVideos_run w [file] titles) as (ss & rs & Hrun & HF1 & HF2);
    [done|].
  destruct (video_results_lookup _ _ _ _ _ 0 file HF1 HF2 eq_refl) as (o & Ho & Hout).
  exists o. split; [done|]. rewrite Hrun. simpl. f_equal.
  apply Forall2_length in HF1, HF2. unfold callbacks in HF2. rewrite length_imap in HF2.
  simpl in HF1. destruct rs as [|r [|? ?]]; simpl in *; congruence.
Qed.

(** X16.  A batch of one video and the single upload of that video with
    the same title resolve to the same result, except when the asset
    creation fails after the storage write succeeded: the single upload then
    reports ["Failed to process video with Mux"] and the batch reports the
    same behind ["Mux processing failed: "]. *)
Theorem singleton_batch_agrees_with_single_upload w file title :
  exists r,
    outcome (UploadService.uploadVideo w file title) = Ok r
    /\ settled (UploadService.uploadMultipleVideos w (Some [file])
                  ((fun t => [t]) <$> title))
       = Ok [if processing_fails w 0 file
             then failedResult "Mux processing failed: Failed to process video with Mux"
                    (originalname file)
             else r]
    /\ (processing_fails w 0 file = true ->
        r = failedResult "Failed to process video with Mux" (originalname file)).
Proof.
  destruct (batch_singleton w file ((fun t => [t]) <$> title)) as (o & Ho & ->).
  unfold settledOf, processing_fails in *. unfold UploadService.uploadVideo.
  destruct (outcome (S3Service.uploadFile w (randomUUID w 0) file video None))
    as [v|e] eqn:Hv.
  - rewrite (bind_Ok _ _ _ Hv).
    destruct (mux_reply w (url v)) as [asset|m] eqn:Hm.
    + rewrite (processS3Result_created _ [file] _ 0 file _ _ _ eq_refl Hm) in Ho.
      injection Ho as <-.
      rewrite (createAsset_success _ _ _ _ Hm). unfold try_catch. simpl.
      eexists. split_and!; [done| |done]. by destruct title.
    + destruct (processS3Result_mux_failure w [file] ((fun t => [t]) <$> title) 0 file v
                  (originalname file) m eq_refl Hm) as [Hres _].
      rewrite Hres in Ho. injection Ho as <-.
      rewrite (bind_Throw _ _ _ (createAsset_failure _ _ _ _ Hm)).
      rewrite (try_catch_Throw _ _ (Error "Failed to process video with Mux")) by done.
      eexists. split_and!; done.
  - rewrite processS3Result_rejected in Ho. injection Ho as <-.
    rewrite (bind_Throw _ _ _ Hv), (try_catch_Throw _ _ e) by done.
    eexists. split_and!; done.
Qed.

Lemma singleton_batch_agrees_with_single_upload_witness :
  exists r,
    outcome (UploadService.uploadVideo mux_down_world clip (Some "T")) = Ok r
    /\ r = failedResult "Failed to process video with Mux" "clip.mp4".
Proof.
  destruct (singleton_batch_agrees_with_single_upload mux_down_world clip (Some "T"))
    as (r & Hr & _ & Hfail).
  exists r. split; [done|]. apply Hfail. vm_compute. reflexivity.
Defined.

(** X17.  In a batch of videos, a valid file whose put succeeds and whose
    head fails is reported 'failed' with the wrapped message of the head;
    every trace holds its put, and, the storage keys being distinct, no
    trace holds a delete of its key: the object stays in the bucket. *)
Theorem batch_video_head_failure_leaves_object w files titles i file ct len m :
  let k := S3Service.objectKey "videos" (randomUUID w i) file in
  let put := PutObjectCommand (bucketName w) k (buffer file) (mimetype file) in
  files !! i = Some file ->
  valid file video ->
  s3_reply w put = S3Output ct len ->
  s3_reply w (HeadObjectCommand (bucketName w) k) = S3Failure m ->
  NoDup (videoKeys w files) ->
  exists results,
    settled (UploadService.uploadMultipleVideos w (Some files) titles) = Ok results
    /\ results !! i
       = Some (failedResult
                 ("Failed to upload file to S3: Failed to get file metadata: " +:+ m)
                 (originalname file))
    /\ forall t,
         trace_of (stages (UploadService.uploadMultipleVideos w (Some files) titles)) t ->
         S3Send put ∈ t /\ forall b, S3Send (DeleteObjectCommand b k) ∉ t.
Proof.
  intros k put Hi Hvalid Hput Hhead Hkeys.
  pose proof (uploadFile_head_failure w (randomUUID w i) file video None ct len m
                Hvalid Hput Hhead) as Hup. simpl in Hup. fold k in Hup. fold put in Hup.
  assert (files <> []) as Hne by (intros ->; done).
  destruct (uploadMultipleVideos_run w files titles Hne) as (ss & rs & Hrun & HF1 & HF2).
  destruct (video_results_lookup _ _ _ _ _ _ _ HF1 HF2 Hi) as (o & Ho & Hout).
  unfold settledOf in Hout. rewrite Hup in Hout. cbn [outcome message] in Hout.
  rewrite processS3Result_rejected in Hout. injection Hout as <-.
  exists rs. split_and!; [by rewrite Hrun|done|].
  intros t Ht. split.
  - rewrite Hrun in Ht. cbn [stages] in Ht.
    eapply (trace_of_elem_inv _ _ _ _ _ Ht).
    + apply elem_of_cons. by left.
    + apply list_elem_of_fmap. eexists. split; [reflexivity|].
      unfold uploadPromises. by apply (elem_of_lookup_imap_2 _ _ file i).
    + cbv beta. rewrite uploadPromise_events, Hup. apply elem_of_cons. by left.
  - intros b Hin.
    destruct (batch_delete_origin _ _ _ _ _ _ Ht Hin)
      as (j & fj & vj & m' & Hj & Hvj & _ & Hk & _).
    apply uploadFile_Ok in Hvj as Hkj. destruct Hkj as [Hkj _]. simpl in Hkj.
    assert (j = i) as ->.
    { apply (NoDup_lookup _ j i k Hkeys); unfold videoKeys; rewrite list_lookup_imap.
      - rewrite Hj. simpl. congruence.
      - by rewrite Hi. }
    rewrite Hi in Hj. injection Hj as <-. rewrite Hup in Hvj. discriminate.
Qed.

Lemma batch_video_head_failure_leaves_object_witness :
  exists results,
    settled (UploadService.uploadMultipleVideos head_down_world (Some [clip]) None)
    = Ok results
    /\ results !! 0%nat
       = Some (failedResult
                 "Failed to upload file to S3: Failed to get file metadata: NotFound"
                 "clip.mp4").
Proof.
  destruct (batch_video_head_failure_leaves_object head_down_world [clip] None 0 clip
              None None "NotFound") as (rs & Hrs & Hi & _).
  - reflexivity.
  - split_and!; [done| |done]. apply (bool_decide_unpack _). reflexivity.
  - reflexivity.
  - reflexivity.
  - apply (bool_decide_unpack _). vm_compute. exact I.
  - exists rs. by split.
Defined.

(** ** Sanitized titles *)

Lemma filter_sublist {A} (p : A -> bool) (l : list A) : sublist (List.filter p l) l.
Proof.
  induction l as [|x l IH]; simpl; [constructor|].
  destruct (p x); by constructor.
Qed.

Lemma keep_chars_all p s : Forall (fun c => p c = true) s -> keep_chars p s = s.
Proof.
  induction s as [|c s IH]; simpl; [done|].
  intros [Hc Hs]%Forall_cons. rewrite Hc. by rewrite IH.
Qed.

(** A string that starts and ends with something else than white space is
    trimmed already. *)
Lemma trim_fixed s :
  (forall c, head s = Some c -> is_js_space c = false) ->
  (forall c, last s = Some c -> is_js_space c = false) ->
  trim s = s.
Proof.
  intros Hhead Hlast. unfold trim.
  assert (trimStart s = s) as ->.
  { destruct s as [|c s]; [done|]. simpl. by rewrite (Hhead c eq_refl). }
  clear Hhead. induction s as [|c s IH]; [done|]. simpl.
  destruct s as [|c' s].
  - simpl. by rewrite (Hlast c eq_refl).
  - rewrite IH; [done|]. intros c0 Hc0. apply Hlast. by rewrite last_cons, Hc0.
Qed.

(** Among the characters the sanitization lets through, the space is the
    only white space. *)
Lemma title_char_space c :
  title_char c = true -> is_js_space c = true -> c = N_of_ascii " ".
Proof.
  intros Ht%title_char_spec Hs. simpl in *. unfold is_js_space in Hs.
  rewrite !orb_true_iff, !andb_true_iff, !N.leb_le, !N.eqb_eq in Hs. lia.
Qed.

(** X18.  A sanitized title holds only ASCII letters, digits, hyphens,
    underscores, periods and spaces; it is made of code units of the title
    it comes from, in their order; a title made of such characters that
    neither starts nor ends with a space comes out unchanged; a missing
    title gives the empty string.  The trimming comes first: a space that
    the dropped characters stood behind stays at the end. *)
Theorem sanitizeTitle_keeps_allowed_characters :
  (forall raw,
     Forall (fun c => title_char c = true) (code_units (UploadController.sanitizeTitle raw)))
  /\ (forall t, sublist (code_units (UploadController.sanitizeTitle (Some t))) t)
  /\ (forall t,
        Forall (fun c => title_char c = true) t ->
        head t <> Some (N_of_ascii " ") ->
        last t <> Some (N_of_ascii " ") ->
        code_units (UploadController.sanitizeTitle (Some t)) = t)
  /\ UploadController.sanitizeTitle None = ""
  /\ UploadController.sanitizeTitle (Some (code_units "My Video !!")) = "My Video ".
Proof.
  split_and!.
  - intros [t|]; [|constructor]. rewrite sanitizeTitle_units. apply keep_chars_Forall.
  - intros t. rewrite sanitizeTitle_units, keep_chars_filter.
    etrans; [apply filter_sublist|].
    destruct (trim_spec t) as [(l & r & Ht & _) _]. rewrite Ht at 2.
    apply sublist_inserts_l, sublist_inserts_r. done.
  - intros t Hall Hhead Hlast. rewrite sanitizeTitle_units.
    assert (forall c, c ∈ t -> c <> N_of_ascii " " -> is_js_space c = false) as Hsp.
    { intros c Hc Hne. destruct (is_js_space c) eqn:Hs; [|done].
      destruct Hne. apply title_char_space; [|done].
      by apply (proj1 (Forall_forall _ _) Hall). }
    rewrite trim_fixed; [by apply keep_chars_all|..].
    + intros c Hc. apply Hsp; [|congruence].
      destruct t as [|c0 t]; [done|]. injection Hc as ->. by left.
    + intros c Hc. apply Hsp; [|congruence].
      apply last_Some in Hc as [l' ->]. apply elem_of_app. right. by left.
  - done.
  - reflexivity.
Qed.

Lemma sanitizeTitle_keeps_allowed_characters_witness :
  code_units (UploadController.sanitizeTitle (Some (code_units "Trip 2024_v1.2-final")))
  = code_units "Trip 2024_v1.2-final".
Proof.
  destruct sanitizeTitle_keeps_allowed_characters as (_ & _ & H & _).
  apply H; [|by vm_compute..].
  apply Forall_forall. intros c Hc. apply list_elem_of_In in Hc. vm_compute in Hc.
  repeat (destruct Hc as [<-|Hc]; [reflexivity|]). destruct Hc.
Defined.

(** ** [createMultipleAssets] *)

Lemma mapM_assetSettled results :
  outcome (mapM MuxService.assetSettled results) = Ok (map assetEntry results)
  /\ Forall (fun e => is_asset_creation e = false /\ is_storage_call e = false)
       (events (mapM MuxService.assetSettled results)).
Proof.
  induction results as [|r rs [IHo IHe]]; [by split|].
  cbn [mapM]. assert (outcome (MuxService.assetSettled r) = Ok (assetEntry r)) as Hr.
  { by destruct r. }
  rewrite (bind_Ok _ _ _ Hr). cbn [outcome events].
  rewrite (bind_Ok _ _ _ IHo). cbn [outcome events]. split; [done|].
  rewrite app_nil_r. apply Forall_app. split; [|done].
  destruct r; simpl; by repeat constructor.
Qed.

Lemma createMultipleAssets_run w videos :
  let tasks := map (fun video => MuxService.createAsset w (MuxService.input_url video)
                                   (MuxService.input_title video)) videos in
  MuxService.createMultipleAssets w videos
  = MkAsync [map events tasks;
             [events (mapM MuxService.assetSettled (map outcome tasks))]]
      (Ok (map assetEntry (map outcome tasks))).
Proof.
  intros tasks. unfold MuxService.createMultipleAssets, async_try_catch, mbind, Async_bind,
    Promise_allSettled, await. fold tasks. cbn [settled stages app].
  by rewrite (proj1 (mapM_assetSettled _)).
Qed.

(** X19.  [createMultipleAssets] never rejects.  It resolves to one entry
    per video, in the order of the videos: 'fulfilled' with the metadata of
    the asset, the title and the URL of the video when the asset was
    created, and 'rejected' otherwise, always with the reason
    ["Error: Failed to process video with Mux"], whatever made the creation
    fail. *)
Theorem createMultipleAssets_settles_every_video w videos :
  exists entries,
    settled (MuxService.createMultipleAssets w videos) = Ok entries
    /\ length entries = length videos
    /\ forall i video,
         videos !! i = Some video ->
         entries !! i
         = Some match mux_reply w (MuxService.input_url video) with
                | MuxCreated asset =>
                    {| MuxService.settled_status := S3Service.fulfilled;
                       MuxService.settled_value :=
                         Some {| MuxService.id := asset_id asset;
                                 MuxService.title := MuxService.input_title video;
                                 MuxService.status := asset_status asset;
                                 MuxService.duration := asset_duration asset;
                                 MuxService.aspectRatio := aspect_ratio asset;
                                 MuxService.playbackId := playback_ids asset ≫= head;
                                 MuxService.createdAt := created_at asset;
                                 MuxService.uploadId := upload_id asset;
                                 MuxService.s3Url := MuxService.input_url video |};
                       MuxService.settled_reason := None |}
                | MuxFailure _ =>
                    {| MuxService.settled_status := S3Service.rejected;
                       MuxService.settled_value := None;
                       MuxService.settled_reason :=
                         Some "Error: Failed to process video with Mux" |}
                end.
Proof.
  rewrite createMultipleAssets_run. eexists. split; [done|]. split.
  - by rewrite !length_map.
  - intros i video Hi. change (map ?f ?l) with (f <$> l).
    rewrite !list_lookup_fmap, Hi. simpl. f_equal.
    destruct (mux_reply w (MuxService.input_url video)) as [asset|m] eqn:Hm.
    + by rewrite (createAsset_success _ _ _ _ Hm).
    + by rewrite (createAsset_failure _ _ _ _ Hm).
Qed.

Lemma createMultipleAssets_settles_every_video_witness :
  exists entries,
    settled (MuxService.createMultipleAssets mux_down_world two_videos) = Ok entries
    /\ MuxService.settled_reason <$> entries
       = [Some "Error: Failed to process video with Mux";
          Some "Error: Failed to process video with Mux"].
Proof.
  destruct (createMultipleAssets_settles_every_video mux_down_world two_videos)
    as (es & Hes & Hlen & Hitems).
  exists es. split; [done|].
  pose proof (Hitems 0%nat _ eq_refl) as H0. pose proof (Hitems 1%nat _ eq_refl) as H1.
  destruct es as [|e0 [|e1 [|e2 es]]]; try discriminate.
  simpl in H0, H1. injection H0 as ->. injection H1 as ->. reflexivity.
Defined.

(** X20.  Every trace of [createMultipleAssets] holds exactly one asset
    creation per video of its argument, repeated URLs included, and no call
    to the storage service. *)
Theorem createMultipleAssets_creates_once_per_video w videos t :
  trace_of (stages (MuxService.createMultipleAssets w videos)) t ->
  calls is_asset_creation t = length videos
  /\ calls is_storage_call t = 0%nat.
Proof.
  rewrite createMultipleAssets_run. cbn [stages]. intros Ht.
  rewrite !(calls_trace_of _ _ _ Ht). unfold sequential_trace. cbn [map concat].
  rewrite !app_nil_r, !calls_app.
  destruct (mapM_assetSettled
              (map outcome
                 (map (fun video => MuxService.createAsset w (MuxService.input_url video)
                                      (MuxService.input_title video)) videos)))
    as [_ Hlog].
  rewrite (calls_none is_asset_creation (events _)), (calls_none is_storage_call (events _)).
  2:{ eapply Forall_impl; [exact Hlog|]. by intros ? [_ ?]. }
  2:{ eapply Forall_impl; [exact Hlog|]. by intros ? [? _]. }
  rewrite !Nat.add_0_r. clear Hlog Ht.
  induction videos as [|video videos [IH1 IH2]]; [done|].
  cbn [map concat length]. rewrite !calls_app, IH1, IH2.
  unfold MuxService.createAsset. run_task.
  destruct (mux_reply w (MuxService.input_url video)); simpl; by split.
Qed.

Lemma createMultipleAssets_creates_once_per_video_witness :
  calls is_asset_creation
    (sequential_trace (stages (MuxService.createMultipleAssets mux_down_world two_videos)))
  = 2%nat.
Proof.
  apply (createMultipleAssets_creates_once_per_video mux_down_world two_videos).
  apply trace_of_sequential.
Defined.

(** * The earlier revision *)

Lemma settled_bind {A B} (m : Async A) (f : A -> Async B) :
  settled (m ≫= f)
  = match settled m with
    | Ok a => settled (f a)
    | Throw e => Throw e
    end.
Proof. unfold mbind, Async_bind. by destruct (settled m). Qed.

Lemma mapM_Ok {A B} (f : A -> Task B) (g : A -> B) (l : list A) :
  (forall x, x ∈ l -> outcome (f x) = Ok (g x)) ->
  outcome (mapM f l) = Ok (map g l).
Proof.
  induction l as [|x l IH]; intros Hf; [done|].
  cbn [mapM]. rewrite (bind_Ok _ _ (g x)) by (apply Hf; by left). cbn [outcome].
  rewrite (bind_Ok _ _ (map g l)); [done|]. apply IH. intros y Hy. apply Hf. by right.
Qed.

Lemma mapM_Forall2 {A B} (f : A -> Task B) (l : list A) :
  (forall x, x ∈ l -> exists b, outcome (f x) = Ok b) ->
  exists bs, outcome (mapM f l) = Ok bs /\ Forall2 (fun x b => outcome (f x) = Ok b) l bs.
Proof.
  induction l as [|x l IH]; intros Hf.
  - exists []. by split.
  - destruct (Hf x) as [b Hb]; [by left|].
    destruct IH as (bs & Hbs & HF); [intros y Hy; apply Hf; by right|].
    exists (b :: bs). split; [|by constructor].
    cbn [mapM]. rewrite (bind_Ok _ _ _ Hb). cbn [outcome].
    by rewrite (bind_Ok _ _ _ Hbs).
Qed.

Lemma toString_or e : or_string (Some (toString e)) "Unknown error" = toString e.
Proof.
  unfold or_string. destruct (decide (toString e = "")) as [He|]; [|done].
  exfalso. destruct e as [m|m]; simpl in He; by destruct (decide (m = "")).
Qed.

Lemma legacy_settledEntry r :
  outcome (LegacyS3Service.settledEntry r) = Ok (legacyEntry r).
Proof.
  destruct r as [v|e]; [done|]. pose proof (toString_or e) as H.
  unfold LegacyS3Service.settledEntry, logger_error, emit, mbind, Task_bind.
  cbn [outcome mret Task_ret]. by rewrite H.
Qed.

Lemma legacy_uploadMultipleFiles_settled w i batch :
  settled (LegacyS3Service.uploadMultipleFiles w i batch None)
  = Ok (legacyS3Results w i batch).
Proof.
  unfold LegacyS3Service.uploadMultipleFiles. destruct batch as [|f fs]; [done|].
  set (ps := imap _ (f :: fs)). unfold async_try_catch.
  assert (settled (Promise_allSettled ps ≫= fun results =>
                     await (mapM LegacyS3Service.settledEntry results))
          = Ok (legacyS3Results w i (f :: fs))) as Hs.
  { rewrite settled_bind. cbn [Promise_allSettled settled await].
    rewrite (mapM_Ok _ legacyEntry) by (intros; apply legacy_settledEntry).
    f_equal. unfold ps, legacyS3Results, legacyUpload.
    change (map ?g ?l) with (g <$> l). by rewrite !fmap_imap. }
  by rewrite Hs.
Qed.

Lemma legacy_withTitles batch batchTitles (s3Results : list LegacyS3Service.Settled) :
  length s3Results = length batch ->
  outcome (mapM (fun '(index, result) =>
                   title ← UploadService.titleOf batch batchTitles index;
                   mret {| LegacyUploadService.s3 := result;
                           LegacyUploadService.s3_title := title |})
             (imap pair s3Results))
  = Ok (imap (fun n result =>
                {| LegacyUploadService.s3 := result;
                   LegacyUploadService.s3_title :=
                     or_string (batchTitles ≫= (fun ts => ts !! n))
                       (default "" (originalname <$> batch !! n)) |}) s3Results).
Proof.
  intros Hlen.
  rewrite (mapM_Ok _ (fun '(n, result) =>
                        {| LegacyUploadService.s3 := result;
                           LegacyUploadService.s3_title :=
                             or_string (batchTitles ≫= (fun ts => ts !! n))
                               (default "" (originalname <$> batch !! n)) |})).
  - f_equal. change (map ?g ?l) with (g <$> l). by rewrite fmap_imap.
  - intros [n result] (n' & r' & [= -> ->] & Hn)%elem_of_lookup_imap.
    destruct (batch !! n') as [file|] eqn:Hfile.
    + by rewrite (titleOf_Some _ _ _ _ Hfile).
    + apply lookup_ge_None in Hfile. apply lookup_lt_Some in Hn. lia.
Qed.

(** The filter and the map that build the argument of
    [createMultipleAssets]. *)
Lemma legacy_successful_videos (U : nat -> File -> Result LegacyS3Service.Stored)
    (T : nat -> File -> string) (batch : list File) :
  outcome (mapM LegacyUploadService.videoInput
             (List.filter LegacyUploadService.isSuccessful
                (imap (fun n file =>
                         {| LegacyUploadService.s3 := legacyEntry (U n file);
                            LegacyUploadService.s3_title := T n file |}) batch)))
  = Ok (omap id
          (imap (fun n file =>
                   match U n file with
                   | Ok stored =>
                       Some {| MuxService.input_url := LegacyS3Service.url stored;
                               MuxService.input_title := T n file |}
                   | Throw _ => None
                   end) batch)).
Proof.
  revert U T. induction batch as [|file batch IH]; intros U T; [done|].
  cbn [imap List.filter omap]. unfold LegacyUploadService.isSuccessful at 1.
  cbn [LegacyUploadService.s3]. destruct (U 0%nat file) as [stored|e].
  - cbn [legacyEntry LegacyS3Service.status LegacyS3Service.value mapM].
    erewrite bind_Ok by reflexivity. cbn [outcome].
    erewrite bind_Ok by exact (IH (U ∘ S) (T ∘ S)). done.
  - exact (IH (U ∘ S) (T ∘ S)).
Qed.

Lemma legacyS3Results_lookup w i batch j file :
  batch !! j = Some file ->
  legacyS3Results w i batch !! j = Some (legacyEntry (legacyUpload w i j file)).
Proof. intros Hj. unfold legacyS3Results. by rewrite list_lookup_imap, Hj. Qed.

Lemma legacyMuxResults_lookup w videos j :
  legacyMuxResults w videos !! j
  = (fun video => assetEntry (outcome (MuxService.createAsset w (MuxService.input_url video)
                                         (MuxService.input_title video))))
      <$> videos !! j.
Proof.
  unfold legacyMuxResults. change (map ?g ?l) with (g <$> l).
  rewrite !list_lookup_fmap. by destruct (videos !! j).
Qed.

Lemma originalnameAt_Some batch j file :
  batch !! j = Some file ->
  LegacyUploadService.originalnameAt batch j = MkTask [] (Ok (originalname file)).
Proof. intros Hj. unfold LegacyUploadService.originalnameAt. by rewrite Hj. Qed.

Lemma cleanupS3File_run w k :
  exists rest,
    LegacyUploadService.cleanupS3File w k
    = MkTask (S3Send (DeleteObjectCommand (bucketName w) k) :: rest) (Ok tt)
    /\ Forall (fun e => is_network_event e = false) rest.
Proof.
  unfold LegacyUploadService.cleanupS3File, S3Service.deleteFile. run_task.
  destruct (s3_reply w (DeleteObjectCommand (bucketName w) k)); simpl;
    eexists; (split; [reflexivity|]); by repeat constructor.
Qed.

(** A storage failure: the item is reported with the reason, nothing is
    sent. *)
Lemma processItem_rejected w i batch muxResults j file e :
  batch !! j = Some file ->
  legacyUpload w i j file = Throw e ->
  LegacyUploadService.processItem w batch (legacyS3Results w i batch) muxResults j
  = MkTask [] (Ok (legacyFailed (Some (toString e)) (originalname file))).
Proof.
  intros Hj He. unfold LegacyUploadService.processItem.
  rewrite (legacyS3Results_lookup _ _ _ _ _ Hj), He. cbn [legacyEntry LegacyS3Service.status].
  by rewrite (originalnameAt_Some _ _ _ Hj).
Qed.

(** A stored file: its result is read off the entry of [muxResults] at its
    own position. *)
Lemma processItem_stored w i batch videos j file stored :
  batch !! j = Some file ->
  legacyUpload w i j file = Ok stored ->
  match videos !! j with
  | Some input =>
      match mux_reply w (MuxService.input_url input) with
      | MuxCreated asset =>
          LegacyUploadService.processItem w batch (legacyS3Results w i batch)
            (legacyMuxResults w videos) j
          = MkTask []
              (Ok {| LegacyUploadService.result_status := UploadService.success;
                     LegacyUploadService.data :=
                       Some {| LegacyUploadService.id := asset_id asset;
                               LegacyUploadService.title := MuxService.input_title input;
                               LegacyUploadService.status := asset_status asset;
                               LegacyUploadService.uploadUrl := MuxService.input_url input;
                               LegacyUploadService.playbackId := playback_ids asset ≫= head;
                               LegacyUploadService.duration := asset_duration asset;
                               LegacyUploadService.aspectRatio := aspect_ratio asset;
                               LegacyUploadService.createdAt := created_at asset |};
                     LegacyUploadService.error := None;
                     LegacyUploadService.fileName := originalname file |})
      | MuxFailure _ =>
          exists rest,
            LegacyUploadService.processItem w batch (legacyS3Results w i batch)
              (legacyMuxResults w videos) j
            = MkTask (S3Send (DeleteObjectCommand (bucketName w) (LegacyS3Service.key stored))
                        :: rest)
                (Ok (legacyFailed (Some "Error: Failed to process video with Mux")
                       (originalname file)))
            /\ Forall (fun e => is_network_event e = false) rest
      end
  | None =>
      exists rest,
        LegacyUploadService.processItem w batch (legacyS3Results w i batch)
          (legacyMuxResults w videos) j
        = MkTask (S3Send (DeleteObjectCommand (bucketName w) (LegacyS3Service.key stored))
                    :: rest)
            (Ok (legacyFailed (Some "Failed to process with Mux") (originalname file)))
        /\ Forall (fun e => is_network_event e = false) rest
  end.
Proof.
  intros Hj Hs. unfold LegacyUploadService.processItem.
  rewrite (legacyS3Results_lookup _ _ _ _ _ Hj), Hs, legacyMuxResults_lookup.
  cbn [legacyEntry LegacyS3Service.status LegacyS3Service.value].
  rewrite (originalnameAt_Some _ _ _ Hj).
  destruct (cleanupS3File_run w (LegacyS3Service.key stored)) as (rest & Hc & Hrest).
  destruct (videos !! j) as [input|]; cbn [fmap option_fmap option_map].
  - destruct (mux_reply w (MuxService.input_url input)) as [asset|m] eqn:Hm.
    + rewrite (createAsset_success _ _ _ _ Hm). done.
    + rewrite (createAsset_failure _ _ _ _ Hm). cbn [assetEntry].
      rewrite Hc. exists rest. split; [|done]. unfold mbind, Task_bind. simpl.
      by rewrite app_nil_r.
  - rewrite Hc. exists rest. split; [|done]. unfold mbind, Task_bind. simpl.
    by rewrite app_nil_r.
Qed.

Lemma legacy_withTitles_videos w i batch batchTitles :
  outcome (mapM LegacyUploadService.videoInput
             (List.filter LegacyUploadService.isSuccessful
                (imap (fun n result =>
                         {| LegacyUploadService.s3 := result;
                            LegacyUploadService.s3_title :=
                              or_string (batchTitles ≫= (fun ts => ts !! n))
                                (default "" (originalname <$> batch !! n)) |})
                   (legacyS3Results w i batch))))
  = Ok (legacyVideos w i batch batchTitles).
Proof.
  unfold legacyS3Results. rewrite imap_imap.
  rewrite (legacy_successful_videos (legacyUpload w i)
             (fun n _ => or_string (batchTitles ≫= (fun ts => ts !! n))
                           (default "" (originalname <$> batch !! n)))).
  f_equal. unfold legacyVideos. f_equal. apply imap_ext. intros n file Hn.
  by rewrite Hn.
Qed.

(** What a batch resolves to: the results of the loop over its files. *)
Lemma processBatch_settled w i batch batchTitles :
  settled (LegacyUploadService.processBatch w i batch batchTitles)
  = outcome (mapM (LegacyUploadService.processItem w batch (legacyS3Results w i batch)
                     (legacyMuxResults w (legacyVideos w i batch batchTitles)))
               (seq 0 (length batch))).
Proof.
  unfold LegacyUploadService.processBatch.
  rewrite settled_bind, legacy_uploadMultipleFiles_settled.
  rewrite settled_bind. cbn [await settled logger_log emit outcome].
  rewrite settled_bind. cbn [await settled].
  rewrite legacy_withTitles by (unfold legacyS3Results; by rewrite length_imap).
  cbv zeta. rewrite settled_bind. cbn [await settled].
  rewrite legacy_withTitles_videos.
  rewrite settled_bind, createMultipleAssets_run. cbn [settled await].
  done.
Qed.

Lemma processItem_resolves w i batch videos j file :
  batch !! j = Some file ->
  exists r,
    outcome (LegacyUploadService.processItem w batch (legacyS3Results w i batch)
               (legacyMuxResults w videos) j) = Ok r
    /\ LegacyUploadService.fileName r = originalname file.
Proof.
  intros Hj. destruct (legacyUpload w i j file) as [stored|e] eqn:Hu.
  - pose proof (processItem_stored w i batch videos j file stored Hj Hu) as H.
    destruct (videos !! j) as [input|].
    + destruct (mux_reply w (MuxService.input_url input)).
      * rewrite H. by eexists.
      * destruct H as (rest & -> & _). by eexists.
    + destruct H as (rest & -> & _). by eexists.
  - rewrite (processItem_rejected _ _ _ _ _ _ _ Hj Hu). by eexists.
Qed.

(** A batch resolves to one result per file, in order. *)
Lemma processBatch_results w i batch batchTitles :
  exists results,
    settled (LegacyUploadService.processBatch w i batch batchTitles) = Ok results
    /\ length results = length batch
    /\ forall j file,
         batch !! j = Some file ->
         exists r,
           results !! j = Some r
           /\ outcome (LegacyUploadService.processItem w batch (legacyS3Results w i batch)
                         (legacyMuxResults w (legacyVideos w i batch batchTitles)) j) = Ok r.
Proof.
  rewrite processBatch_settled.
  destruct (mapM_Forall2
              (LegacyUploadService.processItem w batch (legacyS3Results w i batch)
                 (legacyMuxResults w (legacyVideos w i batch batchTitles)))
              (seq 0 (length batch))) as (rs & Hrs & HF).
  { intros j Hj%elem_of_seq.
    destruct (lookup_lt_is_Some_2 batch j) as [file Hfile]; [lia|].
    destruct (processItem_resolves w i batch (legacyVideos w i batch batchTitles) j file Hfile)
      as (r & Hr & _). eauto. }
  exists rs. split; [done|]. split.
  - by rewrite <- (Forall2_length _ _ _ HF), length_seq.
  - intros j file Hj.
    assert (seq 0 (length batch) !! j = Some j) as Hseq.
    { apply lookup_seq. split; [done|]. by apply lookup_lt_Some in Hj. }
    destruct (Forall2_lookup_l _ _ _ _ _ HF Hseq) as (r & Hr & Hout). eauto.
Qed.

Lemma stages_bind_Ok {A B} (m : Async A) (f : A -> Async B) a :
  settled m = Ok a -> stages (m ≫= f) = (stages m ++ stages (f a))%list.
Proof. intros H. unfold mbind, Async_bind. by rewrite H. Qed.

(** The loop over the batches: it adds one result per remaining file. *)
Lemma batches_results w files titles fuel i results :
  (length files - i <= fuel)%nat ->
  exists more,
    settled (LegacyUploadService.batches w files titles fuel i results)
    = Ok (results ++ more)%list
    /\ length more = (length files - i)%nat
    /\ forall j file,
         files !! (i + j)%nat = Some file ->
         exists r, more !! j = Some r /\ LegacyUploadService.fileName r = originalname file.
Proof.
  revert i results. induction fuel as [|fuel IH]; intros i results Hfuel.
  - exists []. cbn [LegacyUploadService.batches]. rewrite app_nil_r.
    split_and!; [done|simpl; lia|]. intros j file Hj%lookup_lt_Some. lia.
  - cbn [LegacyUploadService.batches]. case_bool_decide as Hi.
    2:{ exists []. rewrite app_nil_r. split_and!; [done|simpl; lia|].
        intros j file Hj%lookup_lt_Some. lia. }
    set (batch := take LegacyUploadService.MAX_CONCURRENT_UPLOADS (drop i files)).
    set (bt := take LegacyUploadService.MAX_CONCURRENT_UPLOADS ∘ drop i <$> titles).
    destruct (processBatch_results w i batch bt) as (br & Hbr & Hlen & Hitems).
    destruct (IH (i + LegacyUploadService.MAX_CONCURRENT_UPLOADS)%nat (results ++ br)%list)
      as (more & Hmore & Hmlen & Hmitems).
    { unfold LegacyUploadService.MAX_CONCURRENT_UPLOADS. lia. }
    assert (length batch = Nat.min 5 (length files - i)) as Hblen.
    { unfold batch, LegacyUploadService.MAX_CONCURRENT_UPLOADS.
      by rewrite length_take, length_drop. }
    exists (br ++ more)%list. rewrite settled_bind, Hbr, Hmore, <- app_assoc.
    split_and!; [done| |].
    + rewrite length_app, Hlen, Hmlen, Hblen.
      unfold LegacyUploadService.MAX_CONCURRENT_UPLOADS. lia.
    + intros j file Hj. destruct (decide (j < 5)%nat) as [Hlt|Hge].
      * assert (batch !! j = Some file) as Hbj.
        { unfold batch, LegacyUploadService.MAX_CONCURRENT_UPLOADS.
          rewrite lookup_take_lt by done. by rewrite lookup_drop. }
        destruct (Hitems j file Hbj) as (r & Hr & Hout).
        destruct (processItem_resolves w i batch (legacyVideos w i batch bt) j file Hbj)
          as (r' & Hout' & Hname).
        exists r. split; [by apply lookup_app_l_Some|]. congruence.
      * assert (length br = 5%nat) as Hbr5.
        { rewrite Hlen, Hblen. apply lookup_lt_Some in Hj. lia. }
        destruct (Hmitems (j - 5)%nat file) as (r & Hr & Hname).
        { rewrite <- Hj. f_equal. unfold LegacyUploadService.MAX_CONCURRENT_UPLOADS. lia. }
        exists r. split; [|done]. rewrite lookup_app_r by lia. by rewrite Hbr5.
Qed.

(** X21.  The earlier [uploadMultipleVideos] checks the request before
    anything else: with more than 10 files, and otherwise with a titles list
    whose length is not the number of files, it throws a
    [FileUploadException] and has no stage at all, so that no call is sent;
    the count of the files is checked first. *)
Theorem legacy_batch_preflight w files titles ts :
  ((10 < length files)%nat ->
   LegacyUploadService.uploadMultipleVideos w files titles
   = MkAsync [] (Throw (FileUploadException "Maximum 10 files allowed per request")))
  /\ ((length files <= 10)%nat -> length ts <> length files ->
      LegacyUploadService.uploadMultipleVideos w files (Some ts)
      = MkAsync [] (Throw (FileUploadException
                             "Number of titles must match number of files"))).
Proof.
  unfold LegacyUploadService.uploadMultipleVideos, LegacyUploadService.MAX_FILES_PER_REQUEST.
  split.
  - intros Hlen. by rewrite (proj2 (Nat.ltb_lt _ _) Hlen).
  - intros Hlen Hne. rewrite (proj2 (Nat.ltb_ge _ _) Hlen).
    by rewrite (proj2 (Nat.eqb_neq _ _) Hne).
Qed.

Lemma legacy_batch_preflight_witness :
  LegacyUploadService.uploadMultipleVideos good_world (replicate 11 clip) None
  = MkAsync [] (Throw (FileUploadException "Maximum 10 files allowed per request"))
  /\ LegacyUploadService.uploadMultipleVideos good_world [clip; clip; clip] (Some ["a"; "b"])
     = MkAsync [] (Throw (FileUploadException
                            "Number of titles must match number of files")).
Proof.
  split.
  - apply (legacy_batch_preflight good_world (replicate 11 clip) None []). simpl. lia.
  - apply (legacy_batch_preflight good_world [clip; clip; clip] None ["a"; "b"]);
      simpl; lia.
Defined.

(** X22.  The earlier handler of the batch endpoint replaces a titles
    field that is not an array by the empty array, which the service then
    compares with the files: unless the body holds an array of titles with
    one entry per file, a request with at least one file is rejected with a
    [FileUploadException] before any call. *)
Theorem legacy_handler_requires_titles w files rawTitles :
  files <> [] ->
  (forall items, rawTitles = UploadController.array items -> length items <> length files) ->
  exists msg,
    LegacyUploadController.uploadMultipleVideos w files rawTitles
    = MkAsync [] (Throw (FileUploadException msg)).
Proof.
  intros Hne Harr.
  unfold LegacyUploadController.uploadMultipleVideos,
    LegacyUploadService.uploadMultipleVideos.
  destruct (_ <? _)%nat; [by eexists|].
  set (titles := match rawTitles with
                 | UploadController.array items => map UploadController.sanitizeTitle items
                 | _ => []
                 end).
  assert (length titles <> length files) as Hlen.
  { subst titles. destruct rawTitles as [| |items].
    - by destruct files.
    - by destruct files.
    - rewrite length_map. by apply Harr. }
  rewrite (proj2 (Nat.eqb_neq _ _) Hlen). by eexists.
Qed.

Lemma legacy_handler_requires_titles_witness :
  LegacyUploadController.uploadMultipleVideos good_world [clip] UploadController.absent
  = MkAsync [] (Throw (FileUploadException "Number of titles must match number of files")).
Proof.
  destruct (legacy_handler_requires_titles good_world [clip] UploadController.absent)
    as [msg Hmsg]; [done|done|].
  rewrite Hmsg. vm_compute in Hmsg. by injection Hmsg as <-.
Defined.

(** X23.  When the request passes these checks (at most 10 files, no
    titles list or one entry per file), the earlier [uploadMultipleVideos]
    resolves to one result per file, in the order of the files, each with
    the original name of its file. *)
Theorem legacy_batch_one_result_per_file w files titles :
  (length files <= 10)%nat ->
  (forall ts, titles = Some ts -> length ts = length files) ->
  exists results,
    settled (LegacyUploadService.uploadMultipleVideos w files titles) = Ok results
    /\ length results = length files
    /\ forall j file,
         files !! j = Some file ->
         exists r, results !! j = Some r
                   /\ LegacyUploadService.fileName r = originalname file.
Proof.
  intros Hmax Htitles. unfold LegacyUploadService.uploadMultipleVideos,
    LegacyUploadService.MAX_FILES_PER_REQUEST.
  rewrite (proj2 (Nat.ltb_ge _ _) Hmax).
  assert (match titles with
          | Some ts => negb (length ts =? length files)%nat
          | None => false
          end = false) as ->.
  { destruct titles as [ts|]; [|done]. rewrite (Htitles ts eq_refl).
    by rewrite Nat.eqb_refl. }
  destruct (batches_results w files titles (length files) 0 []) as (more & Hs & Hlen & Hitems);
    [lia|].
  unfold async_try_catch. rewrite Hs. exists more. split_and!; [done|lia|done].
Qed.

Lemma legacy_batch_one_result_per_file_witness :
  exists results,
    settled (LegacyUploadService.uploadMultipleVideos good_world
               [clip; big_png; clip; clip; clip; clip; big_png] None) = Ok results
    /\ length results = 7%nat.
Proof.
  destruct (legacy_batch_one_result_per_file good_world
              [clip; big_png; clip; clip; clip; clip; big_png] None)
    as (rs & Hrs & Hlen & _).
  - simpl. lia.
  - discriminate.
  - exists rs. by split.
Defined.

Lemma mapM_events_elem {A B} (f : A -> Task B) (l : list A) x e :
  (forall y, y ∈ l -> exists b, outcome (f y) = Ok b) ->
  x ∈ l -> e ∈ events (f x) -> e ∈ events (mapM f l).
Proof.
  induction l as [|y l IH]; intros Hf Hx He; [by apply elem_of_nil in Hx|].
  destruct (Hf y) as [b Hb]; [by left|].
  destruct (mapM_Forall2 f l) as (bs & Hbs & _); [intros z Hz; apply Hf; by right|].
  cbn [mapM]. rewrite (bind_Ok _ _ _ Hb). cbn [events].
  rewrite (bind_Ok _ _ _ Hbs). cbn [events]. rewrite app_nil_r.
  apply elem_of_app. apply elem_of_cons in Hx as [->|Hx]; [by left|right].
  apply IH; [|done..]. intros z Hz. apply Hf. by right.
Qed.

(** The loop over the files of a batch is its last stage. *)
Lemma processBatch_last_stage w i batch batchTitles :
  exists earlier,
    stages (LegacyUploadService.processBatch w i batch batchTitles)
    = (earlier
       ++ [[events (mapM (LegacyUploadService.processItem w batch (legacyS3Results w i batch)
                            (legacyMuxResults w (legacyVideos w i batch batchTitles)))
                      (seq 0 (length batch)))]])%list.
Proof.
  unfold LegacyUploadService.processBatch.
  rewrite (stages_bind_Ok _ _ _ (legacy_uploadMultipleFiles_settled w i batch)).
  rewrite (stages_bind_Ok _ _ tt) by done.
  erewrite stages_bind_Ok.
  2:{ cbn [await settled]. apply legacy_withTitles. unfold legacyS3Results.
      by rewrite length_imap. }
  cbv zeta. erewrite stages_bind_Ok.
  2:{ cbn [await settled]. apply legacy_withTitles_videos. }
  erewrite stages_bind_Ok by (rewrite createMultipleAssets_run; reflexivity).
  cbn [await stages]. rewrite !app_assoc. by eexists.
Qed.

(** A request of at most five files is one batch. *)
Lemma legacy_single_batch w files titles :
  files <> [] -> (length files <= 5)%nat ->
  (forall ts, titles = Some ts -> length ts = length files) ->
  exists batchTitles,
    settled (LegacyUploadService.uploadMultipleVideos w files titles)
    = settled (LegacyUploadService.processBatch w 0 files batchTitles)
    /\ stages (LegacyUploadService.uploadMultipleVideos w files titles)
       = stages (LegacyUploadService.processBatch w 0 files batchTitles)
    /\ legacyVideos w 0 files batchTitles = legacyVideos w 0 files titles.
Proof.
  intros Hne Hlen Htitles.
  exists (take LegacyUploadService.MAX_CONCURRENT_UPLOADS ∘ drop 0 <$> titles).
  set (bt := take LegacyUploadService.MAX_CONCURRENT_UPLOADS ∘ drop 0 <$> titles).
  destruct (processBatch_results w 0 files bt) as (br & Hbr & _).
  assert (match titles with
          | Some ts => negb (length ts =? length files)%nat
          | None => false
          end = false) as Hmis.
  { destruct titles as [ts|]; [|done]. rewrite (Htitles ts eq_refl).
    by rewrite Nat.eqb_refl. }
  assert (LegacyUploadService.batches w files titles (length files) 0 []
          = MkAsync (stages (LegacyUploadService.processBatch w 0 files bt)) (Ok br)) as Hrun.
  { destruct files as [|f fs]; [done|]. cbn [length LegacyUploadService.batches].
    rewrite bool_decide_eq_true_2 by (simpl; lia).
    rewrite drop_0, take_ge by (unfold LegacyUploadService.MAX_CONCURRENT_UPLOADS; done).
    fold bt. unfold mbind, Async_bind. rewrite Hbr.
    assert (LegacyUploadService.batches w (f :: fs) titles (length fs)
              (0 + LegacyUploadService.MAX_CONCURRENT_UPLOADS) ([] ++ br)
            = MkAsync [] (Ok br)) as ->.
    { destruct (length fs) eqn:Hfs; [done|]. cbn [LegacyUploadService.batches].
      rewrite bool_decide_eq_false_2; [done|].
      unfold LegacyUploadService.MAX_CONCURRENT_UPLOADS. simpl in *. lia. }
    cbn [stages settled]. by rewrite app_nil_r. }
  unfold LegacyUploadService.uploadMultipleVideos, LegacyUploadService.MAX_FILES_PER_REQUEST.
  rewrite (proj2 (Nat.ltb_ge _ _)) by lia. rewrite Hmis, Hrun. unfold async_try_catch.
  cbn [settled stages]. split_and!; [done..|].
  unfold legacyVideos. f_equal. apply imap_ext. intros n file Hn.
  destruct (legacyUpload w 0 n file); [|done]. do 3 f_equal.
  subst bt. destruct titles as [ts|]; [|done]. simpl.
  rewrite drop_0, lookup_take_lt; [done|].
  apply lookup_lt_Some in Hn. unfold LegacyUploadService.MAX_CONCURRENT_UPLOADS. lia.
Qed.

(** The stored files come first in [legacyVideos] as long as no file before
    them failed. *)
Lemma omap_imap_aligned {A B} (F : nat -> A -> option B) (l : list A) j x :
  l !! j = Some x ->
  (forall k y, (k < j)%nat -> l !! k = Some y -> is_Some (F k y)) ->
  omap id (imap F l) !! j = F j x \/ (F j x = None).
Proof.
  revert F j. induction l as [|y l IH]; intros F j Hj Hbefore; [done|].
  cbn [imap omap]. destruct j as [|j]; simpl in Hj.
  - injection Hj as ->. destruct (F 0%nat x); simpl; [by left|by right].
  - destruct (Hbefore 0%nat y) as [b Hb]; [lia|done|]. rewrite Hb. simpl.
    apply (IH (F ∘ S) j Hj). intros k z Hk Hz. apply (Hbefore (S k)); [lia|done].
Qed.

(** X24.  In a request of at most five files, the earlier
    [uploadMultipleVideos] reads the outcome of the asset creation of a
    stored file at the position of that file in the request, although
    [createMultipleAssets] was given the stored files only.  The result of
    stored file [j] is therefore decided by the [j]-th stored file: it carries
    the title and the URL of that one when its asset was created; and when
    there are fewer stored files than that, or when that asset creation
    failed, file [j] is reported 'failed' and every trace holds the delete of
    its own object.  The positions agree when every file before [j] is
    stored. *)
Theorem legacy_batch_reads_mux_results_by_position w files titles j file stored :
  (length files <= 5)%nat ->
  (forall ts, titles = Some ts -> length ts = length files) ->
  files !! j = Some file ->
  outcome (LegacyS3Service.uploadFile w (randomUUID w j) file None) = Ok stored ->
  (exists results r,
     settled (LegacyUploadService.uploadMultipleVideos w files titles) = Ok results
     /\ results !! j = Some r
     /\ match legacyVideos w 0 files titles !! j with
        | Some input =>
            match mux_reply w (MuxService.input_url input) with
            | MuxCreated asset =>
                r = {| LegacyUploadService.result_status := UploadService.success;
                       LegacyUploadService.data :=
                         Some {| LegacyUploadService.id := asset_id asset;
                                 LegacyUploadService.title := MuxService.input_title input;
                                 LegacyUploadService.status := asset_status asset;
                                 LegacyUploadService.uploadUrl := MuxService.input_url input;
                                 LegacyUploadService.playbackId :=
                                   playback_ids asset ≫= head;
                                 LegacyUploadService.duration := asset_duration asset;
                                 LegacyUploadService.aspectRatio := aspect_ratio asset;
                                 LegacyUploadService.createdAt := created_at asset |};
                       LegacyUploadService.error := None;
                       LegacyUploadService.fileName := originalname file |}
            | MuxFailure _ =>
                r = legacyFailed (Some "Error: Failed to process video with Mux")
                      (originalname file)
                /\ forall t,
                     trace_of (stages (LegacyUploadService.uploadMultipleVideos w files
                                         titles)) t ->
                     S3Send (DeleteObjectCommand (bucketName w) (LegacyS3Service.key stored))
                     ∈ t
            end
        | None =>
            r = legacyFailed (Some "Failed to process with Mux") (originalname file)
            /\ forall t,
                 trace_of (stages (LegacyUploadService.uploadMultipleVideos w files titles))
                   t ->
                 S3Send (DeleteObjectCommand (bucketName w) (LegacyS3Service.key stored)) ∈ t
        end)
  /\ ((forall k fk, (k < j)%nat -> files !! k = Some fk ->
         exists sk, outcome (LegacyS3Service.uploadFile w (randomUUID w k) fk None) = Ok sk) ->
      legacyVideos w 0 files titles !! j
      = Some {| MuxService.input_url := LegacyS3Service.url stored;
                MuxService.input_title :=
                  or_string (titles ≫= (fun ts => ts !! j)) (originalname file) |}).
Proof.
  intros Hlen Htitles Hj Hstored.
  assert (files <> []) as Hne by (intros ->; done).
  assert (legacyUpload w 0 j file = Ok stored) as Hup by exact Hstored.
  split.
  - destruct (legacy_single_batch w files titles Hne Hlen Htitles)
      as (bt & Hset & Hstages & Hvideos).
    destruct (processBatch_results w 0 files bt) as (rs & Hrs & _ & Hitems).
    destruct (Hitems j file Hj) as (r & Hr & Hout).
    destruct (processBatch_last_stage w 0 files bt) as (earlier & Hlast).
    rewrite Hvideos in Hout, Hlast.
    exists rs, r. split_and!; [congruence|done|].
    assert (forall rest,
              events (LegacyUploadService.processItem w files (legacyS3Results w 0 files)
                        (legacyMuxResults w (legacyVideos w 0 files titles)) j)
              = S3Send (DeleteObjectCommand (bucketName w) (LegacyS3Service.key stored))
                :: rest ->
              forall t,
                trace_of (stages (LegacyUploadService.uploadMultipleVideos w files titles)) t ->
                S3Send (DeleteObjectCommand (bucketName w) (LegacyS3Service.key stored)) ∈ t)
      as Hdelete.
    { intros rest Hev t Ht. rewrite Hstages, Hlast in Ht.
      eapply (trace_of_elem_inv _ _ _ _ _ Ht).
      - apply elem_of_app. right. apply elem_of_cons. by left.
      - apply elem_of_cons. by left.
      - apply (mapM_events_elem _ _ j).
        + intros k Hk%elem_of_seq.
          destruct (lookup_lt_is_Some_2 files k) as [fk Hfk]; [lia|].
          destruct (processItem_resolves w 0 files (legacyVideos w 0 files titles) k fk Hfk)
            as (rk & Hrk & _). eauto.
        + apply elem_of_seq. apply lookup_lt_Some in Hj. lia.
        + rewrite Hev. apply elem_of_cons. by left. }
    pose proof (processItem_stored w 0 files (legacyVideos w 0 files titles) j file stored
                  Hj Hup) as Hcase.
    destruct (legacyVideos w 0 files titles !! j) as [input|].
    + destruct (mux_reply w (MuxService.input_url input)).
      * rewrite Hcase in Hout. by injection Hout as <-.
      * destruct Hcase as (rest & Hrun & _). rewrite Hrun in Hout. injection Hout as <-.
        split; [done|]. apply (Hdelete rest). by rewrite Hrun.
    + destruct Hcase as (rest & Hrun & _). rewrite Hrun in Hout. injection Hout as <-.
      split; [done|]. apply (Hdelete rest). by rewrite Hrun.
  - intros Hbefore. unfold legacyVideos.
    destruct (omap_imap_aligned
                (fun n file =>
                   match legacyUpload w 0 n file with
                   | Ok stored =>
                       Some {| MuxService.input_url := LegacyS3Service.url stored;
                               MuxService.input_title :=
                                 or_string (titles ≫= (fun ts => ts !! n))
                                   (originalname file) |}
                   | Throw _ => None
                   end) files j file Hj) as [H|H].
    + intros k fk Hk Hfk. destruct (Hbefore k fk Hk Hfk) as [sk Hsk].
      unfold legacyUpload. simpl. by rewrite Hsk.
    + rewrite H. by rewrite Hup.
    + rewrite Hup in H. discriminate.
Qed.

Lemma legacy_batch_reads_mux_results_by_position_witness :
  exists results,
    settled (LegacyUploadService.uploadMultipleVideos good_world [big_png; clip] None)
    = Ok results
    /\ results !! 1%nat = Some (legacyFailed (Some "Failed to process with Mux") "clip.mp4")
    /\ mux_reply good_world "https://bucket.s3.eu-west-1.amazonaws.com/videos/uuid1-clip.mp4"
       = MuxCreated sample_asset.
Proof.
  destruct (legacy_batch_reads_mux_results_by_position good_world [big_png; clip] None 1 clip
              {| LegacyS3Service.url :=
                   "https://bucket.s3.eu-west-1.amazonaws.com/videos/uuid1-clip.mp4";
                 LegacyS3Service.key := "videos/uuid1-clip.mp4" |})
    as [(rs & r & Hrs & Hr & Hcase) _].
  - simpl. lia.
  - discriminate.
  - reflexivity.
  - vm_compute. reflexivity.
  - exists rs. split_and!; [done| |reflexivity].
    rewrite Hr. f_equal. vm_compute in Hcase. by destruct Hcase as [-> _].
Defined.

(** The earlier [uploadFile] sends at most the one write; when it resolves the
    write is what it did. *)
Lemma legacy_uploadFile_run w uuid file :
  let put := S3Send (PutObjectCommand (bucketName w) (S3Service.objectKey "videos" uuid file)
                       (buffer file) (mimetype file)) in
  (exists e, outcome (LegacyS3Service.uploadFile w uuid file None) = Throw e
             /\ calls is_delete (events (LegacyS3Service.uploadFile w uuid file None)) = 0%nat)
  \/ LegacyS3Service.uploadFile w uuid file None
     = MkTask [put]
         (Ok {| LegacyS3Service.url :=
                  S3Service.objectUrl w (S3Service.objectKey "videos" uuid file);
                LegacyS3Service.key := S3Service.objectKey "videos" uuid file |}).
Proof.
  unfold LegacyS3Service.uploadFile, LegacyS3Service.validateFile.
  destruct (_ || _).
  - left. run_task. by eexists.
  - run_task. case_replies.
    + by right.
    + left. by eexists.
Qed.

(** X25.  The earlier [uploadVideo] rejects instead of returning a 'failed'
    result: whatever goes wrong, it throws a [FileUploadException] whose
    message starts with 'Failed to process video upload: '.  It never sends a
    delete: when the file is stored and the asset creation fails, the object
    written stays in the bucket.  When the file is stored and the asset is
    created, it resolves to the asset's fields with the title supplied (the
    file name when there is none) and the object's URL as [uploadUrl]. *)
Theorem legacy_uploadVideo_throws_and_keeps_object w file title :
  (forall e, outcome (LegacyUploadService.uploadVideo w file title) = Throw e ->
     exists msg, e = FileUploadException ("Failed to process video upload: " +:+ msg))
  /\ calls is_delete (events (LegacyUploadService.uploadVideo w file title)) = 0%nat
  /\ (forall s,
        outcome (LegacyS3Service.uploadFile w (randomUUID w 0) file None) = Ok s ->
        S3Send (PutObjectCommand (bucketName w) (LegacyS3Service.key s) (buffer file)
                  (mimetype file))
        ∈ events (LegacyUploadService.uploadVideo w file title)
        /\ match mux_reply w (LegacyS3Service.url s) with
           | MuxCreated asset =>
               outcome (LegacyUploadService.uploadVideo w file title)
               = Ok {| LegacyUploadService.id := asset_id asset;
                       LegacyUploadService.title := or_string title (originalname file);
                       LegacyUploadService.status := asset_status asset;
                       LegacyUploadService.uploadUrl := LegacyS3Service.url s;
                       LegacyUploadService.playbackId := playback_ids asset ≫= head;
                       LegacyUploadService.duration := asset_duration asset;
                       LegacyUploadService.aspectRatio := aspect_ratio asset;
                       LegacyUploadService.createdAt := created_at asset |}
           | MuxFailure _ =>
               outcome (LegacyUploadService.uploadVideo w file title)
               = Throw (FileUploadException
                          "Failed to process video upload: Failed to process video with Mux")
           end).
Proof.
  unfold LegacyUploadService.uploadVideo.
  destruct (legacy_uploadFile_run w (randomUUID w 0) file) as [(e & He & Hdel)|Hrun].
  - rewrite (try_catch_Throw _ _ e) by (by rewrite (bind_Throw _ _ e He)).
    rewrite (bind_Throw _ _ e He). cbn [events outcome]. split_and!.
    + intros e' [= <-]. by eexists.
    + rewrite calls_app, Hdel. done.
    + intros s Hs. congruence.
  - rewrite Hrun. unfold MuxService.createAsset. run_task. case_replies.
    + split_and!; [done|done|]. intros s [= <-]. simpl. split; [by left|].
      by rewrite Heqm.
    + split_and!; [intros e [= <-]; by eexists|done|]. intros s [= <-]. simpl.
      split; [by left|]. by rewrite Heqm.
Qed.

Lemma legacy_uploadVideo_throws_and_keeps_object_witness :
  outcome (LegacyUploadService.uploadVideo mux_down_world clip None)
  = Throw (FileUploadException
             "Failed to process video upload: Failed to process video with Mux")
  /\ S3Send (PutObjectCommand "bucket" "videos/uuid0-clip.mp4" [] "video/mp4")
     ∈ events (LegacyUploadService.uploadVideo mux_down_world clip None).
Proof.
  destruct (legacy_uploadVideo_throws_and_keeps_object mux_down_world clip None)
    as (_ & _ & H).
  destruct (H {| LegacyS3Service.url :=
                   "https://bucket.s3.eu-west-1.amazonaws.com/videos/uuid0-clip.mp4";
                 LegacyS3Service.key := "videos/uuid0-clip.mp4" |}) as [Hput Hout].
  - vm_compute. reflexivity.
  - split; [exact Hout|exact Hput].
Defined.
